(** * Silhouette measurement engine of YeadonModelGenerator

    A shallow embedding of [src/utils/get_maximum.py] and of the measurement
    methods of [YeadonModel] in [src/im2meas.py], with the properties of the
    ray caster, the width finders, the extremum search, the angular pit search,
    the region locators, the perimeter formulas, the landmarks derived from
    the keypoints and the resizing of the pictures.

    Numbers.  A Python or numpy float is a rational number here ([Q]): the
    arithmetic of the source is carried out exactly, so rounding, overflow,
    infinities and NaN are outside the model: where a coordinate of a ray
    is an integer in exact arithmetic, binary64 can fall just beside it, so
    the iteration at which a ray reaches a pixel, and on such a line the
    pixel itself, can differ from the model.  [int(...)] is truncation
    toward zero.  The functions numpy takes from the platform's mathematical
    library ([np.sin], [np.cos], [np.arctan2], the square root behind
    [np.linalg.norm], the constant [np.pi]) are a parameter, the record
    [Libm]; every general statement holds for all of them, under the
    hypotheses it spells out.

    Control.  A [while True] loop takes a fuel argument and yields [OutOfFuel]
    when it is exhausted; a Python exception is the outcome [Raise].  A
    function with nested loops gives the same fuel to each of them.

    Examples.  The module [Approx] is a rational stand-in for the
    mathematical library, and [Examples] holds small rasters; the closed
    statements about concrete inputs are evaluated with them. *)

From Stdlib Require Import ZArith QArith Qabs Qround Qreduction Lia Lqa List Bool.
Import ListNotations.

Local Open Scope Z_scope.
Local Open Scope Q_scope.

(* ===================================================================== *)
(** * Python and numpy values *)
(* ===================================================================== *)

(** The exceptions the modelled code can raise, each named by the class
    that is raised.  The classes are not unrelated: see [is_instance]. *)
Inductive exn : Set :=
| ValueError   (* numpy: operands could not be broadcast together *)
| AxisError    (* numpy: axis 1 is out of bounds for array of dimension 1 *)
| IndexError   (* index 0 is out of bounds for axis 0 with size 0 *)
| TypeError.   (* list indices must be integers or slices, not NoneType *)

(** [isinstance(e, cls)]: numpy declares [AxisError] as a subclass of both
    [ValueError] and [IndexError], so a handler for either catches it; the
    other three classes are unrelated to one another. *)
Definition is_instance (e cls : exn) : bool :=
  match e, cls with
  | ValueError, ValueError => true
  | AxisError, (AxisError | ValueError | IndexError) => true
  | IndexError, IndexError => true
  | TypeError, TypeError => true
  | _, _ => false
  end.

(** Outcome of a call: a value, an exception that leaves the function, or
    a loop that is still running when the fuel is spent. *)
Inductive outcome (A : Type) : Type :=
| Ok (a : A)
| Raise (e : exn)
| OutOfFuel.

Arguments Ok {A} a.
Arguments Raise {A} e.
Arguments OutOfFuel {A}.

Definition bind {A B : Type} (r : outcome A) (k : A -> outcome B) : outcome B :=
  match r with
  | Ok a => k a
  | Raise e => Raise e
  | OutOfFuel => OutOfFuel
  end.

Notation "x <- r ;; k" := (bind r (fun x => k))
  (at level 61, r at next level, right associativity).

(** [int(q)]: truncation toward zero. *)
Definition py_int (q : Q) : Z := Z.quot (Qnum q) (Zpos (Qden q)).

(** The mathematical library behind numpy. *)
Record Libm : Type := {
  np_sin : Q -> Q;
  np_cos : Q -> Q;
  np_arctan2 : Q -> Q -> Q;
  np_sqrt : Q -> Q;
  np_pi : Q
}.

(** A landmark or an origin: two floats.  A hit: two integers. *)
Definition Point2D : Set := (Q * Q)%type.
Definition Pixel : Set := (Z * Z)%type.

(** The edge raster: [shape0] rows and [shape1] columns of pixel values;
    the boundary value is 255.  [pixel] is read only inside the shape.  The
    raster [_canny_edges] draws has three channels per pixel, of which the
    contour colour (0, 255, 0) sets one; the value kept here is that
    channel, so [np.any(edges[x, y] == 255)] is [pixel = 255] and
    [np.where] lists a pixel once. *)
Record Raster : Type := {
  shape0 : nat;
  shape1 : nat;
  pixel : nat -> nat -> Z
}.

Definition boundary_value : Z := 255%Z.

(** [edges[x, y] == 255] for indices already checked against the shape. *)
Definition is_boundary (edges : Raster) (x y : Z) : bool :=
  (pixel edges (Z.to_nat x) (Z.to_nat y) =? boundary_value)%Z.

(** [x < 0 or x >= edges.shape[0] or y < 0 or y >= edges.shape[1]] *)
Definition out_of_bounds (edges : Raster) (x y : Z) : bool :=
  (x <? 0)%Z || (x >=? Z.of_nat (shape0 edges))%Z
  || (y <? 0)%Z || (y >=? Z.of_nat (shape1 edges))%Z.

(** A raster written row by row. *)
Definition raster_of_rows (rows : list (list Z)) : Raster :=
  {| shape0 := length rows;
     shape1 := length (hd [] rows);
     pixel := fun r c => nth c (nth r rows []) 0%Z |}.

(* ===================================================================== *)
(** * Ray casting *)
(* ===================================================================== *)

(** [pt_from], [find_edge] and [get_points] occur with the same body in
    [utils/get_maximum.py] (lines 4, 12, 28) and nested in
    [YeadonModel._get_maximum] ([im2meas.py] lines 470, 479, 495); they are
    embedded once. *)
Section RayCasting.
Variable L : Libm.

(** [x = origin[1] + np.sin(angle) * distance;
     y = origin[0] + np.cos(angle) * distance;
     return np.array([int(y), int(x)])] *)
Definition pt_from (origin : Point2D) (angle distance : Q) : Pixel :=
  let x := snd origin + np_sin L angle * distance in
  let y := fst origin + np_cos L angle * distance in
  (py_int y, py_int x).

(** The [while True] loop of [find_edge], entered with the current
    [distance]; [distance += 0.01] keeps the sum in lowest terms. *)
Fixpoint find_edge_loop (fuel : nat) (p1 : Point2D) (angle_radians : Q)
    (edges : Raster) (distance : Q) : outcome (list Pixel) :=
  match fuel with
  | O => OutOfFuel
  | S fuel' =>
      let '(x, y) := pt_from p1 angle_radians distance in
      if out_of_bounds edges x y then Ok []
      else if is_boundary edges x y then Ok [(y, x)]
      else find_edge_loop fuel' p1 angle_radians edges
             (Qred (distance + 0.01))
  end.

Definition find_edge (fuel : nat) (p1 p2 : Point2D) (angle_radians : Q)
    (edges : Raster) : outcome (list Pixel) :=
  find_edge_loop fuel p1 angle_radians edges 0.

(** [p1 = [start[1], start[0]]; p2 = [end[1], end[0]]] *)
Definition get_points (start end_ : Point2D) : Point2D * Point2D :=
  ((snd start, fst start), (snd end_, fst end_)).

End RayCasting.

(* ===================================================================== *)
(** * The numpy and Python operations the measurements use *)
(* ===================================================================== *)

Definition Qlt_bool (a b : Q) : bool := negb (Qle_bool b a).

(** The arrays built from a list of hits: [np.array([])] has shape [(0,)],
    [np.array([(y, x), ...])] has shape [(n, 2)]. *)
Inductive ndarray : Set :=
| Arr0
| ArrN2 (rows : list Pixel).

Definition np_array (l : list Pixel) : ndarray :=
  match l with
  | [] => Arr0
  | _ :: _ => ArrN2 l
  end.

Definition pixel_sub (a b : Pixel) : Pixel :=
  ((fst a - fst b)%Z, (snd a - snd b)%Z).

(** [a - b] with numpy's broadcasting: shapes [(n, 2)] and [(m, 2)] combine
    when [n = m] or one of them is 1; [(0,)] combines with [(0,)] only. *)
Definition np_sub (a b : ndarray) : outcome ndarray :=
  match a, b with
  | Arr0, Arr0 => Ok Arr0
  | ArrN2 l, ArrN2 m =>
      if Nat.eqb (length l) (length m)
      then Ok (ArrN2 (map (fun ab => pixel_sub (fst ab) (snd ab)) (combine l m)))
      else match l, m with
           | [p], _ => Ok (ArrN2 (map (fun q => pixel_sub p q) m))
           | _, [q] => Ok (ArrN2 (map (fun p => pixel_sub p q) l))
           | _, _ => Raise ValueError
           end
  | _, _ => Raise ValueError
  end.

Definition np_abs (a : ndarray) : ndarray :=
  match a with
  | Arr0 => Arr0
  | ArrN2 l => ArrN2 (map (fun p => (Z.abs (fst p), Z.abs (snd p))) l)
  end.

Definition sum_squares (l : list Pixel) : Z :=
  fold_right (fun p acc => (fst p * fst p + snd p * snd p + acc)%Z) 0%Z l.

(** [np.linspace(start, stop, num)] *)
Definition np_linspace (start stop : Q) (num : nat) : list Q :=
  let step := (stop - start) / inject_Z (Z.of_nat (num - 1)) in
  map (fun i => inject_Z (Z.of_nat i) * step + start) (seq 0 num).

(** [l[i]] on a list or on a one-dimensional array. *)
Definition index {A : Type} (l : list A) (i : nat) : outcome A :=
  match nth_error l i with
  | Some a => Ok a
  | None => Raise IndexError
  end.

(** Python's order on tuples and on lists of tuples, and [max(a, b)]. *)
Definition tuple_ltb (a b : Pixel) : bool :=
  if (fst a =? fst b)%Z then (snd a <? snd b)%Z else (fst a <? fst b)%Z.

Definition tuple_eqb (a b : Pixel) : bool :=
  (fst a =? fst b)%Z && (snd a =? snd b)%Z.

Fixpoint list_ltb (a b : list Pixel) : bool :=
  match a, b with
  | [], [] => false
  | [], _ :: _ => true
  | _ :: _, [] => false
  | x :: a', y :: b' => if tuple_eqb x y then list_ltb a' b' else tuple_ltb x y
  end.

Definition py_max (a b : list Pixel) : list Pixel :=
  if list_ltb a b then b else a.

(** [np.where(cond)] on a raster: the matching positions in row-major order,
    as (row, column) pairs; [np.where(cond)[0]] is the list of their rows and
    [np.where(cond)[1]] the list of their columns. *)
Definition np_where (cond : Z -> bool) (img : Raster) : list (nat * nat) :=
  flat_map (fun r => map (fun c => (r, c))
                       (filter (fun c => cond (pixel img r c)) (seq 0 (shape1 img))))
           (seq 0 (shape0 img)).

Definition where_rows (w : list (nat * nat)) : list nat := map fst w.
Definition where_cols (w : list (nat * nat)) : list nat := map snd w.

(** Start and stop of the slice [a:b] of an axis of length [len]. *)
Definition slice_index (len : nat) (i : Z) : nat :=
  Z.to_nat (if (i <? 0)%Z then Z.max (i + Z.of_nat len) 0
            else Z.min i (Z.of_nat len)).

(** [image[y1:y2, x1:x2].copy()] *)
Definition np_slice2 (image : Raster) (y1 y2 x1 x2 : Z) : Raster :=
  let r1 := slice_index (shape0 image) y1 in
  let r2 := slice_index (shape0 image) y2 in
  let c1 := slice_index (shape1 image) x1 in
  let c2 := slice_index (shape1 image) x2 in
  {| shape0 := r2 - r1;
     shape1 := c2 - c1;
     pixel := fun r c => pixel image (r1 + r) (c1 + c) |}.

(** [img[:k, :] = 0] and [img[:, :k] = 0] for [k >= 0]. *)
Definition zero_rows_before (k : nat) (img : Raster) : Raster :=
  {| shape0 := shape0 img;
     shape1 := shape1 img;
     pixel := fun r c => if Nat.ltb r k then 0%Z else pixel img r c |}.

Definition zero_cols_before (k : nat) (img : Raster) : Raster :=
  {| shape0 := shape0 img;
     shape1 := shape1 img;
     pixel := fun r c => if Nat.ltb c k then 0%Z else pixel img r c |}.

Section Norms.
Variable L : Libm.

(** [np.linalg.norm(a)]: the square root of the sum of the squares of all
    entries (0.0 under the root for the empty array). *)
Definition norm (a : ndarray) : Q :=
  match a with
  | Arr0 => np_sqrt L 0
  | ArrN2 l => np_sqrt L (inject_Z (sum_squares l))
  end.

(** [np.linalg.norm(a, axis=1)]: one norm per row; a one-dimensional
    array has no axis 1. *)
Definition norm_axis1 (a : ndarray) : outcome (list Q) :=
  match a with
  | Arr0 => Raise AxisError
  | ArrN2 l =>
      Ok (map (fun p => np_sqrt L (inject_Z (fst p * fst p + snd p * snd p))) l)
  end.

End Norms.

(** Arrays of two floats (a keypoint, a landmark): [a + b], [a - b],
    [a * k] and [a / k]. *)
Definition arr_add (a b : Point2D) : Point2D := (fst a + fst b, snd a + snd b).
Definition arr_sub (a b : Point2D) : Point2D := (fst a - fst b, snd a - snd b).
Definition arr_mul (a : Point2D) (k : Q) : Point2D := (fst a * k, snd a * k).
Definition arr_div (a : Point2D) (k : Q) : Point2D := (fst a / k, snd a / k).

(** [np.mean(l, axis=0)] for a non-empty list of such arrays. *)
Definition np_mean_axis0 (l : list Point2D) : Point2D :=
  arr_div (fold_left arr_add l (0, 0)) (inject_Z (Z.of_nat (length l))).

(** [l[a:b]] for [0 <= a <= b]. *)
Definition py_slice {A : Type} (l : list A) (a b : nat) : list A :=
  firstn (b - a) (skipn a l).

(** [np.linalg.norm(a)] for an array of two floats. *)
Definition norm2 (L : Libm) (a : Point2D) : Q :=
  np_sqrt L (fst a * fst a + snd a * snd a).

(* ===================================================================== *)
(** * [src/utils/get_maximum.py] *)
(* ===================================================================== *)

Module get_maximum.
Section WithLibm.
Variable L : Libm.

(** [if len(top_arr) != len(bottom_arr): print(...); return] yields [None];
    otherwise the index kept by the loop, which starts from [norms[0]] and
    leaves at the first norm above both the running maximum and 1.5 times
    [norms[0]]. *)
Fixpoint get_max_approx_loop (norms0 : Q) (norms : list Q) (i : nat)
    (max_norm : Q) (save_index : nat) : nat :=
  match norms with
  | [] => save_index
  | n :: rest =>
      if Qlt_bool max_norm n then
        if Qlt_bool (norms0 * 1.5) n then save_index
        else get_max_approx_loop norms0 rest (S i) n i
      else get_max_approx_loop norms0 rest (S i) max_norm save_index
  end.

Definition get_max_approx (top_arr bottom_arr : list Pixel)
    : outcome (option nat) :=
  if negb (Nat.eqb (length top_arr) (length bottom_arr)) then Ok None
  else
    vector <- np_sub (np_array top_arr) (np_array bottom_arr) ;;
    norms <- norm_axis1 L vector ;;
    max_norm <- index norms 0 ;;
    Ok (Some (get_max_approx_loop max_norm norms 0 max_norm 0)).

Definition vector_angle_plus (p1 p2 : Point2D) : Q :=
  let vector := (fst p2 - fst p1, snd p2 - snd p1) in
  np_arctan2 L (snd vector) (fst vector) + np_pi L / 2.

Definition vector_angle_minus (p1 p2 : Point2D) : Q :=
  let vector := (fst p2 - fst p1, snd p2 - snd p1) in
  np_arctan2 L (snd vector) (fst vector) - np_pi L / 2.

(** One ray per point of [result]; a ray that leaves the raster adds
    nothing to [save]. *)
Fixpoint get_maximum_range (fuel : nat) (angle_radians : Q)
    (result : list Point2D) (edges : Raster) : outcome (list Pixel) :=
  match result with
  | [] => Ok []
  | point :: rest =>
      hit <- find_edge_loop L fuel point angle_radians edges 0 ;;
      save <- get_maximum_range fuel angle_radians rest edges ;;
      Ok (hit ++ save)
  end.

Definition _get_maximum (fuel : nat) (start end_ : Point2D) (edges : Raster)
    (angle is_start : Q) : outcome Q :=
  let '(p1, p2) := get_points start end_ in
  let vector := (fst p2 - fst p1, snd p2 - snd p1) in
  let angle_radians := np_arctan2 L (snd vector) (fst vector) - angle in
  max1 <- find_edge L fuel p1 p2 angle_radians edges ;;
  let angle_radians :=
    (np_arctan2 L (snd vector) (fst vector) + angle) * is_start in
  max2 <- find_edge L fuel p1 p2 angle_radians edges ;;
  d <- np_sub (np_array max1) (np_array max2) ;;
  Ok (norm L d).

Definition get_maximum_line (fuel : nat) (start end_ : Point2D)
    (edges : Raster) : outcome Q :=
  _get_maximum fuel start end_ edges 0 (-1).

Definition get_maximum_start (fuel : nat) (start end_ : Point2D)
    (edges : Raster) : outcome Q :=
  _get_maximum fuel start end_ edges (np_pi L / 2) 1.

(** [result = [(y, x) for x, y in zip(x_values, y_values)]] *)
Definition sample_points (p1 p2 : Point2D) : list Point2D :=
  let x_values := np_linspace (snd p1) (snd p2) 100 in
  let y_values := np_linspace (fst p1) (fst p2) 100 in
  map (fun xy => (snd xy, fst xy)) (combine x_values y_values).

(** [result[index][::-1]]; indexing a list with [None] is a TypeError. *)
Definition index_reversed (result : list Point2D) (i : option nat)
    : outcome Point2D :=
  match i with
  | None => Raise TypeError
  | Some i => p <- index result i ;; Ok (snd p, fst p)
  end.

Definition get_maximum_point (fuel : nat) (start end_ : Point2D)
    (edges : Raster) : outcome Point2D :=
  let '(p1, p2) := get_points start end_ in
  let result := sample_points p1 p2 in
  let angle_radians := vector_angle_plus p1 p2 in
  r_side <- get_maximum_range fuel angle_radians result edges ;;
  let angle_radians := vector_angle_minus p1 p2 in
  l_side <- get_maximum_range fuel angle_radians result edges ;;
  i <- get_max_approx r_side l_side ;;
  index_reversed result i.

(** One of the two [while True] loops of [get_maximum_pit]: [next] is
    [+= 0.01] or [-= 0.01]; the loop returns the saved and the last hit
    list. *)
Fixpoint climb (fuel n : nat) (next : Q -> Q) (point point2 : Point2D)
    (edges : Raster) (angle : Q) (max_save : list Pixel)
    : outcome (list Pixel * list Pixel) :=
  match n with
  | O => OutOfFuel
  | S n' =>
      let angle := next angle in
      max_last <- find_edge L fuel point point2 angle edges ;;
      if Qlt_bool (norm L (np_array max_last)) (norm L (np_array max_save))
      then Ok (max_save, max_last)
      else climb fuel n' next point point2 edges angle max_last
  end.

Definition get_maximum_pit (fuel : nat) (start : Point2D) (edges : Raster)
    : outcome (Pixel * Z) :=
  let point := (snd start, fst start) in
  let point2 := (fst point + 5, snd point) in
  let vector := (fst point2 - fst point, snd point2 - snd point) in
  let angle_radians := np_arctan2 L (snd vector) (fst vector) in
  max_save <- find_edge L fuel point point2 angle_radians edges ;;
  right <- climb fuel fuel (fun a => a + 0.01) point point2 edges
                 angle_radians max_save ;;
  let '(max_save_right, max_last_right) := right in
  left <- climb fuel fuel (fun a => a - 0.01) point point2 edges
                angle_radians max_save ;;
  let '(max_save_left, max_last_left) := left in
  d <- np_sub (np_array max_last_left) (np_array max_last_right) ;;
  let delta := norm L (np_abs d) in
  let distance := norm L (np_array (py_max max_save_left max_last_right)) in
  let point := py_max max_save_left max_last_right in
  p <- index point 0 ;;
  Ok (p, py_int distance).

End WithLibm.
End get_maximum.

(* ===================================================================== *)
(** * The measurement methods of [YeadonModel] ([src/im2meas.py]) *)
(* ===================================================================== *)

(** The nested helpers [vector_angle_plus], [vector_angle_minus] and
    [get_maximum_range] of [_get_maximum_point] have the bodies of the free
    functions of [utils/get_maximum.py] and are taken from there.  [data] is
    the keypoint table of the pose estimator ([predictions[0].data[:, 0:2]]).
    The raster has one value per pixel. *)
Module YeadonModel.
Section WithLibm.
Variable L : Libm.

Definition _get_maximum (fuel : nat) (start end_ : Point2D) (edges : Raster)
    (angle is_start : Q) : outcome Q :=
  let '(p1, p2) := get_points start end_ in
  let vector := (fst p2 - fst p1, snd p2 - snd p1) in
  let angle_radians := np_arctan2 L (snd vector) (fst vector) - angle in
  max1 <- find_edge L fuel p1 p2 angle_radians edges ;;
  let angle_radians :=
    (np_arctan2 L (snd vector) (fst vector) + angle) * is_start in
  max2 <- find_edge L fuel p1 p2 angle_radians edges ;;
  d <- np_sub (np_array max1) (np_array max2) ;;
  Ok (norm L d).

Definition _get_maximum_line (fuel : nat) (start end_ : Point2D)
    (edges : Raster) : outcome Q :=
  _get_maximum fuel start end_ edges 0 (-1).

Definition _get_maximum_start (fuel : nat) (start end_ : Point2D)
    (edges : Raster) : outcome Q :=
  _get_maximum fuel start end_ edges (np_pi L / 2) 1.

(** The nested [get_max_approx]: the loop starts from 0 and has no
    early exit. *)
Fixpoint get_max_approx_loop (norms : list Q) (i : nat)
    (max_norm : Q) (save_index : nat) : nat :=
  match norms with
  | [] => save_index
  | n :: rest =>
      if Qlt_bool max_norm n
      then get_max_approx_loop rest (S i) n i
      else get_max_approx_loop rest (S i) max_norm save_index
  end.

Definition get_max_approx (top_arr bottom_arr : list Pixel)
    : outcome (option nat) :=
  if negb (Nat.eqb (length top_arr) (length bottom_arr)) then Ok None
  else
    let max_norm := 0 in
    let save_index := O in
    vector <- np_sub (np_array top_arr) (np_array bottom_arr) ;;
    norms <- norm_axis1 L vector ;;
    Ok (Some (get_max_approx_loop norms 0 max_norm save_index)).

Definition _get_maximum_point (fuel : nat) (start end_ : Point2D)
    (edges : Raster) : outcome Point2D :=
  let '(p1, p2) := get_points start end_ in
  let result := get_maximum.sample_points p1 p2 in
  let angle_radians := get_maximum.vector_angle_plus L p1 p2 in
  r_side <- get_maximum.get_maximum_range L fuel angle_radians result edges ;;
  let angle_radians := get_maximum.vector_angle_minus L p1 p2 in
  l_side <- get_maximum.get_maximum_range L fuel angle_radians result edges ;;
  i <- get_max_approx r_side l_side ;;
  get_maximum.index_reversed result i.

(** [crop(image, position_1, position_2)] *)
Definition crop (image : Raster) (position_1 position_2 : Point2D) : Raster :=
  let '(x1, y1) := (py_int (fst position_1), py_int (snd position_1)) in
  let '(x2, y2) := (py_int (fst position_2), py_int (snd position_2)) in
  let '(x1, x2) := if (x1 >? x2)%Z then (x2, x1) else (x1, x2) in
  let '(y1, y2) := if (y1 >? y2)%Z then (y2, y1) else (y1, y2) in
  np_slice2 image y1 y2 x1 x2.

Definition nonzero (v : Z) : bool := negb (v =? 0)%Z.
Definition is_255 (v : Z) : bool := (v =? 255)%Z.

Definition _get_crotch_right_left (edges : Raster) (data : nat -> Point2D)
    : outcome (Point2D * Point2D) :=
  let crotch_zone := crop edges (data 12%nat) (data 13%nat) in
  c <- index (where_cols (np_where nonzero crotch_zone)) 0 ;;
  r <- index (where_rows (np_where nonzero crotch_zone)) 1 ;;
  let crotch_approx_crop := (c, r) in
  let crotch_approx_right :=
    (fst (data 12%nat),
     snd (data 12%nat) + inject_Z (Z.of_nat (snd crotch_approx_crop))) in
  let crotch_approx_left :=
    (fst (data 11%nat),
     snd (data 11%nat) + inject_Z (Z.of_nat (snd crotch_approx_crop))) in
  Ok (crotch_approx_right, crotch_approx_left).

(** [len(cropped_img[0])]: row 0 of an array without rows is an
    IndexError. *)
Definition len_row0 (img : Raster) : outcome nat :=
  if Nat.eqb (shape0 img) 0 then Raise IndexError else Ok (shape1 img).

Definition _find_acromion_right (edges : Raster) (data : nat -> Point2D)
    : outcome Point2D :=
  let '(r_ear, r_shoulder) := (data 4%nat, data 6%nat) in
  let cropped_img := crop edges r_ear r_shoulder in
  let cropped_img :=
    zero_rows_before (Nat.div (shape0 cropped_img) 2) cropped_img in
  w <- len_row0 cropped_img ;;
  let cropped_img := zero_cols_before (Nat.div w 2) cropped_img in
  c <- index (where_cols (np_where is_255 cropped_img)) 0 ;;
  r <- index (where_rows (np_where is_255 cropped_img)) 0 ;;
  Ok (fst r_ear - inject_Z (Z.of_nat c), snd r_ear + inject_Z (Z.of_nat r)).

Definition _find_acromion_left (edges : Raster) (data : nat -> Point2D)
    : outcome Point2D :=
  let '(l_ear, l_shoulder) := (data 3%nat, data 5%nat) in
  let cropped_img := crop edges l_ear l_shoulder in
  let cropped_img :=
    zero_rows_before (Nat.div (shape0 cropped_img) 2) cropped_img in
  w <- len_row0 cropped_img ;;
  let cropped_img := zero_cols_before (Nat.div w 2) cropped_img in
  c <- index (where_cols (np_where is_255 cropped_img)) 0 ;;
  r <- index (where_rows (np_where is_255 cropped_img)) 0 ;;
  Ok (fst l_ear + inject_Z (Z.of_nat c), snd l_ear + inject_Z (Z.of_nat r)).

Definition _find_top_of_head (edges : Raster) : outcome (nat * nat) :=
  c <- index (where_cols (np_where nonzero edges)) 0 ;;
  r <- index (where_rows (np_where nonzero edges)) 0 ;;
  Ok (c, r).

Definition _stadium_perimeter (width depth : Q) : Q :=
  let radius := depth / 2 in
  let a := width - depth in
  let perimeter := 2 * (np_pi L * radius + a) in
  perimeter.

Definition _circle_perimeter (diag : Q) : Q :=
  let r := diag / 2 in
  2 * np_pi L * r.

(** The landmarks [__init__] derives from the front raster, in the order
    of lines 185 to 192; no call is guarded, so the first exception ends
    the construction of the model. *)
Record FrontLandmarks : Type := {
  left_acromion : Point2D;
  right_acromion : Point2D;
  top_of_head : nat * nat;
  right_maximum_forearm : Point2D;
  left_maximum_forearm : Point2D;
  right_maximum_calf : Point2D;
  left_maximum_calf : Point2D;
  right_crotch : Point2D;
  left_crotch : Point2D
}.

Definition init_front_landmarks (fuel : nat) (edges : Raster)
    (data : nat -> Point2D) : outcome FrontLandmarks :=
  la <- _find_acromion_left edges data ;;
  ra <- _find_acromion_right edges data ;;
  th <- _find_top_of_head edges ;;
  rf <- _get_maximum_point fuel (data 10%nat) (data 8%nat) edges ;;
  lf <- _get_maximum_point fuel (data 9%nat) (data 7%nat) edges ;;
  rc <- _get_maximum_point fuel (data 16%nat) (data 14%nat) edges ;;
  lc <- _get_maximum_point fuel (data 15%nat) (data 13%nat) edges ;;
  cr <- _get_crotch_right_left edges data ;;
  Ok {| left_acromion := la; right_acromion := ra; top_of_head := th;
        right_maximum_forearm := rf; left_maximum_forearm := lf;
        right_maximum_calf := rc; left_maximum_calf := lc;
        right_crotch := fst cr; left_crotch := snd cr |}.

Definition _get_mid_thigh_right_left (data : nat -> Point2D)
    (r_crotch l_crotch : Point2D) : Point2D * Point2D :=
  let mid_thigh_right := arr_div (arr_add (data 14%nat) r_crotch) 2 in
  let mid_thigh_left := arr_div (arr_add (data 13%nat) l_crotch) 2 in
  (mid_thigh_right, mid_thigh_left).

(** [RESIZE_SIZE = 600] (line 8). *)
Definition RESIZE_SIZE : Z := 600%Z.

(** What [_resize] does with the image: [im.copy()], or [im.resize(size)]
    where [size] is (width, height) as PIL takes it. *)
Inductive resized : Set :=
| Copy
| Resize (size : Z * Z).

(** [_resize] on an image of the given height and width (PIL sizes, not
    negative).  [None] is the ZeroDivisionError of [RESIZE_SIZE / 0].  The
    products are exact here; in binary64 a product that is an integer here
    can fall just below it, and [int] is then one less. *)
Definition _resize (height width : Z) : option resized :=
  let '(x_im, y_im) := (height, width) in
  if ((x_im =? 0) || (y_im =? 0))%Z then None
  else
    let '(x_ratio, y_ratio) :=
      (inject_Z RESIZE_SIZE / inject_Z x_im,
       inject_Z RESIZE_SIZE / inject_Z y_im) in
    let min_ratio := if Qlt_bool y_ratio x_ratio then y_ratio else x_ratio in
    if Qle_bool 1 min_ratio then Some Copy
    else
      let '(x_resize, y_resize) :=
        (py_int (min_ratio * inject_Z x_im),
         py_int (min_ratio * inject_Z y_im)) in
      Some (Resize (y_resize, x_resize)).

(** The landmarks [__init__] computes from the keypoints of the front
    picture alone (lines 84 to 101 and 159 to 182). *)
Definition hand_pos : list nat :=
  [96; 100; 104; 108; 117; 121; 125; 129;
   98; 102; 106; 110; 119; 123; 127; 131]%nat.

Definition hand_part_pos (data : nat -> Point2D) : list Point2D :=
  map data hand_pos.

Definition left_knuckles (data : nat -> Point2D) : Point2D :=
  np_mean_axis0 (py_slice (hand_part_pos data) 0 3).

Definition right_knuckles (data : nat -> Point2D) : Point2D :=
  np_mean_axis0 (py_slice (hand_part_pos data) 4 7).

Definition left_nails (data : nat -> Point2D) : Point2D :=
  np_mean_axis0 (py_slice (hand_part_pos data) 8 11).

Definition right_nails (data : nat -> Point2D) : Point2D :=
  np_mean_axis0 (py_slice (hand_part_pos data) 12 15).

Definition left_lowest_front_rib (data : nat -> Point2D) : Point2D :=
  arr_div (arr_add (data 5%nat) (data 11%nat)) 2.

Definition right_lowest_front_rib (data : nat -> Point2D) : Point2D :=
  arr_div (arr_add (data 6%nat) (data 12%nat)) 2.

Definition left_nipple (data : nat -> Point2D) : Point2D :=
  arr_div (arr_add (left_lowest_front_rib data) (data 5%nat)) 2.

Definition right_nipple (data : nat -> Point2D) : Point2D :=
  arr_div (arr_add (right_lowest_front_rib data) (data 6%nat)) 2.

Definition left_umbiculus (data : nat -> Point2D) : Point2D :=
  arr_div (arr_add (arr_mul (left_lowest_front_rib data) 3)
                   (arr_mul (data 11%nat) 2)) 5.

Definition right_umbiculus (data : nat -> Point2D) : Point2D :=
  arr_div (arr_add (arr_mul (right_lowest_front_rib data) 3)
                   (arr_mul (data 12%nat) 2)) 5.

(** The trunk levels among the measurements ([self.keypoints], lines 313
    to 323): [abs(landmark[1] - left_hip[1])]. *)
Definition Ls1L (data : nat -> Point2D) : Q :=
  Qabs (snd (left_umbiculus data) - snd (data 11%nat)).

Definition Ls2L (data : nat -> Point2D) : Q :=
  Qabs (snd (left_lowest_front_rib data) - snd (data 11%nat)).

Definition Ls3L (data : nat -> Point2D) : Q :=
  Qabs (snd (left_nipple data) - snd (data 11%nat)).

Definition Ls4L (data : nat -> Point2D) : Q :=
  Qabs (snd (data 5%nat) - snd (data 11%nat)).

(** The hip to crotch lengths (lines 409 and 438):
    [np.linalg.norm(hip - crotch)]. *)
Definition Lj1L (data : nat -> Point2D) (left_crotch : Point2D) : Q :=
  norm2 L (arr_sub (data 11%nat) left_crotch).

Definition Lk1L (data : nat -> Point2D) (right_crotch : Point2D) : Q :=
  norm2 L (arr_sub (data 12%nat) right_crotch).

End WithLibm.
End YeadonModel.

(* ===================================================================== *)
(** * A mathematical library to run the examples *)
(* ===================================================================== *)

(** Rational approximations of the functions of [Libm], used to evaluate
    the measurements on concrete rasters.  At the quarter turns the sine
    and cosine are the values the binary64 library returns; elsewhere they
    are Taylor polynomials, cut after eighteen decimal places. *)
Module Approx.

Definition pi : Q := 3.141592653589793.

(** Rounding down to eighteen decimal places. *)
Definition round18 (q : Q) : Q :=
  Qred ((Qnum q * 10 ^ 18 / Zpos (Qden q)) # 10 ^ 18).

Fixpoint taylor (n : nat) (x2 term : Q) (k : Z) (acc : Q) : Q :=
  match n with
  | O => acc
  | S n' =>
      let term' := Qred (- term * x2 / inject_Z ((k + 1) * (k + 2))) in
      taylor n' x2 term' (k + 2)%Z (Qred (acc + term'))
  end.

Definition sin (a : Q) : Q :=
  let a := Qred a in
  if Qeq_bool a (pi / 2) then 1
  else if Qeq_bool a (- (pi / 2)) then -1
  else if Qeq_bool a pi then 0.00000000000000012246467991473532
  else if Qeq_bool a (- pi) then -0.00000000000000012246467991473532
  else round18 (taylor 12 (Qred (a * a)) a 1 a).

Definition cos (a : Q) : Q :=
  let a := Qred a in
  if Qeq_bool a (pi / 2) then 0.00000000000000006123233995736766
  else if Qeq_bool a (- (pi / 2)) then 0.00000000000000006123233995736766
  else if Qeq_bool a pi then -1
  else if Qeq_bool a (- pi) then -1
  else round18 (taylor 12 (Qred (a * a)) 1 0 1).

(** Euler's series for the arc tangent of [t] with [|t| <= 1]. *)
Fixpoint atan_series (n : nat) (y term : Q) (k : Z) (acc : Q) : Q :=
  match n with
  | O => acc
  | S n' =>
      let term' := Qred (term * y * inject_Z (2 * k + 2)
                         / inject_Z (2 * k + 3)) in
      atan_series n' y term' (k + 1)%Z (acc + term')
  end.

Definition atan_small (t : Q) : Q :=
  let y := t * t / (1 + t * t) in
  let t0 := t / (1 + t * t) in
  round18 (atan_series 40 y t0 0 t0).

Definition atan (t : Q) : Q :=
  if Qle_bool t (-1) then - (pi / 2) - atan_small (/ t)
  else if Qle_bool 1 t then pi / 2 - atan_small (/ t)
  else atan_small t.

Definition arctan2 (y x : Q) : Q :=
  if Qeq_bool y 0 then (if Qle_bool 0 x then 0 else pi)
  else if Qeq_bool x 0 then (if Qle_bool 0 y then pi / 2 else - (pi / 2))
  else if Qle_bool 0 x then atan (y / x)
  else if Qle_bool 0 y then atan (y / x) + pi
  else atan (y / x) - pi.

(** Square root to fifteen decimal places, exact on perfect squares. *)
Definition sqrt (q : Q) : Q :=
  Qred (Z.sqrt (Qnum q * 10 ^ 30 / Zpos (Qden q)) # 10 ^ 15).

Definition libm : Libm :=
  {| np_sin := sin; np_cos := cos; np_arctan2 := arctan2;
     np_sqrt := sqrt; np_pi := pi |}.

End Approx.

(* ===================================================================== *)
(** * What a ray does *)
(* ===================================================================== *)

Section RaySemantics.
Variable L : Libm.

(** The value of [distance] when the loop of [find_edge] starts its
    iteration number [k] (counted from 0). *)
Fixpoint distance_at (k : nat) : Q :=
  match k with
  | O => 0
  | S k' => Qred (distance_at k' + 0.01)
  end.

(** The pixel the loop looks at in iteration [k]: (row, column). *)
Definition pixel_at (p1 : Point2D) (angle : Q) (k : nat) : Pixel :=
  pt_from L p1 angle (distance_at k).

Definition outside (edges : Raster) (px : Pixel) : bool :=
  out_of_bounds edges (fst px) (snd px).

Definition on_boundary (edges : Raster) (px : Pixel) : bool :=
  is_boundary edges (fst px) (snd px).

(** Pixel [j] lets the ray pass: it is inside the raster and is no
    boundary pixel. *)
Definition clear (p1 : Point2D) (angle : Q) (edges : Raster) (j : nat)
    : Prop :=
  outside edges (pixel_at p1 angle j) = false /\
  on_boundary edges (pixel_at p1 angle j) = false.

(** Pixel [n] ends the ray with the hit list [r]: it is outside the raster
    and [r] is empty (a miss), or it is a boundary pixel and [r] holds it
    as (column, row). *)
Definition final (p1 : Point2D) (angle : Q) (edges : Raster) (n : nat)
    (r : list Pixel) : Prop :=
  (outside edges (pixel_at p1 angle n) = true /\ r = []) \/
  (outside edges (pixel_at p1 angle n) = false /\
   on_boundary edges (pixel_at p1 angle n) = true /\
   r = [(snd (pixel_at p1 angle n), fst (pixel_at p1 angle n))]).

(** The ray from [p1] at [angle] stops in iteration [n] with the hit list
    [r]: every earlier pixel is clear and pixel [n] is final. *)
Definition ray_stops_at (p1 : Point2D) (angle : Q) (edges : Raster)
    (n : nat) (r : list Pixel) : Prop :=
  (forall j, (j < n)%nat -> clear p1 angle edges j) /\
  final p1 angle edges n r.

End RaySemantics.

(* ===================================================================== *)
(** * Example rasters *)
(* ===================================================================== *)

Module Examples.

(** Two rows, two columns, no boundary pixel. *)
Definition blank22 : Raster := raster_of_rows [[0; 0]; [0; 0]]%Z.

(** One row whose last pixel is a boundary pixel. *)
Definition row_right : Raster := raster_of_rows [[0; 0; 255]]%Z.

(** One row with a boundary pixel at either end. *)
Definition row_both : Raster := raster_of_rows [[255; 0; 255]]%Z.

(** Five rows: boundary pixels left and right of rows 1 and 3, and one
    below the middle column. *)
Definition frame : Raster :=
  raster_of_rows [[0; 0; 0; 0; 0];
                  [255; 0; 0; 0; 255];
                  [0; 0; 0; 0; 0];
                  [255; 0; 0; 0; 255];
                  [0; 0; 255; 0; 0]]%Z.

(** Ten rows, three columns: a boundary pixel at the bottom of the middle
    column and one on either side in the row above. *)
Definition pit_raster : Raster :=
  raster_of_rows [[0; 0; 0]; [0; 0; 0]; [0; 0; 0]; [0; 0; 0]; [0; 0; 0];
                  [0; 0; 0]; [0; 0; 0]; [0; 0; 0];
                  [255; 0; 255];
                  [0; 255; 0]]%Z.

(** One row: a boundary pixel on the left, none on the right. *)
Definition left_edge : Raster := raster_of_rows [[255; 0]]%Z.

(** Two rows: the silhouette is two pixels wide in row 0 and four pixels
    wide in row 1. *)
Definition taper : Raster :=
  raster_of_rows [[0; 255; 0; 255; 0];
                  [255; 0; 0; 0; 255]]%Z.

(** Ten rows, three columns: a boundary pixel at the bottom of the middle
    column and one to its left in the row above. *)
Definition pit_left : Raster :=
  raster_of_rows [[0; 0; 0]; [0; 0; 0]; [0; 0; 0]; [0; 0; 0]; [0; 0; 0];
                  [0; 0; 0]; [0; 0; 0]; [0; 0; 0];
                  [255; 0; 0];
                  [0; 255; 0]]%Z.

(** Four rows, four columns: a boundary pixel in the first and in the last
    corner, and one in the middle of the last row. *)
Definition corners : Raster :=
  raster_of_rows [[255; 0; 0; 0];
                  [0; 0; 0; 0];
                  [0; 0; 0; 0];
                  [0; 0; 255; 255]]%Z.

(** Three rows: no boundary pixel in row 0; below it the silhouette of
    [taper], two pixels wide in row 1 and four pixels wide in row 2. *)
Definition taper_below : Raster :=
  raster_of_rows [[0; 0; 0; 0; 0];
                  [0; 255; 0; 255; 0];
                  [255; 0; 0; 0; 255]]%Z.

End Examples.

(* ===================================================================== *)
(** * Distances, and the width across a line as the specification words it *)
(* ===================================================================== *)

(** The distance between two hit points. *)
Definition pixel_distance (L : Libm) (h1 h2 : Pixel) : Q :=
  np_sqrt L (inject_Z ((fst h1 - fst h2) * (fst h1 - fst h2)
                       + (snd h1 - snd h2) * (snd h1 - snd h2))).

Section SpecWidth.
Variable L : Libm.

(** [widthAcrossLine] after section 4.2 of the specification: one ray from
    [start] and one ray from [end], perpendicular to the vector from [start]
    to [end] and pointing in opposite directions ([flip] chooses which ray
    takes which side); the result is the distance between the two hit
    points, or the miss sentinel [None] when a ray leaves the raster. *)
Definition spec_width_across_line (fuel : nat) (flip : bool)
    (start end_ : Point2D) (edges : Raster) : outcome (option Q) :=
  let '(p1, p2) := get_points start end_ in
  let theta := np_arctan2 L (snd p2 - snd p1) (fst p2 - fst p1) in
  let quarter := if flip then - (np_pi L / 2) else np_pi L / 2 in
  hit1 <- find_edge L fuel p1 p2 (theta + quarter) edges ;;
  hit2 <- find_edge L fuel p2 p1 (theta - quarter) edges ;;
  match hit1, hit2 with
  | [h1], [h2] => Ok (Some (pixel_distance L h1 h2))
  | _, _ => Ok None
  end.

End SpecWidth.

(* ===================================================================== *)
(** * Local widths and their maxima *)
(* ===================================================================== *)

(** The local widths of paired hit points: entry [i] is the distance between
    [r_side[i]] and [l_side[i]]. *)
Definition widths (L : Libm) (r_side l_side : list Pixel) : list Q :=
  map (fun ab => pixel_distance L (fst ab) (snd ab)) (combine r_side l_side).

(** The local width of sample [i] of the extremum search, after section 4.3
    of the specification: two rays from the sample, perpendicular to the
    segment, one to either side; the distance between the two hit points,
    or [None] when a ray leaves the raster. *)
Definition local_width (L : Libm) (fuel : nat) (start end_ : Point2D)
    (edges : Raster) (i : nat) : outcome (option Q) :=
  let '(p1, p2) := get_points start end_ in
  sample <- index (get_maximum.sample_points p1 p2) i ;;
  r <- find_edge L fuel sample p2 (get_maximum.vector_angle_plus L p1 p2) edges ;;
  l <- find_edge L fuel sample p2 (get_maximum.vector_angle_minus L p1 p2) edges ;;
  match r, l with
  | [a], [b] => Ok (Some (pixel_distance L a b))
  | _, _ => Ok None
  end.

(** [i] is the first index at which the list [ws] takes its maximum. *)
Definition first_max (ws : list Q) (i : nat) : Prop :=
  (i < length ws)%nat /\
  (forall j, (j < length ws)%nat -> nth j ws 0 <= nth i ws 0) /\
  (forall j, (j < i)%nat -> nth j ws 0 < nth i ws 0).

(** [stop] is the first index whose entry exceeds [bound], or the length of
    the list when there is none. *)
Definition first_above (bound : Q) (ws : list Q) (stop : nat) : Prop :=
  (stop <= length ws)%nat /\
  (forall j, (j < stop)%nat -> nth j ws 0 <= bound) /\
  ((stop < length ws)%nat -> bound < nth stop ws 0).

(* ===================================================================== *)
(** * Vocabulary of the angular pit search *)
(* ===================================================================== *)

(** The norm [get_maximum_pit] takes of a hit list: the Euclidean norm of the
    coordinates of the hit pixel, that is its distance from the corner (0, 0)
    of the raster, and [sqrt(0)] for a miss. *)
Definition hit_norm (L : Libm) (hit : list Pixel) : Q :=
  norm L (np_array hit).

(** A raster without boundary pixel. *)
Definition no_boundary (edges : Raster) : Prop :=
  forall r c, pixel edges r c <> boundary_value.

(** The distance from the anchor [start], given as (x, y), to the hit pixel
    [h], given as (column, row). *)
Definition anchor_distance (L : Libm) (start : Point2D) (h : Pixel) : Q :=
  np_sqrt L ((inject_Z (fst h) - fst start) * (inject_Z (fst h) - fst start)
             + (inject_Z (snd h) - snd start) * (inject_Z (snd h) - snd start)).

(** The library seen by one ray: sine and cosine of the ray's angle, taken
    once.  [find_edge] reads the library only there ([find_edge_frozen]). *)
Definition frozen (L : Libm) (angle : Q) : Libm :=
  let s := np_sin L angle in
  let c := np_cos L angle in
  {| np_sin := fun _ => s; np_cos := fun _ => c;
     np_arctan2 := np_arctan2 L; np_sqrt := np_sqrt L; np_pi := np_pi L |}.

(* ===================================================================== *)
(** * Vocabulary of the region locators *)
(* ===================================================================== *)

(** The region locators of [YeadonModel] that crop the raster between two
    landmarks. *)
Inductive locator : Set :=
| AcromionRight
| AcromionLeft
| Crotch.

(** The crop a locator searches. *)
Definition region_of_interest (op : locator) (edges : Raster)
    (data : nat -> Point2D) : Raster :=
  match op with
  | AcromionRight => YeadonModel.crop edges (data 4%nat) (data 6%nat)
  | AcromionLeft => YeadonModel.crop edges (data 3%nat) (data 5%nat)
  | Crotch => YeadonModel.crop edges (data 12%nat) (data 13%nat)
  end.

(** The test a locator applies to a pixel value: [== 255] in the acromion
    searches, [!= 0] in the crotch search. *)
Definition locator_test (op : locator) : Z -> bool :=
  match op with
  | AcromionRight | AcromionLeft => YeadonModel.is_255
  | Crotch => YeadonModel.nonzero
  end.

(** The locator ends in an IndexError. *)
Definition index_fault (op : locator) (edges : Raster)
    (data : nat -> Point2D) : Prop :=
  match op with
  | AcromionRight =>
      YeadonModel._find_acromion_right edges data = Raise IndexError
  | AcromionLeft =>
      YeadonModel._find_acromion_left edges data = Raise IndexError
  | Crotch =>
      YeadonModel._get_crotch_right_left edges data = Raise IndexError
  end.

(** The state of an index selection loop after the entries [pre]:
    [max_norm] is the entry at [save_index], no entry is larger, and every
    entry before [save_index] is smaller. *)
Definition argmax_state (pre : list Q) (max_norm : Q) (save_index : nat)
    : Prop :=
  (save_index < length pre)%nat /\
  max_norm == nth save_index pre 0 /\
  (forall j, (j < length pre)%nat -> nth j pre 0 <= max_norm) /\
  (forall j, (j < save_index)%nat -> nth j pre 0 < max_norm).

(* ===================================================================== *)
(** * Vocabulary of the searches with [np.where] *)
(* ===================================================================== *)

(** Position [a] comes before position [b] in row-major order. *)
Definition row_major_lt (a b : nat * nat) : Prop :=
  (fst a < fst b)%nat \/ (fst a = fst b /\ (snd a < snd b)%nat).

(** [(r, c)] is the first position of [img], in row-major order, whose
    pixel passes [cond]. *)
Definition first_match (cond : Z -> bool) (img : Raster) (r c : nat) : Prop :=
  (r < shape0 img)%nat /\ (c < shape1 img)%nat /\
  cond (pixel img r c) = true /\
  forall r' c', (r' < shape0 img)%nat -> (c' < shape1 img)%nat ->
    cond (pixel img r' c') = true -> ~ row_major_lt (r', c') (r, c).

(** [(r, c)] is a boundary pixel in the quadrant of [img] that the acromion
    searches keep: the rows from [shape0 // 2] and the columns from
    [shape1 // 2] on. *)
Definition in_far_quadrant (img : Raster) (r c : nat) : Prop :=
  (Nat.div (shape0 img) 2 <= r < shape0 img)%nat /\
  (Nat.div (shape1 img) 2 <= c < shape1 img)%nat /\
  pixel img r c = boundary_value.

Definition first_in_far_quadrant (img : Raster) (r c : nat) : Prop :=
  in_far_quadrant img r c /\
  forall r' c', in_far_quadrant img r' c' -> ~ row_major_lt (r', c') (r, c).

(** The origin of a ray as the pixel the first iteration looks at:
    (row, column). *)
Definition origin_pixel (p1 : Point2D) : Pixel :=
  (py_int (fst p1), py_int (snd p1)).

(* ===================================================================== *)
(** * The ray cast as the specification words it *)
(* ===================================================================== *)

(** Rounding to the nearest integer, a tie going to the even one (Python's
    [round], numpy's [rint]). *)
Definition round_half_even (q : Q) : Z :=
  let f := Qfloor q in
  let r := q - inject_Z f in
  if Qlt_bool r (1 # 2) then f
  else if Qlt_bool (1 # 2) r then (f + 1)%Z
  else if Z.even f then f else (f + 1)%Z.

Section SpecRay.
Variable L : Libm.

(** The ray cast after section 4.1 of the specification: the point
    [origin + distance * (sin(angle), cos(angle))] is rounded to integer
    pixel coordinates; everything else is as in [find_edge]. *)
Definition spec_pt_from (origin : Point2D) (angle distance : Q) : Pixel :=
  let x := snd origin + np_sin L angle * distance in
  let y := fst origin + np_cos L angle * distance in
  (round_half_even y, round_half_even x).

Fixpoint spec_find_edge_loop (fuel : nat) (p1 : Point2D) (angle_radians : Q)
    (edges : Raster) (distance : Q) : outcome (list Pixel) :=
  match fuel with
  | O => OutOfFuel
  | S fuel' =>
      let '(x, y) := spec_pt_from p1 angle_radians distance in
      if out_of_bounds edges x y then Ok []
      else if is_boundary edges x y then Ok [(y, x)]
      else spec_find_edge_loop fuel' p1 angle_radians edges
             (Qred (distance + 0.01))
  end.

Definition spec_find_edge (fuel : nat) (p1 p2 : Point2D) (angle_radians : Q)
    (edges : Raster) : outcome (list Pixel) :=
  spec_find_edge_loop fuel p1 angle_radians edges 0.

End SpecRay.

(* ===================================================================== *)
(** * Properties *)
(* ===================================================================== *)

(** ** Truncation *)

Lemma py_int_nonneg (q : Q) : 0 <= q -> py_int q = Qfloor q.
Proof.
  destruct q as [n d]. unfold py_int, Qfloor, Qle. simpl. intros H.
  apply Z.quot_div_nonneg; lia.
Qed.

Lemma py_int_neg (q : Q) : q < 0 -> py_int q = Qceiling q.
Proof.
  destruct q as [n d]. unfold py_int, Qceiling, Qfloor, Qlt. simpl. intros H.
  assert (Hn : (n < 0)%Z) by lia.
  replace n with (- (- n))%Z at 1 by lia.
  rewrite Z.quot_opp_l by lia.
  rewrite Z.quot_div_nonneg by lia. reflexivity.
Qed.

Lemma py_int_Qeq (a b : Q) : a == b -> py_int a = py_int b.
Proof.
  intros H. destruct (Qlt_le_dec a 0) as [Ha | Ha].
  - rewrite (py_int_neg a Ha). assert (Hb : b < 0) by (rewrite <- H; exact Ha).
    rewrite (py_int_neg b Hb). now rewrite H.
  - rewrite (py_int_nonneg a Ha). assert (Hb : 0 <= b) by (rewrite <- H; exact Ha).
    rewrite (py_int_nonneg b Hb). now rewrite H.
Qed.

Lemma py_int_ge (q : Q) (n : Z) :
  (0 <= n)%Z -> inject_Z n <= q -> (n <= py_int q)%Z.
Proof.
  intros Hn Hq.
  assert (H0 : 0 <= q).
  { apply Qle_trans with (inject_Z n); [ | exact Hq ].
    change 0 with (inject_Z 0). rewrite <- Zle_Qle. exact Hn. }
  rewrite (py_int_nonneg q H0). rewrite <- (Qfloor_Z n).
  apply Qfloor_resp_le. exact Hq.
Qed.

Lemma py_int_le_m1 (q : Q) : q <= -1 -> (py_int q < 0)%Z.
Proof.
  intros Hq. assert (H0 : q < 0) by lra.
  rewrite (py_int_neg q H0).
  assert (H : (Qceiling q <= Qceiling (inject_Z (-1)))%Z)
    by (apply Qceiling_resp_le; exact Hq).
  rewrite Qceiling_Z in H. lia.
Qed.

(** ** The ray caster *)

Section RayFacts.
Variable L : Libm.
Variables (p1 : Point2D) (angle : Q) (edges : Raster).

Local Abbreviation clear := (clear L p1 angle edges).
Local Abbreviation final := (final L p1 angle edges).

Lemma distance_at_value (k : nat) :
  distance_at k == inject_Z (Z.of_nat k) * 0.01.
Proof.
  induction k as [ | k IH ].
  - reflexivity.
  - cbn [distance_at]. rewrite Qred_correct, IH, Nat2Z.inj_succ.
    unfold Z.succ. rewrite inject_Z_plus. ring.
Qed.

Lemma find_edge_loop_unfold (fuel k : nat) :
  find_edge_loop L (S fuel) p1 angle edges (distance_at k) =
  if outside edges (pixel_at L p1 angle k) then Ok []
  else if on_boundary edges (pixel_at L p1 angle k)
       then Ok [(snd (pixel_at L p1 angle k), fst (pixel_at L p1 angle k))]
       else find_edge_loop L fuel p1 angle edges (distance_at (S k)).
Proof.
  cbn [find_edge_loop]. unfold outside, on_boundary, pixel_at.
  destruct (pt_from L p1 angle (distance_at k)) as [x y]. reflexivity.
Qed.

Lemma find_edge_loop_ok (fuel : nat) : forall k n r,
  (k <= n)%nat -> (n < k + fuel)%nat ->
  (forall j, (k <= j < n)%nat -> clear j) -> final n r ->
  find_edge_loop L fuel p1 angle edges (distance_at k) = Ok r.
Proof.
  induction fuel as [ | fuel IH ]; intros k n r Hk Hn Hclear Hfin.
  - lia.
  - rewrite find_edge_loop_unfold.
    destruct (Nat.eq_dec k n) as [-> | Hne].
    + destruct Hfin as [[Ho ->] | (Ho & Hb & ->)]; rewrite Ho; [ reflexivity | ].
      rewrite Hb. reflexivity.
    + destruct (Hclear k) as [Ho Hb]; [ lia | ]. rewrite Ho, Hb.
      apply IH with (n := n); try lia; [ | exact Hfin ].
      intros j Hj. apply Hclear. lia.
Qed.

Lemma find_edge_loop_inv (fuel : nat) : forall k r,
  find_edge_loop L fuel p1 angle edges (distance_at k) = Ok r ->
  exists n, (k <= n < k + fuel)%nat /\
            (forall j, (k <= j < n)%nat -> clear j) /\ final n r.
Proof.
  induction fuel as [ | fuel IH ]; intros k r H.
  - discriminate H.
  - rewrite find_edge_loop_unfold in H.
    destruct (outside edges (pixel_at L p1 angle k)) eqn:Ho.
    + exists k. split; [ lia | ]. split; [ intros j Hj; lia | ].
      left. split; [ exact Ho | ]. now inversion H.
    + destruct (on_boundary edges (pixel_at L p1 angle k)) eqn:Hb.
      * exists k. split; [ lia | ]. split; [ intros j Hj; lia | ].
        right. split; [ exact Ho | ]. split; [ exact Hb | ]. now inversion H.
      * destruct (IH (S k) r H) as (n & Hn & Hclear & Hfin).
        exists n. split; [ lia | ]. split; [ | exact Hfin ].
        intros j Hj. destruct (Nat.eq_dec j k) as [-> | Hne].
        -- split; assumption.
        -- apply Hclear. lia.
Qed.

Lemma find_edge_loop_no_raise (fuel : nat) : forall k e,
  find_edge_loop L fuel p1 angle edges (distance_at k) <> Raise e.
Proof.
  induction fuel as [ | fuel IH ]; intros k e.
  - discriminate.
  - rewrite find_edge_loop_unfold.
    destruct (outside edges (pixel_at L p1 angle k)); [ discriminate | ].
    destruct (on_boundary edges (pixel_at L p1 angle k)); [ discriminate | ].
    apply IH.
Qed.

Lemma find_edge_loop_out_of_fuel (fuel : nat) : forall k,
  (forall j, (k <= j < k + fuel)%nat -> clear j) ->
  find_edge_loop L fuel p1 angle edges (distance_at k) = OutOfFuel.
Proof.
  induction fuel as [ | fuel IH ]; intros k Hclear.
  - reflexivity.
  - rewrite find_edge_loop_unfold.
    destruct (Hclear k) as [Ho Hb]; [ lia | ]. rewrite Ho, Hb.
    apply IH. intros j Hj. apply Hclear. lia.
Qed.

(** A pixel outside the raster somewhere ahead ends the ray at or before
    it. *)
Lemma ray_ends_before (m : nat) : forall k,
  outside edges (pixel_at L p1 angle (k + m)) = true ->
  exists n r, (k <= n <= k + m)%nat /\
              (forall j, (k <= j < n)%nat -> clear j) /\ final n r.
Proof.
  induction m as [ | m IH ]; intros k Hout.
  - rewrite Nat.add_0_r in Hout. exists k, []. split; [ lia | ].
    split; [ intros j Hj; lia | ]. left. now split.
  - destruct (outside edges (pixel_at L p1 angle k)) eqn:Ho.
    + exists k, []. split; [ lia | ]. split; [ intros j Hj; lia | ].
      left. now split.
    + destruct (on_boundary edges (pixel_at L p1 angle k)) eqn:Hb.
      * exists k, [(snd (pixel_at L p1 angle k), fst (pixel_at L p1 angle k))].
        split; [ lia | ]. split; [ intros j Hj; lia | ].
        right. now repeat split.
      * destruct (IH (S k)) as (n & r & Hn & Hclear & Hfin).
        { replace (S k + m)%nat with (k + S m)%nat by lia. exact Hout. }
        exists n, r. split; [ lia | ]. split; [ | exact Hfin ].
        intros j Hj. destruct (Nat.eq_dec j k) as [-> | Hne].
        -- split; assumption.
        -- apply Hclear. lia.
Qed.

End RayFacts.

(** A coordinate that moves at a nonzero rate leaves every interval
    [[0, bound)]: the truncated value is negative or at least [bound]
    after finitely many steps. *)
Lemma coordinate_escapes (o v : Q) (bound : nat) :
  ~ v == 0 ->
  exists K : nat,
    (py_int (o + v * distance_at K) <? 0)%Z
    || (py_int (o + v * distance_at K) >=? Z.of_nat bound)%Z = true.
Proof.
  intros Hv.
  destruct (Qlt_le_dec 0 v) as [Hpos | Hneg].
  - set (X := (inject_Z (Z.of_nat bound) - o) * 100 / v).
    exists (Z.to_nat (Qceiling X)).
    apply orb_true_iff. right. apply Z.geb_le.
    apply py_int_ge; [ lia | ].
    rewrite distance_at_value.
    assert (HK : X <= inject_Z (Z.of_nat (Z.to_nat (Qceiling X)))).
    { apply Qle_trans with (inject_Z (Qceiling X)); [ apply Qle_ceiling | ].
      rewrite <- Zle_Qle. lia. }
    assert (HX : v * X == (inject_Z (Z.of_nat bound) - o) * 100)
      by (unfold X; field; exact Hv).
    assert (Hm : v * X <= v * inject_Z (Z.of_nat (Z.to_nat (Qceiling X))))
      by (apply Qmult_le_l; assumption).
    lra.
  - assert (Hlt : v < 0).
    { destruct (Qlt_le_dec v 0) as [H | H]; [ exact H | ].
      exfalso. apply Hv. lra. }
    set (X := (o + 1) * 100 / (- v)).
    exists (Z.to_nat (Qceiling X)).
    apply orb_true_iff. left. apply Z.ltb_lt.
    apply py_int_le_m1.
    rewrite distance_at_value.
    assert (HK : X <= inject_Z (Z.of_nat (Z.to_nat (Qceiling X)))).
    { apply Qle_trans with (inject_Z (Qceiling X)); [ apply Qle_ceiling | ].
      rewrite <- Zle_Qle. lia. }
    assert (HX : (- v) * X == (o + 1) * 100)
      by (unfold X; field; lra).
    assert (Hm : (- v) * X <= (- v) * inject_Z (Z.of_nat (Z.to_nat (Qceiling X)))).
    { apply Qmult_le_l; [ lra | exact HK ]. }
    lra.
Qed.

(** A ray whose direction is not the null vector reaches a pixel outside
    the raster. *)
Lemma ray_leaves_raster (L : Libm) (p1 : Point2D) (angle : Q) (edges : Raster) :
  ~ (np_sin L angle == 0 /\ np_cos L angle == 0) ->
  exists K, outside edges (pixel_at L p1 angle K) = true.
Proof.
  intros Hdir. unfold outside, pixel_at, pt_from, out_of_bounds. cbn [fst snd].
  destruct (Qeq_dec (np_cos L angle) 0) as [Hc | Hc].
  - assert (Hs : ~ np_sin L angle == 0) by (intros Hs; apply Hdir; now split).
    destruct (coordinate_escapes (snd p1) _ (shape1 edges) Hs) as [K HK].
    exists K. apply orb_true_iff in HK.
    destruct HK as [HK | HK]; rewrite HK; now rewrite ?orb_true_r.
  - destruct (coordinate_escapes (fst p1) _ (shape0 edges) Hc) as [K HK].
    exists K. apply orb_true_iff in HK.
    destruct HK as [HK | HK]; rewrite HK; now rewrite ?orb_true_r.
Qed.

Lemma outside_false_iff (edges : Raster) (px : Pixel) :
  outside edges px = false <->
  (0 <= fst px < Z.of_nat (shape0 edges))%Z /\
  (0 <= snd px < Z.of_nat (shape1 edges))%Z.
Proof.
  unfold outside, out_of_bounds. rewrite !orb_false_iff, !Z.geb_leb.
  rewrite !Z.ltb_ge, !Z.leb_gt. lia.
Qed.

Lemma outside_true_iff (edges : Raster) (px : Pixel) :
  outside edges px = true <->
  ~ ((0 <= fst px < Z.of_nat (shape0 edges))%Z /\
     (0 <= snd px < Z.of_nat (shape1 edges))%Z).
Proof.
  rewrite <- outside_false_iff. destruct (outside edges px); split;
    congruence.
Qed.

Lemma on_boundary_true_iff (edges : Raster) (px : Pixel) :
  on_boundary edges px = true <->
  pixel edges (Z.to_nat (fst px)) (Z.to_nat (snd px)) = 255%Z.
Proof. unfold on_boundary, is_boundary, boundary_value. apply Z.eqb_eq. Qed.

Lemma on_boundary_false_iff (edges : Raster) (px : Pixel) :
  on_boundary edges px = false <->
  pixel edges (Z.to_nat (fst px)) (Z.to_nat (snd px)) <> 255%Z.
Proof. unfold on_boundary, is_boundary, boundary_value. apply Z.eqb_neq. Qed.

(** C6, as stated, fails: the code does not round, it truncates.  On the
    one-row raster [[0, 0, 255]] the ray from the origin (row 0, column 1.6)
    at angle 0 starts at the point (0, 1.6), which rounds to the pixel
    (0, 2), a boundary pixel: the ray cast of the specification returns that
    pixel at once.  [find_edge] looks at [int(1.6) = 1], column 1, all
    along, and leaves the raster without a hit. *)
Lemma find_edge_truncates :
  round_half_even 1.6 = 2%Z /\ py_int 1.6 = 1%Z /\
  pixel Examples.row_right 0 2 = 255%Z /\
  spec_find_edge Approx.libm 200 (0, 1.6) (0, 0) 0 Examples.row_right
  = Ok [(2, 0)%Z] /\
  find_edge Approx.libm 200 (0, 1.6) (0, 0) 0 Examples.row_right = Ok [].
Proof.
  split; [ reflexivity | ]. split; [ reflexivity | ].
  split; [ reflexivity | ]. split; vm_compute; reflexivity.
Qed.

(** C6, amended.  The ray cast of [find_edge] (the free function and the
    copy nested in [YeadonModel._get_maximum]): the distance starts at 0 and
    grows by 0.01 per iteration; iteration [k] looks at the pixel in row
    [int(p1[0] + cos(angle) * distance)] and column
    [int(p1[1] + sin(angle) * distance)], the coordinates being truncated
    toward zero.  Whenever sine and cosine of the angle are not both zero
    there is an iteration [n] at which the ray stops: every earlier pixel
    lies inside [0, rows) x [0, cols) and does not hold 255, and pixel [n]
    either lies outside, and the result is the empty list, or is the first
    pixel that holds 255, and the result holds it as (column, row).  With
    more than [n] units of fuel [find_edge] returns exactly that result,
    with less it is still running. *)
Theorem find_edge_marches_and_terminates
    (L : Libm) (p1 p2 : Point2D) (angle : Q) (edges : Raster) :
  let row := fun k => py_int (fst p1 + np_cos L angle * distance_at k) in
  let col := fun k => py_int (snd p1 + np_sin L angle * distance_at k) in
  let inside := fun k =>
    (0 <= row k < Z.of_nat (shape0 edges))%Z /\
    (0 <= col k < Z.of_nat (shape1 edges))%Z in
  ~ (np_sin L angle == 0 /\ np_cos L angle == 0) ->
  distance_at 0 = 0 /\
  (forall k, distance_at (S k) == distance_at k + 0.01) /\
  exists n r,
    (forall j, (j < n)%nat ->
       inside j /\
       pixel edges (Z.to_nat (row j)) (Z.to_nat (col j)) <> 255%Z) /\
    ((~ inside n /\ r = []) \/
     (inside n /\
      pixel edges (Z.to_nat (row n)) (Z.to_nat (col n)) = 255%Z /\
      r = [(col n, row n)])) /\
    (forall fuel, (n < fuel)%nat ->
                  find_edge L fuel p1 p2 angle edges = Ok r) /\
    (forall fuel, (fuel <= n)%nat ->
                  find_edge L fuel p1 p2 angle edges = OutOfFuel).
Proof.
  intros row col inside Hdir. split; [ reflexivity | ].
  split; [ intros k; cbn [distance_at]; apply Qred_correct | ].
  destruct (ray_leaves_raster L p1 angle edges Hdir) as [K HK].
  destruct (ray_ends_before L p1 angle edges K 0 HK) as (n & r & Hn & Hclear & Hfin).
  assert (Hpx : forall k, pixel_at L p1 angle k = (row k, col k))
    by (intros k; reflexivity).
  exists n, r. split; [ | split; [ | split ] ].
  - intros j Hj. destruct (Hclear j) as [Ho Hb]; [ lia | ].
    rewrite Hpx in Ho, Hb.
    apply outside_false_iff in Ho. apply on_boundary_false_iff in Hb.
    split; [ exact Ho | exact Hb ].
  - destruct Hfin as [[Ho ->] | (Ho & Hb & ->)]; rewrite Hpx in *.
    + left. split; [ | reflexivity ]. now apply outside_true_iff in Ho.
    + right. apply outside_false_iff in Ho. apply on_boundary_true_iff in Hb.
      split; [ exact Ho | ]. split; [ exact Hb | reflexivity ].
  - intros fuel Hfuel. unfold find_edge.
    apply (find_edge_loop_ok L p1 angle edges fuel 0 n); try lia; [ | exact Hfin ].
    intros j Hj. apply Hclear. lia.
  - intros fuel Hfuel. unfold find_edge.
    apply (find_edge_loop_out_of_fuel L p1 angle edges fuel 0).
    intros j Hj. apply Hclear. lia.
Qed.

Lemma find_edge_marches_and_terminates_witness :
  exists n, (n < 200)%nat /\
    pixel Examples.row_right 0 2 = 255%Z /\
    forall fuel, (n < fuel)%nat ->
      find_edge Approx.libm fuel (0, 0.5) (0, 1) (np_pi Approx.libm / 2)
        Examples.row_right = Ok [(2, 0)%Z].
Proof.
  assert (H : ~ (np_sin Approx.libm (np_pi Approx.libm / 2) == 0 /\
                 np_cos Approx.libm (np_pi Approx.libm / 2) == 0)).
  { intros [Hs _]. apply Qeq_bool_iff in Hs.
    assert (E : Qeq_bool (np_sin Approx.libm (np_pi Approx.libm / 2)) 0 = false)
      by (vm_compute; reflexivity).
    congruence. }
  assert (E : find_edge Approx.libm 200 (0, 0.5) (0, 1) (np_pi Approx.libm / 2)
                Examples.row_right = Ok [(2, 0)%Z])
    by (vm_compute; reflexivity).
  destruct (find_edge_marches_and_terminates
              Approx.libm (0, 0.5) (0, 1) (np_pi Approx.libm / 2)
              Examples.row_right H)
    as (_ & _ & n & r & _ & _ & Hok & Hout).
  exists n. destruct (Nat.lt_ge_cases n 200) as [Hlt | Hge].
  - split; [ exact Hlt | ]. split; [ reflexivity | ].
    intros fuel Hfuel. rewrite (Hok fuel Hfuel).
    rewrite (Hok 200%nat Hlt) in E. exact E.
  - rewrite (Hout 200%nat Hge) in E. discriminate E.
Defined.

(** ** Rays and fuel *)

Lemma find_edge_of_ray (L : Libm) (p1 p2 : Point2D) (angle : Q)
    (edges : Raster) (n : nat) (r : list Pixel) (fuel : nat) :
  ray_stops_at L p1 angle edges n r -> (n < fuel)%nat ->
  find_edge L fuel p1 p2 angle edges = Ok r.
Proof.
  intros [Hclear Hfin] Hn. unfold find_edge.
  apply (find_edge_loop_ok L p1 angle edges fuel 0 n); try lia; [ | exact Hfin ].
  intros j Hj. apply Hclear. lia.
Qed.

Lemma ray_of_find_edge (L : Libm) (p1 p2 : Point2D) (angle : Q)
    (edges : Raster) (r : list Pixel) (fuel : nat) :
  find_edge L fuel p1 p2 angle edges = Ok r ->
  exists n, (n < fuel)%nat /\ ray_stops_at L p1 angle edges n r.
Proof.
  intros H. unfold find_edge in H.
  destruct (find_edge_loop_inv L p1 angle edges fuel 0 r H)
    as (n & Hn & Hclear & Hfin).
  exists n. split; [ lia | ]. split; [ | exact Hfin ].
  intros j Hj. apply Hclear. lia.
Qed.

Lemma find_edge_more_fuel (L : Libm) (p1 p2 : Point2D) (angle : Q)
    (edges : Raster) (r : list Pixel) (fuel fuel' : nat) :
  find_edge L fuel p1 p2 angle edges = Ok r -> (fuel <= fuel')%nat ->
  find_edge L fuel' p1 p2 angle edges = Ok r.
Proof.
  intros H Hle. destruct (ray_of_find_edge L p1 p2 angle edges r fuel H)
    as (n & Hn & Hray).
  apply (find_edge_of_ray L p1 p2 angle edges n r fuel' Hray). lia.
Qed.

(** A ray returns at most one hit. *)
Lemma find_edge_at_most_one (L : Libm) (p1 p2 : Point2D) (angle : Q)
    (edges : Raster) (r : list Pixel) (fuel : nat) :
  find_edge L fuel p1 p2 angle edges = Ok r ->
  r = [] \/ exists h, r = [h].
Proof.
  intros H. destruct (ray_of_find_edge L p1 p2 angle edges r fuel H)
    as (n & _ & _ & [[_ ->] | (_ & _ & ->)]).
  - now left.
  - right. eexists. reflexivity.
Qed.

(** A ray reads the library only at its own angle. *)
Lemma find_edge_loop_frozen (L : Libm) (p1 : Point2D) (angle : Q)
    (edges : Raster) (fuel : nat) : forall distance,
  find_edge_loop L fuel p1 angle edges distance =
  find_edge_loop (frozen L angle) fuel p1 angle edges distance.
Proof.
  induction fuel as [ | fuel IH ]; intros distance; [ reflexivity | ].
  cbn [find_edge_loop]. rewrite IH. reflexivity.
Qed.

Lemma find_edge_frozen (L : Libm) (p1 p2 : Point2D) (angle : Q)
    (edges : Raster) (fuel : nat) :
  find_edge L fuel p1 p2 angle edges =
  find_edge (frozen L angle) fuel p1 p2 angle edges.
Proof. apply find_edge_loop_frozen. Qed.

(** Evaluation of one ray, with the direction computed once. *)
Ltac run_ray := rewrite find_edge_frozen; vm_compute; reflexivity.

(** ** The width functions *)

(** The method and the free function are the same function. *)
Lemma _get_maximum_same (L : Libm) :
  YeadonModel._get_maximum L = get_maximum._get_maximum L /\
  YeadonModel._get_maximum_line L = get_maximum.get_maximum_line L /\
  YeadonModel._get_maximum_start L = get_maximum.get_maximum_start L.
Proof. repeat split. Qed.

(** C1.  What the width functions do when a ray leaves the raster, for any
    perpendicular half-angle and direction sign (so for [get_maximum_line],
    [get_maximum_start] and the two methods): when both rays miss, the
    result is the norm of the empty array, [sqrt(0)], an ordinary number
    and no sentinel; when exactly one ray misses, the subtraction of an
    array of shape (0,) and one of shape (1, 2) raises ValueError, which
    leaves the function. *)
Theorem width_functions_on_a_miss
    (L : Libm) (fuel : nat) (start end_ : Point2D) (edges : Raster)
    (angle is_start : Q) (max1 max2 : list Pixel) :
  let p1 := (snd start, fst start) in
  let p2 := (snd end_, fst end_) in
  let theta := np_arctan2 L (snd p2 - snd p1) (fst p2 - fst p1) in
  find_edge L fuel p1 p2 (theta - angle) edges = Ok max1 ->
  find_edge L fuel p1 p2 ((theta + angle) * is_start) edges = Ok max2 ->
  max1 = [] \/ max2 = [] ->
  YeadonModel._get_maximum L fuel start end_ edges angle is_start =
  get_maximum._get_maximum L fuel start end_ edges angle is_start /\
  ((max1 = [] /\ max2 = [] /\
    get_maximum._get_maximum L fuel start end_ edges angle is_start =
    Ok (np_sqrt L 0)) \/
   ((max1 <> [] \/ max2 <> []) /\
    get_maximum._get_maximum L fuel start end_ edges angle is_start =
    Raise ValueError)).
Proof.
  intros p1 p2 theta H1 H2 Hmiss. split; [ reflexivity | ].
  unfold get_maximum._get_maximum, get_points.
  fold p1 p2. cbn [fst snd]. fold theta. rewrite H1. cbn [bind]. rewrite H2.
  cbn [bind].
  destruct (find_edge_at_most_one L p1 p2 _ edges max1 fuel H1) as [-> | [h1 ->]];
    destruct (find_edge_at_most_one L p1 p2 _ edges max2 fuel H2) as [-> | [h2 ->]].
  - left. repeat split.
  - right. split; [ right; discriminate | reflexivity ].
  - right. split; [ left; discriminate | reflexivity ].
  - destruct Hmiss as [H | H]; discriminate H.
Qed.

Lemma width_functions_on_a_miss_witness :
  get_maximum.get_maximum_line Approx.libm 201 (1, 0) (2, 0) Examples.row_right
  = Raise ValueError /\
  get_maximum.get_maximum_start Approx.libm 101 (1, 0) (2, 0) Examples.row_right
  = Ok 0.
Proof.
  split.
  - destruct (width_functions_on_a_miss Approx.libm 201 (1, 0) (2, 0)
                Examples.row_right 0 (-1) [(2, 0)%Z] [])
      as [_ [(H & _) | (_ & H)]].
    + vm_compute. reflexivity.
    + vm_compute. reflexivity.
    + now right.
    + discriminate H.
    + exact H.
  - destruct (width_functions_on_a_miss Approx.libm 101 (1, 0) (2, 0)
                Examples.row_right (np_pi Approx.libm / 2) 1 [] [])
      as [_ [(_ & _ & H) | ([H | H] & _)]].
    + vm_compute. reflexivity.
    + vm_compute. reflexivity.
    + now left.
    + exact H.
    + now elim H.
    + now elim H.
Defined.

(** C2, as stated, fails: for the landmarks (2, 1) and (2, 3), one above the
    other, both rays of [get_maximum_line] start at [start], run down the
    same column and hit the same pixel, so the width is 0; one ray from each
    landmark, perpendicular to the segment and in opposite directions, would
    hit the pixels left and right of rows 1 and 3, which are
    [sqrt(20)] apart. *)
Lemma get_maximum_line_is_not_across_the_segment :
  get_maximum.get_maximum_line Approx.libm 1000 (2, 1) (2, 3) Examples.frame
  = Ok 0 /\
  YeadonModel._get_maximum_line Approx.libm 1000 (2, 1) (2, 3) Examples.frame
  = Ok 0 /\
  find_edge Approx.libm 1000 (1, 2) (3, 2)
    (np_arctan2 Approx.libm (2 - 2) (3 - 1) - 0) Examples.frame
  = Ok [(2, 4)%Z] /\
  find_edge Approx.libm 1000 (1, 2) (3, 2)
    ((np_arctan2 Approx.libm (2 - 2) (3 - 1) + 0) * (-1)) Examples.frame
  = Ok [(2, 4)%Z] /\
  spec_width_across_line Approx.libm 1000 false (2, 1) (2, 3) Examples.frame
  = Ok (Some 4.472135954999579) /\
  spec_width_across_line Approx.libm 1000 true (2, 1) (2, 3) Examples.frame
  = Ok (Some 4.472135954999579) /\
  ~ 4.472135954999579 == 0.
Proof.
  split; [ vm_compute; reflexivity | ].
  split; [ vm_compute; reflexivity | ].
  split; [ vm_compute; reflexivity | ].
  split; [ vm_compute; reflexivity | ].
  split; [ vm_compute; reflexivity | ].
  split; [ vm_compute; reflexivity | ].
  intros H. vm_compute in H. discriminate H.
Qed.

(** C2, amended.  [get_maximum_line] (and the method [_get_maximum_line])
    casts both rays from [start]: one at the angle [theta] of the vector from
    [start] to [end] (offset 0 subtracted), one at [(theta + 0) * -1], that
    is [- theta]; when the first ray hits [h1] and the second hits [h2], the
    function returns the distance between [h1] and [h2] as soon as the fuel
    covers both rays. *)
Theorem get_maximum_line_casts_both_rays_from_start
    (L : Libm) (start end_ : Point2D) (edges : Raster)
    (n1 n2 : nat) (h1 h2 : Pixel) :
  let p1 := (snd start, fst start) in
  let p2 := (snd end_, fst end_) in
  let theta := np_arctan2 L (snd p2 - snd p1) (fst p2 - fst p1) in
  ray_stops_at L p1 (theta - 0) edges n1 [h1] ->
  ray_stops_at L p1 ((theta + 0) * (-1)) edges n2 [h2] ->
  theta - 0 == theta /\ (theta + 0) * (-1) == - theta /\
  forall fuel, (n1 < fuel)%nat -> (n2 < fuel)%nat ->
    get_maximum.get_maximum_line L fuel start end_ edges
    = Ok (pixel_distance L h1 h2) /\
    YeadonModel._get_maximum_line L fuel start end_ edges
    = Ok (pixel_distance L h1 h2).
Proof.
  intros p1 p2 theta Hr1 Hr2.
  split; [ ring | ]. split; [ ring | ].
  intros fuel Hn1 Hn2.
  assert (H : get_maximum.get_maximum_line L fuel start end_ edges
              = Ok (pixel_distance L h1 h2)).
  { unfold get_maximum.get_maximum_line, get_maximum._get_maximum, get_points.
    fold p1 p2. cbn [fst snd]. fold theta.
    rewrite (find_edge_of_ray L p1 p2 _ edges n1 [h1] fuel Hr1 Hn1). cbn [bind].
    rewrite (find_edge_of_ray L p1 p2 _ edges n2 [h2] fuel Hr2 Hn2). cbn [bind].
    cbn [np_array np_sub length Nat.eqb combine map bind norm sum_squares
         fold_right fst snd].
    unfold pixel_distance, pixel_sub. cbn [fst snd].
    rewrite Z.add_0_r. reflexivity. }
  split; [ exact H | exact H ].
Qed.

Lemma get_maximum_line_casts_both_rays_from_start_witness :
  exists n1 n2,
    ray_stops_at Approx.libm (0, 1)
      (np_arctan2 Approx.libm (2 - 1) (0 - 0) - 0) Examples.row_both n1 [(2, 0)%Z] /\
    ray_stops_at Approx.libm (0, 1)
      ((np_arctan2 Approx.libm (2 - 1) (0 - 0) + 0) * (-1)) Examples.row_both
      n2 [(0, 0)%Z] /\
    get_maximum.get_maximum_line Approx.libm (S (n1 + n2)) (1, 0) (2, 0)
      Examples.row_both
    = Ok (pixel_distance Approx.libm (2, 0)%Z (0, 0)%Z).
Proof.
  destruct (ray_of_find_edge Approx.libm (0, 1) (0, 2)
              (np_arctan2 Approx.libm (2 - 1) (0 - 0) - 0) Examples.row_both
              [(2, 0)%Z] 200) as (n1 & _ & Hr1).
  { vm_compute. reflexivity. }
  destruct (ray_of_find_edge Approx.libm (0, 1) (0, 2)
              ((np_arctan2 Approx.libm (2 - 1) (0 - 0) + 0) * (-1))
              Examples.row_both [(0, 0)%Z] 200) as (n2 & _ & Hr2).
  { vm_compute. reflexivity. }
  exists n1, n2. split; [ exact Hr1 | ]. split; [ exact Hr2 | ].
  destruct (get_maximum_line_casts_both_rays_from_start
              Approx.libm (1, 0) (2, 0) Examples.row_both n1 n2
              (2, 0)%Z (0, 0)%Z Hr1 Hr2) as (_ & _ & H).
  destruct (H (S (n1 + n2))) as [H1 _]; [ lia | lia | ].
  exact H1.
Defined.

(** ** The two index selections *)

Lemma Qlt_bool_iff (a b : Q) : Qlt_bool a b = true <-> a < b.
Proof.
  unfold Qlt_bool. rewrite negb_true_iff. split; intros H.
  - apply Qnot_le_lt. intros Hle. apply Qle_bool_iff in Hle. congruence.
  - destruct (Qle_bool b a) eqn:E; [ | reflexivity ].
    apply Qle_bool_iff in E. exfalso. apply (Qlt_not_le _ _ H E).
Qed.

Lemma Qlt_bool_false_iff (a b : Q) : Qlt_bool a b = false <-> b <= a.
Proof.
  unfold Qlt_bool. rewrite negb_false_iff. apply Qle_bool_iff.
Qed.


Lemma Qlt_bool_irrefl (a : Q) : Qlt_bool a a = false.
Proof. apply Qlt_bool_false_iff. apply Qle_refl. Qed.

(** The rows of [np.array(top) - np.array(bottom)] have the local widths as
    their norms. *)
Lemma norms_are_widths (L : Libm) (top bottom : list Pixel) :
  length top = length bottom -> top <> [] ->
  (vector <- np_sub (np_array top) (np_array bottom) ;; norm_axis1 L vector)
  = Ok (widths L top bottom).
Proof.
  intros Hlen Hne.
  destruct top as [ | a top ]; [ congruence | ].
  destruct bottom as [ | b bottom ]; [ discriminate Hlen | ].
  cbn [np_array np_sub]. rewrite Hlen, Nat.eqb_refl. cbn [bind norm_axis1].
  unfold widths. rewrite map_map. reflexivity.
Qed.






(** ** The extremum search: sampling and alignment *)

Lemma get_maximum_range_frozen (L : Libm) (fuel : nat) (angle : Q)
    (edges : Raster) (samples : list Point2D) :
  get_maximum.get_maximum_range L fuel angle samples edges =
  get_maximum.get_maximum_range (frozen L angle) fuel angle samples edges.
Proof.
  induction samples as [ | s rest IH ]; [ reflexivity | ].
  cbn [get_maximum.get_maximum_range].
  rewrite find_edge_loop_frozen, IH. reflexivity.
Qed.

(** Evaluation of one side of the extremum search. *)
Ltac run_range := rewrite get_maximum_range_frozen; vm_compute; reflexivity.

Lemma np_linspace_length (a b : Q) (n : nat) : length (np_linspace a b n) = n.
Proof. unfold np_linspace. now rewrite length_map, length_seq. Qed.

Lemma sample_points_length (p1 p2 : Point2D) :
  length (get_maximum.sample_points p1 p2) = 100%nat.
Proof.
  unfold get_maximum.sample_points.
  now rewrite length_map, length_combine, !np_linspace_length.
Qed.

Lemma nth_map_seq (A : Type) (f : nat -> A) (n i : nat) (d : A) :
  (i < n)%nat -> nth i (map f (seq 0 n)) d = f i.
Proof.
  intros Hi.
  rewrite (nth_indep _ d (f O)) by (now rewrite length_map, length_seq).
  rewrite map_nth. now rewrite seq_nth.
Qed.

Lemma np_linspace_nth (a b : Q) (n i : nat) :
  (i < n)%nat ->
  nth i (np_linspace a b n) 0 =
  inject_Z (Z.of_nat i) * ((b - a) / inject_Z (Z.of_nat (n - 1))) + a.
Proof.
  intros Hi. unfold np_linspace.
  exact (nth_map_seq Q
           (fun i => inject_Z (Z.of_nat i)
                     * ((b - a) / inject_Z (Z.of_nat (n - 1))) + a) n i 0 Hi).
Qed.

(** Sample [i] is the point at [i] ninety-ninths of the way from [p1] to
    [p2]. *)
Lemma sample_points_nth (p1 p2 : Point2D) (i : nat) :
  (i < 100)%nat ->
  nth i (get_maximum.sample_points p1 p2) (0, 0) =
  (inject_Z (Z.of_nat i) * ((fst p2 - fst p1) / inject_Z 99) + fst p1,
   inject_Z (Z.of_nat i) * ((snd p2 - snd p1) / inject_Z 99) + snd p1).
Proof.
  intros Hi. unfold get_maximum.sample_points.
  change (0, 0) with ((fun xy : Q * Q => (snd xy, fst xy)) (0, 0)).
  rewrite map_nth. rewrite combine_nth by (now rewrite !np_linspace_length).
  cbn [fst snd]. rewrite !np_linspace_nth by exact Hi. reflexivity.
Qed.

Lemma find_edge_loop_at_most_one (L : Libm) (p1 : Point2D) (angle : Q)
    (edges : Raster) (r : list Pixel) (fuel : nat) :
  find_edge_loop L fuel p1 angle edges 0 = Ok r ->
  r = [] \/ exists h, r = [h].
Proof. apply (find_edge_at_most_one L p1 p1 angle edges r fuel). Qed.

Lemma range_length_le (L : Libm) (fuel : nat) (angle : Q) (edges : Raster)
    (samples : list Point2D) : forall side,
  get_maximum.get_maximum_range L fuel angle samples edges = Ok side ->
  (length side <= length samples)%nat.
Proof.
  induction samples as [ | s rest IH ]; intros side H.
  - cbn in H. inversion H. cbn. lia.
  - cbn [get_maximum.get_maximum_range] in H.
    destruct (find_edge_loop L fuel s angle edges 0) as [hit | e | ] eqn:Hhit;
      cbn [bind] in H; try discriminate H.
    destruct (get_maximum.get_maximum_range L fuel angle rest edges)
      as [save | e | ] eqn:Hsave; cbn [bind] in H; try discriminate H.
    inversion H; subst side. rewrite length_app. cbn [length].
    specialize (IH save eq_refl).
    destruct (find_edge_loop_at_most_one L s angle edges hit fuel Hhit)
      as [-> | [h ->]]; cbn [length]; lia.
Qed.

(** When a side has as many hits as there are samples, hit [i] is the hit of
    the ray cast from sample [i]. *)
Lemma range_aligned (L : Libm) (fuel : nat) (angle : Q) (edges : Raster)
    (samples : list Point2D) : forall side,
  get_maximum.get_maximum_range L fuel angle samples edges = Ok side ->
  length side = length samples ->
  forall i, (i < length samples)%nat ->
    find_edge_loop L fuel (nth i samples (0, 0)) angle edges 0
    = Ok [nth i side (0, 0)%Z].
Proof.
  induction samples as [ | s rest IH ]; intros side H Hlen i Hi.
  - cbn in Hi. lia.
  - cbn [get_maximum.get_maximum_range] in H.
    destruct (find_edge_loop L fuel s angle edges 0) as [hit | e | ] eqn:Hhit;
      cbn [bind] in H; try discriminate H.
    destruct (get_maximum.get_maximum_range L fuel angle rest edges)
      as [save | e | ] eqn:Hsave; cbn [bind] in H; try discriminate H.
    inversion H; subst side. clear H.
    pose proof (range_length_le L fuel angle edges rest save Hsave) as Hle.
    rewrite length_app in Hlen. cbn [length] in Hlen, Hi.
    destruct (find_edge_loop_at_most_one L s angle edges hit fuel Hhit)
      as [-> | [h ->]]; cbn [length] in Hlen; [ lia | ].
    destruct i as [ | i ]; cbn [nth app].
    + exact Hhit.
    + apply IH; [ reflexivity | lia | lia ].
Qed.

(** ** The extremum search: sides of different length *)

(** C5.  When the two sides of the extremum search return hit arrays of
    different lengths, both copies of [get_max_approx] take the branch that
    prints the message and returns [None], and the caller then indexes its
    list of samples with [None]: [get_maximum_point] and
    [_get_maximum_point] end in a TypeError. *)
Theorem mismatched_sides_end_in_a_type_error
    (L : Libm) (fuel : nat) (start end_ : Point2D) (edges : Raster)
    (r_side l_side : list Pixel) :
  let p1 := (snd start, fst start) in
  let p2 := (snd end_, fst end_) in
  get_maximum.get_maximum_range L fuel (get_maximum.vector_angle_plus L p1 p2)
    (get_maximum.sample_points p1 p2) edges = Ok r_side ->
  get_maximum.get_maximum_range L fuel (get_maximum.vector_angle_minus L p1 p2)
    (get_maximum.sample_points p1 p2) edges = Ok l_side ->
  length r_side <> length l_side ->
  get_maximum.get_max_approx L r_side l_side = Ok None /\
  YeadonModel.get_max_approx L r_side l_side = Ok None /\
  get_maximum.get_maximum_point L fuel start end_ edges = Raise TypeError /\
  YeadonModel._get_maximum_point L fuel start end_ edges = Raise TypeError.
Proof.
  intros p1 p2 Hr Hl Hlen.
  assert (Hne : negb (Nat.eqb (length r_side) (length l_side)) = true).
  { apply negb_true_iff. now apply Nat.eqb_neq. }
  assert (H1 : get_maximum.get_max_approx L r_side l_side = Ok None)
    by (unfold get_maximum.get_max_approx; now rewrite Hne).
  assert (H2 : YeadonModel.get_max_approx L r_side l_side = Ok None)
    by (unfold YeadonModel.get_max_approx; now rewrite Hne).
  split; [ exact H1 | ]. split; [ exact H2 | ]. split.
  - unfold get_maximum.get_maximum_point, get_points. fold p1 p2.
    rewrite Hr. cbn [bind]. rewrite Hl. cbn [bind]. rewrite H1. reflexivity.
  - unfold YeadonModel._get_maximum_point, get_points. fold p1 p2.
    rewrite Hr. cbn [bind]. rewrite Hl. cbn [bind]. rewrite H2. reflexivity.
Qed.

Lemma mismatched_sides_end_in_a_type_error_witness :
  get_maximum.get_maximum_point Approx.libm 150 (1.005, 0) (1.005, 0)
    Examples.left_edge = Raise TypeError /\
  YeadonModel._get_maximum_point Approx.libm 150 (1.005, 0) (1.005, 0)
    Examples.left_edge = Raise TypeError.
Proof.
  destruct (mismatched_sides_end_in_a_type_error Approx.libm 150
              (1.005, 0) (1.005, 0) Examples.left_edge
              [] (repeat (0, 0)%Z 100)) as (_ & _ & H1 & H2).
  - run_range.
  - run_range.
  - discriminate.
  - split; [ exact H1 | exact H2 ].
Defined.

(** No call in [__init__] is guarded: an exception of the first extremum
    search ends the whole construction. *)
Lemma init_front_landmarks_aborts (L : Libm) (fuel : nat) (edges : Raster)
    (data : nat -> Point2D) (la ra : Point2D) (th : nat * nat) (e : exn) :
  YeadonModel._find_acromion_left edges data = Ok la ->
  YeadonModel._find_acromion_right edges data = Ok ra ->
  YeadonModel._find_top_of_head edges = Ok th ->
  YeadonModel._get_maximum_point L fuel (data 10%nat) (data 8%nat) edges
  = Raise e ->
  YeadonModel.init_front_landmarks L fuel edges data = Raise e.
Proof.
  intros Hla Hra Hth Hrf. unfold YeadonModel.init_front_landmarks.
  rewrite Hla. cbn [bind]. rewrite Hra. cbn [bind]. rewrite Hth. cbn [bind].
  rewrite Hrf. reflexivity.
Qed.

(** ** The extremum search: the selected index *)

Lemma argmax_state_first_max (pre : list Q) (max_norm : Q) (save_index : nat) :
  argmax_state pre max_norm save_index -> first_max pre save_index.
Proof.
  intros (Hs & Hm & Hle & Hlt). split; [ exact Hs | ]. split.
  - intros j Hj. rewrite <- Hm. now apply Hle.
  - intros j Hj. rewrite <- Hm. now apply Hlt.
Qed.

Lemma argmax_state_first (n0 : Q) : argmax_state [n0] n0 0.
Proof.
  split; [ cbn; lia | ]. split; [ reflexivity | ]. split.
  - intros j Hj. cbn in Hj. assert (j = O) as -> by lia. cbn. apply Qle_refl.
  - intros j Hj. lia.
Qed.

Lemma argmax_state_Qeq (pre : list Q) (m m' : Q) (s : nat) :
  m == m' -> argmax_state pre m s -> argmax_state pre m' s.
Proof.
  intros E (Hs & Hm & Hle & Hlt). split; [ exact Hs | ].
  split; [ now rewrite <- E | ]. split.
  - intros j Hj. rewrite <- E. now apply Hle.
  - intros j Hj. rewrite <- E. now apply Hlt.
Qed.

(** A larger entry becomes the maximum. *)
Lemma argmax_state_update (pre : list Q) (max_norm n : Q) (save_index : nat) :
  argmax_state pre max_norm save_index -> max_norm < n ->
  argmax_state (pre ++ [n]) n (length pre).
Proof.
  intros (Hs & Hm & Hle & Hlt) Hn.
  split; [ rewrite length_app; cbn; lia | ].
  split; [ now rewrite nth_middle | ]. split.
  - intros j Hj. rewrite length_app in Hj. cbn in Hj.
    destruct (Nat.eq_dec j (length pre)) as [-> | Hne].
    + rewrite nth_middle. apply Qle_refl.
    + rewrite app_nth1 by lia. apply Qle_trans with max_norm.
      * apply Hle. lia.
      * now apply Qlt_le_weak.
  - intros j Hj. rewrite app_nth1 by lia.
    apply Qle_lt_trans with max_norm; [ now apply Hle | exact Hn ].
Qed.

(** An entry that is not larger leaves the state as it is. *)
Lemma argmax_state_keep (pre : list Q) (max_norm n : Q) (save_index : nat) :
  argmax_state pre max_norm save_index -> n <= max_norm ->
  argmax_state (pre ++ [n]) max_norm save_index.
Proof.
  intros (Hs & Hm & Hle & Hlt) Hn.
  split; [ rewrite length_app; cbn; lia | ].
  split; [ now rewrite app_nth1 | ]. split.
  - intros j Hj. rewrite length_app in Hj. cbn in Hj.
    destruct (Nat.eq_dec j (length pre)) as [-> | Hne].
    + now rewrite nth_middle.
    + rewrite app_nth1 by lia. apply Hle. lia.
  - intros j Hj. rewrite app_nth1 by lia. now apply Hlt.
Qed.

Lemma app_cons_shift (A : Type) (pre : list A) (n : A) (rest : list A) :
  pre ++ n :: rest = (pre ++ [n]) ++ rest.
Proof. now rewrite <- app_assoc. Qed.

Lemma length_snoc (A : Type) (pre : list A) (n : A) :
  length (pre ++ [n]) = S (length pre).
Proof. rewrite length_app. cbn. lia. Qed.

(** The nested loop ends at the first maximum of all entries. *)
Lemma nested_loop_first_max (rest : list Q) : forall pre max_norm save_index,
  argmax_state pre max_norm save_index ->
  first_max (pre ++ rest)
    (YeadonModel.get_max_approx_loop rest (length pre) max_norm save_index).
Proof.
  induction rest as [ | n rest IH ]; intros pre max_norm save_index Hst.
  - rewrite app_nil_r. cbn. now apply (argmax_state_first_max pre max_norm).
  - cbn [YeadonModel.get_max_approx_loop]. rewrite app_cons_shift.
    rewrite <- (length_snoc Q pre n).
    destruct (Qlt_bool max_norm n) eqn:E.
    + apply Qlt_bool_iff in E. apply IH.
      now apply (argmax_state_update pre max_norm n save_index).
    + apply Qlt_bool_false_iff in E. apply IH.
      now apply argmax_state_keep.
Qed.

Lemma firstn_length_app (A : Type) (pre rest : list A) :
  firstn (length pre) (pre ++ rest) = pre.
Proof.
  rewrite firstn_app, Nat.sub_diag, firstn_all. cbn. apply app_nil_r.
Qed.

(** The loop of the free function ends at the first maximum of the entries
    before the first one above the bound. *)
Lemma free_loop_first_max (n0 : Q) (rest : list Q) :
  forall pre max_norm save_index,
    argmax_state pre max_norm save_index ->
    (forall j, (j < length pre)%nat -> nth j pre 0 <= n0 * 1.5) ->
    exists stop,
      first_above (n0 * 1.5) (pre ++ rest) stop /\
      first_max (firstn stop (pre ++ rest))
        (get_maximum.get_max_approx_loop n0 rest (length pre)
           max_norm save_index).
Proof.
  induction rest as [ | n rest IH ]; intros pre max_norm save_index Hst Hb.
  - exists (length pre). rewrite app_nil_r, firstn_all. split.
    + split; [ lia | ]. split; [ exact Hb | lia ].
    + cbn. now apply (argmax_state_first_max pre max_norm).
  - cbn [get_maximum.get_max_approx_loop].
    assert (Hmax : max_norm <= n0 * 1.5).
    { destruct Hst as (Hs & Hm & _ & _). rewrite Hm. now apply Hb. }
    assert (Hpush : n <= n0 * 1.5 ->
                    forall j, (j < length (pre ++ [n]))%nat ->
                              nth j (pre ++ [n]) 0 <= n0 * 1.5).
    { intros Hn j Hj. rewrite length_snoc in Hj.
      destruct (Nat.eq_dec j (length pre)) as [-> | Hne].
      - now rewrite nth_middle.
      - rewrite app_nth1 by lia. apply Hb. lia. }
    destruct (Qlt_bool max_norm n) eqn:E.
    + apply Qlt_bool_iff in E.
      destruct (Qlt_bool (n0 * 1.5) n) eqn:E1.
      * apply Qlt_bool_iff in E1. exists (length pre).
        rewrite firstn_length_app. split.
        -- split; [ rewrite length_app; lia | ]. split.
           ++ intros j Hj. rewrite app_nth1 by lia. now apply Hb.
           ++ intros _. now rewrite nth_middle.
        -- now apply (argmax_state_first_max pre max_norm).
      * apply Qlt_bool_false_iff in E1.
        rewrite app_cons_shift. rewrite <- (length_snoc Q pre n).
        apply IH; [ | now apply Hpush ].
        now apply (argmax_state_update pre max_norm n save_index).
    + apply Qlt_bool_false_iff in E.
      rewrite app_cons_shift. rewrite <- (length_snoc Q pre n).
      apply IH; [ now apply argmax_state_keep | ].
      apply Hpush. now apply Qle_trans with max_norm.
Qed.

(** The index the nested [get_max_approx] computes from nonnegative
    norms. *)
Lemma nested_index_first_max (ws : list Q) :
  ws <> [] -> (forall w, In w ws -> 0 <= w) ->
  first_max ws (YeadonModel.get_max_approx_loop ws 0 0 0).
Proof.
  intros Hne Hpos. destruct ws as [ | n0 rest ]; [ congruence | ].
  assert (H0 : 0 <= n0) by (apply Hpos; now left).
  cbn [YeadonModel.get_max_approx_loop].
  destruct (Qlt_bool 0 n0) eqn:E.
  - apply (nested_loop_first_max rest [n0] n0 0). apply argmax_state_first.
  - apply Qlt_bool_false_iff in E.
    apply (nested_loop_first_max rest [n0] 0 0).
    apply (argmax_state_Qeq [n0] n0 0 0); [ lra | apply argmax_state_first ].
Qed.

(** The index the free [get_max_approx] computes from nonnegative norms. *)
Lemma free_index_first_max (ws : list Q) :
  ws <> [] -> (forall w, In w ws -> 0 <= w) ->
  exists stop,
    first_above (nth 0 ws 0 * 1.5) ws stop /\
    first_max (firstn stop ws)
      (get_maximum.get_max_approx_loop (nth 0 ws 0) ws 0 (nth 0 ws 0) 0).
Proof.
  intros Hne Hpos. destruct ws as [ | n0 rest ]; [ congruence | ].
  assert (H0 : 0 <= n0) by (apply Hpos; now left).
  cbn [nth get_maximum.get_max_approx_loop]. rewrite Qlt_bool_irrefl.
  apply (free_loop_first_max n0 rest [n0] n0 0); [ apply argmax_state_first | ].
  intros j Hj. cbn in Hj. assert (j = O) as -> by lia. cbn. lra.
Qed.

Lemma index_nth (A : Type) (l : list A) (i : nat) (d : A) :
  (i < length l)%nat -> index l i = Ok (nth i l d).
Proof.
  intros Hi. unfold index. now rewrite (nth_error_nth' l d Hi).
Qed.

Lemma widths_length (L : Libm) (r_side l_side : list Pixel) :
  length r_side = length l_side ->
  length (widths L r_side l_side) = length r_side.
Proof.
  intros H. unfold widths. rewrite length_map, length_combine, <- H.
  apply Nat.min_id.
Qed.

Lemma widths_nth (L : Libm) (r_side l_side : list Pixel) (i : nat) :
  length r_side = length l_side -> (i < length r_side)%nat ->
  nth i (widths L r_side l_side) 0 =
  pixel_distance L (nth i r_side (0, 0)%Z) (nth i l_side (0, 0)%Z).
Proof.
  intros Hlen Hi. unfold widths.
  rewrite (nth_indep _ 0
             ((fun ab => pixel_distance L (fst ab) (snd ab))
                ((0, 0)%Z, (0, 0)%Z)))
    by (now rewrite length_map, length_combine, <- Hlen, Nat.min_id).
  rewrite (map_nth (fun ab => pixel_distance L (fst ab) (snd ab))).
  now rewrite combine_nth.
Qed.

Lemma widths_nonneg (L : Libm) (r_side l_side : list Pixel) :
  (forall q, 0 <= np_sqrt L q) ->
  forall w, In w (widths L r_side l_side) -> 0 <= w.
Proof.
  intros Hsqrt w Hin. unfold widths in Hin. apply in_map_iff in Hin.
  destruct Hin as (ab & <- & _). apply Hsqrt.
Qed.

(** The two extremum searches from the results of their parts. *)
Lemma maximum_point_from_parts (L : Libm) (fuel : nat) (start end_ : Point2D)
    (edges : Raster) (r_side l_side : list Pixel) :
  let p1 := (snd start, fst start) in
  let p2 := (snd end_, fst end_) in
  get_maximum.get_maximum_range L fuel (get_maximum.vector_angle_plus L p1 p2)
    (get_maximum.sample_points p1 p2) edges = Ok r_side ->
  get_maximum.get_maximum_range L fuel (get_maximum.vector_angle_minus L p1 p2)
    (get_maximum.sample_points p1 p2) edges = Ok l_side ->
  get_maximum.get_maximum_point L fuel start end_ edges =
  (i <- get_maximum.get_max_approx L r_side l_side ;;
   get_maximum.index_reversed (get_maximum.sample_points p1 p2) i) /\
  YeadonModel._get_maximum_point L fuel start end_ edges =
  (i <- YeadonModel.get_max_approx L r_side l_side ;;
   get_maximum.index_reversed (get_maximum.sample_points p1 p2) i).
Proof.
  intros p1 p2 Hr Hl.
  unfold get_maximum.get_maximum_point, YeadonModel._get_maximum_point,
    get_points. fold p1 p2.
  rewrite Hr, Hl. split; reflexivity.
Qed.

(** The indices the two copies of [get_max_approx] return on sides of equal
    length whose widths are nonnegative. *)
Lemma get_max_approx_indices (L : Libm) (r_side l_side : list Pixel) :
  (forall q, 0 <= np_sqrt L q) ->
  length r_side = length l_side -> r_side <> [] ->
  (exists i, first_max (widths L r_side l_side) i /\
             YeadonModel.get_max_approx L r_side l_side = Ok (Some i)) /\
  (exists stop i,
     first_above (nth 0 (widths L r_side l_side) 0 * 1.5)
       (widths L r_side l_side) stop /\
     first_max (firstn stop (widths L r_side l_side)) i /\
     get_maximum.get_max_approx L r_side l_side = Ok (Some i)).
Proof.
  intros Hsqrt Hlen Hne.
  pose proof (norms_are_widths L r_side l_side Hlen Hne) as Hnorms.
  pose proof (widths_nonneg L r_side l_side Hsqrt) as Hpos.
  assert (Hws : widths L r_side l_side <> []).
  { intros E. apply (f_equal (@length Q)) in E.
    rewrite widths_length in E by exact Hlen.
    destruct r_side; [ congruence | discriminate E ]. }
  unfold get_maximum.get_max_approx, YeadonModel.get_max_approx.
  rewrite Hlen, Nat.eqb_refl. cbn [negb].
  destruct (np_sub (np_array r_side) (np_array l_side)) as [v | e | ];
    cbn [bind] in Hnorms |- *; try discriminate Hnorms.
  rewrite Hnorms. cbn [bind]. split.
  - eexists. split; [ | reflexivity ].
    now apply nested_index_first_max.
  - destruct (free_index_first_max (widths L r_side l_side) Hws Hpos)
      as (stop & Habove & Hmax).
    exists stop. eexists. split; [ exact Habove | ].
    split; [ exact Hmax | ].
    rewrite (index_nth Q _ 0 0).
    + reflexivity.
    + destruct (widths L r_side l_side); [ congruence | cbn; lia ].
Qed.

(** ** The extremum search *)

Lemma taper_right_shifted :
  get_maximum.get_maximum_range Approx.libm 200
    (get_maximum.vector_angle_plus Approx.libm (-1, 2.5) (1.97, 2.5))
    (get_maximum.sample_points (-1, 2.5) (1.97, 2.5)) Examples.taper
  = Ok (repeat (3, 0)%Z 66 ++ repeat (4, 1)%Z 33).
Proof. run_range. Qed.

Lemma taper_left_shifted :
  get_maximum.get_maximum_range Approx.libm 200
    (get_maximum.vector_angle_minus Approx.libm (-1, 2.5) (1.97, 2.5))
    (get_maximum.sample_points (-1, 2.5) (1.97, 2.5)) Examples.taper
  = Ok (repeat (1, 0)%Z 66 ++ repeat (0, 1)%Z 33).
Proof. run_range. Qed.

(** A first sample above the raster.  On the segment from (2.5, -1) to
    (2.5, 1.97) the first sample misses on both sides, so both
    sides hold 99 hits, those of samples 1 to 99.  The method pairs them by
    position, finds the largest norm at position 66 and returns sample 66,
    the point (2.5, 0.98), whose own local width is 2, while sample 67 is 4
    wide.  The free function leaves its loop at position 66 and returns
    sample 0, which has no local width at all. *)
Lemma extremum_search_returns_a_narrow_sample :
  get_maximum.get_maximum_range Approx.libm 200
    (get_maximum.vector_angle_plus Approx.libm (-1, 2.5) (1.97, 2.5))
    (get_maximum.sample_points (-1, 2.5) (1.97, 2.5)) Examples.taper
  = Ok (repeat (3, 0)%Z 66 ++ repeat (4, 1)%Z 33) /\
  get_maximum.get_maximum_range Approx.libm 200
    (get_maximum.vector_angle_minus Approx.libm (-1, 2.5) (1.97, 2.5))
    (get_maximum.sample_points (-1, 2.5) (1.97, 2.5)) Examples.taper
  = Ok (repeat (1, 0)%Z 66 ++ repeat (0, 1)%Z 33) /\
  YeadonModel._get_maximum_point Approx.libm 200 (2.5, -1) (2.5, 1.97)
    Examples.taper
  = get_maximum.index_reversed
      (get_maximum.sample_points (-1, 2.5) (1.97, 2.5)) (Some 66%nat) /\
  get_maximum.get_maximum_point Approx.libm 200 (2.5, -1) (2.5, 1.97)
    Examples.taper
  = get_maximum.index_reversed
      (get_maximum.sample_points (-1, 2.5) (1.97, 2.5)) (Some 0%nat) /\
  (exists p, get_maximum.index_reversed
               (get_maximum.sample_points (-1, 2.5) (1.97, 2.5)) (Some 66%nat)
             = Ok p /\ fst p == 2.5 /\ snd p == 0.98) /\
  local_width Approx.libm 200 (2.5, -1) (2.5, 1.97) Examples.taper 66
  = Ok (Some 2) /\
  local_width Approx.libm 200 (2.5, -1) (2.5, 1.97) Examples.taper 67
  = Ok (Some 4) /\
  local_width Approx.libm 200 (2.5, -1) (2.5, 1.97) Examples.taper 0
  = Ok None.
Proof.
  destruct (maximum_point_from_parts Approx.libm 200 (2.5, -1) (2.5, 1.97)
              Examples.taper _ _ taper_right_shifted taper_left_shifted)
    as [Hfree Hnested].
  split; [ exact taper_right_shifted | ].
  split; [ exact taper_left_shifted | ].
  split; [ rewrite Hnested; vm_compute; reflexivity | ].
  split; [ rewrite Hfree; vm_compute; reflexivity | ].
  split.
  { eexists. split; [ vm_compute; reflexivity | ].
    split; vm_compute; reflexivity. }
  split; [ vm_compute; reflexivity | ].
  split; vm_compute; reflexivity.
Qed.

Lemma approx_sqrt_nonneg (q : Q) : 0 <= np_sqrt Approx.libm q.
Proof.
  unfold np_sqrt, Approx.libm, Approx.sqrt.
  rewrite Qred_correct. unfold Qle. cbn [Qnum Qden].
  pose proof (Z.sqrt_nonneg (Qnum q * 10 ^ 30 / Z.pos (Qden q))). lia.
Qed.

(** ** The angular pit search on a raster without boundary *)

Lemma ray_terminates (L : Libm) (p1 : Point2D) (angle : Q) (edges : Raster) :
  ~ (np_sin L angle == 0 /\ np_cos L angle == 0) ->
  exists n r, ray_stops_at L p1 angle edges n r.
Proof.
  intros Hdir.
  destruct (ray_leaves_raster L p1 angle edges Hdir) as [K HK].
  destruct (ray_ends_before L p1 angle edges K 0 HK) as (n & r & _ & Hclear & Hfin).
  exists n, r. split; [ | exact Hfin ]. intros j Hj. apply Hclear. lia.
Qed.

Lemma blank_loop (L : Libm) (edges : Raster) (p1 : Point2D) (angle : Q) :
  no_boundary edges ->
  forall fuel distance,
    find_edge_loop L fuel p1 angle edges distance = Ok [] \/
    find_edge_loop L fuel p1 angle edges distance = OutOfFuel.
Proof.
  intros Hblank. induction fuel as [ | fuel IH ]; intros distance.
  - now right.
  - cbn [find_edge_loop]. destruct (pt_from L p1 angle distance) as [x y].
    destruct (out_of_bounds edges x y); [ now left | ].
    unfold is_boundary.
    destruct (Z.eqb_spec (pixel edges (Z.to_nat x) (Z.to_nat y)) boundary_value)
      as [E | _]; [ now elim (Hblank _ _ E) | ].
    apply IH.
Qed.

Lemma blank_ray (L : Libm) (edges : Raster) (p1 p2 : Point2D) (angle : Q)
    (fuel : nat) :
  no_boundary edges ->
  find_edge L fuel p1 p2 angle edges = Ok [] \/
  find_edge L fuel p1 p2 angle edges = OutOfFuel.
Proof. intros Hblank. now apply blank_loop. Qed.

(** With an empty saved hit list the climb never leaves its loop: every new
    hit list is empty too, and its norm is not smaller than the saved one. *)
Lemma blank_climb (L : Libm) (edges : Raster) (point point2 : Point2D)
    (next : Q -> Q) (fuel : nat) :
  no_boundary edges ->
  forall n angle,
    get_maximum.climb L fuel n next point point2 edges angle [] = OutOfFuel.
Proof.
  intros Hblank. induction n as [ | n IH ]; intros angle; [ reflexivity | ].
  cbn [get_maximum.climb].
  destruct (blank_ray L edges point point2 (next angle) fuel Hblank) as [H | H];
    rewrite H; cbn [bind]; [ | reflexivity ].
  rewrite Qlt_bool_irrefl. apply IH.
Qed.

Lemma blank_pit (L : Libm) (edges : Raster) (start : Point2D) (fuel : nat) :
  no_boundary edges ->
  get_maximum.get_maximum_pit L fuel start edges = OutOfFuel.
Proof.
  intros Hblank. unfold get_maximum.get_maximum_pit.
  match goal with
  | |- context [find_edge L fuel ?p ?p2 ?a edges] =>
      destruct (blank_ray L edges p p2 a fuel Hblank) as [H | H]; rewrite H
  end; cbn [bind]; [ | reflexivity ].
  rewrite blank_climb by exact Hblank. reflexivity.
Qed.

Lemma blank22_no_boundary : no_boundary Examples.blank22.
Proof.
  intros r c. unfold Examples.blank22, raster_of_rows, pixel, boundary_value.
  destruct r as [ | [ | r ] ]; cbn [nth];
    destruct c as [ | [ | [ | c ] ] ]; cbn [nth]; try discriminate;
    destruct r; discriminate.
Qed.

(** C10.  [get_maximum_pit] does not terminate on the anchor (1, 1) of a
    two-by-two raster without boundary pixel: every ray cast from the anchor
    in a direction that moves at all leaves the raster and returns the empty
    hit list; the norm of an empty hit list is not smaller than itself; and
    for every amount of fuel the function is still in its first loop when
    the fuel is spent. *)
Theorem get_maximum_pit_never_returns (L : Libm) :
  (forall angle,
     (np_sin L angle == 0 /\ np_cos L angle == 0) \/
     exists n, forall fuel, (n < fuel)%nat ->
       find_edge L fuel (1, 1) (1 + 5, 1) angle Examples.blank22 = Ok []) /\
  Qlt_bool (norm L (np_array [])) (norm L (np_array [])) = false /\
  (forall fuel,
     get_maximum.get_maximum_pit L fuel (1, 1) Examples.blank22 = OutOfFuel).
Proof.
  split; [ | split ].
  - intros angle.
    destruct (Qeq_dec (np_sin L angle) 0) as [Hs | Hs];
      [ destruct (Qeq_dec (np_cos L angle) 0) as [Hc | Hc]; [ now left | ] | ];
      right.
    + destruct (ray_terminates L (1, 1) angle Examples.blank22) as (n & r & Hray).
      { intros [_ H]. now apply Hc. }
      exists n. intros fuel Hn.
      pose proof (find_edge_of_ray L (1, 1) (1 + 5, 1) angle _ n r fuel Hray Hn) as H.
      destruct (blank_ray L Examples.blank22 (1, 1) (1 + 5, 1) angle fuel
                  blank22_no_boundary) as [H' | H']; congruence.
    + destruct (ray_terminates L (1, 1) angle Examples.blank22) as (n & r & Hray).
      { intros [H _]. now apply Hs. }
      exists n. intros fuel Hn.
      pose proof (find_edge_of_ray L (1, 1) (1 + 5, 1) angle _ n r fuel Hray Hn) as H.
      destruct (blank_ray L Examples.blank22 (1, 1) (1 + 5, 1) angle fuel
                  blank22_no_boundary) as [H' | H']; congruence.
  - apply Qlt_bool_irrefl.
  - intros fuel. apply blank_pit. exact blank22_no_boundary.
Qed.

(** ** The angular pit search *)

Lemma climb_continue (L : Libm) (fuel n : nat) (next : Q -> Q)
    (point point2 : Point2D) (edges : Raster) (angle : Q)
    (max_save max_last : list Pixel) :
  find_edge L fuel point point2 (next angle) edges = Ok max_last ->
  Qlt_bool (hit_norm L max_last) (hit_norm L max_save) = false ->
  get_maximum.climb L fuel (S n) next point point2 edges angle max_save =
  get_maximum.climb L fuel n next point point2 edges (next angle) max_last.
Proof.
  intros Hray Hcmp. cbn [get_maximum.climb]. rewrite Hray. cbn [bind].
  unfold hit_norm in Hcmp. rewrite Hcmp. reflexivity.
Qed.

Lemma climb_stop (L : Libm) (fuel n : nat) (next : Q -> Q)
    (point point2 : Point2D) (edges : Raster) (angle : Q)
    (max_save max_last : list Pixel) :
  find_edge L fuel point point2 (next angle) edges = Ok max_last ->
  Qlt_bool (hit_norm L max_last) (hit_norm L max_save) = true ->
  get_maximum.climb L fuel (S n) next point point2 edges angle max_save =
  Ok (max_save, max_last).
Proof.
  intros Hray Hcmp. cbn [get_maximum.climb]. rewrite Hray. cbn [bind].
  unfold hit_norm in Hcmp. rewrite Hcmp. reflexivity.
Qed.

(** Evaluation of a climb, ray by ray. *)
Ltac run_climb :=
  repeat (erewrite climb_continue;
          [ | solve [ run_ray ] | solve [ vm_compute; reflexivity ] ]);
  erewrite climb_stop;
  [ reflexivity | solve [ run_ray ] | solve [ vm_compute; reflexivity ] ].

Lemma pit_example_up :
  get_maximum.climb Approx.libm 700 700 (fun a => a + 0.01)
    (3, 1.5) (3 + 5, 1.5) Examples.pit_raster 0 [(1, 9)%Z]
  = Ok ([(1, 9)%Z], [(2, 8)%Z]).
Proof. run_climb. Qed.

Lemma pit_example_down :
  get_maximum.climb Approx.libm 700 700 (fun a => a - 0.01)
    (3, 1.5) (3 + 5, 1.5) Examples.pit_raster 0 [(1, 9)%Z]
  = Ok ([(1, 9)%Z], [(0, 8)%Z]).
Proof. run_climb. Qed.

Lemma pit_example_start :
  find_edge Approx.libm 700 (3, 1.5) (3 + 5, 1.5) 0 Examples.pit_raster
  = Ok [(1, 9)%Z].
Proof. run_ray. Qed.

(** [get_maximum_pit] from the results of its parts. *)
Lemma pit_from_parts (L : Libm) (fuel : nat) (start : Point2D) (edges : Raster)
    (max_save max_save_right max_last_right max_save_left max_last_left
       : list Pixel) (d : ndarray) (p : Pixel) (dist : Z) :
  let point := (snd start, fst start) in
  let point2 := (fst point + 5, snd point) in
  let angle_radians :=
    np_arctan2 L (snd point2 - snd point) (fst point2 - fst point) in
  find_edge L fuel point point2 angle_radians edges = Ok max_save ->
  get_maximum.climb L fuel fuel (fun a => a + 0.01) point point2 edges
    angle_radians max_save = Ok (max_save_right, max_last_right) ->
  get_maximum.climb L fuel fuel (fun a => a - 0.01) point point2 edges
    angle_radians max_save = Ok (max_save_left, max_last_left) ->
  np_sub (np_array max_last_left) (np_array max_last_right) = Ok d ->
  index (py_max max_save_left max_last_right) 0 = Ok p ->
  py_int (norm L (np_array (py_max max_save_left max_last_right))) = dist ->
  get_maximum.get_maximum_pit L fuel start edges = Ok (p, dist).
Proof.
  intros point point2 angle_radians H0 Hup Hdown Hd Hp Hdist.
  subst point point2 angle_radians.
  unfold get_maximum.get_maximum_pit. cbn [fst snd] in *.
  rewrite H0. cbn [bind]. rewrite Hup. cbn [bind]. rewrite Hdown. cbn [bind].
  rewrite Hd. cbn [bind]. rewrite Hp. cbn [bind]. rewrite Hdist. reflexivity.
Qed.

Lemma pit_example_run :
  get_maximum.get_maximum_pit Approx.libm 700 (1.5, 3) Examples.pit_raster
  = Ok ((2, 8)%Z, 8%Z).
Proof.
  apply (pit_from_parts Approx.libm 700 (1.5, 3) Examples.pit_raster
           [(1, 9)%Z] [(1, 9)%Z] [(2, 8)%Z] [(1, 9)%Z] [(0, 8)%Z]
           (ArrN2 [(-2, 0)%Z])).
  - exact pit_example_start.
  - exact pit_example_up.
  - exact pit_example_down.
  - reflexivity.
  - reflexivity.
  - vm_compute. reflexivity.
Qed.

(** The failing input of C3.  From the anchor (1.5, 3) both climbs keep the
    hit (1, 9) as their maximum; the increasing climb stops at the hit
    (2, 8), whose norm is smaller; the function returns that last, rejected
    hit (2, 8), not a maximum of a climb, and with it the number 8, the
    integer part of the norm of (2, 8), while (2, 8) lies at distance 5.02
    from the anchor. *)
Lemma get_maximum_pit_returns_a_rejected_hit :
  get_maximum.get_maximum_pit Approx.libm 700 (1.5, 3) Examples.pit_raster
  = Ok ((2, 8)%Z, 8%Z) /\
  get_maximum.climb Approx.libm 700 700 (fun a => a + 0.01)
    (3, 1.5) (3 + 5, 1.5) Examples.pit_raster 0 [(1, 9)%Z]
  = Ok ([(1, 9)%Z], [(2, 8)%Z]) /\
  get_maximum.climb Approx.libm 700 700 (fun a => a - 0.01)
    (3, 1.5) (3 + 5, 1.5) Examples.pit_raster 0 [(1, 9)%Z]
  = Ok ([(1, 9)%Z], [(0, 8)%Z]) /\
  hit_norm Approx.libm [(2, 8)%Z] < hit_norm Approx.libm [(1, 9)%Z] /\
  py_int (anchor_distance Approx.libm (1.5, 3) (2, 8)%Z) = 5%Z /\
  py_int (hit_norm Approx.libm [(2, 8)%Z]) = 8%Z.
Proof.
  split; [ exact pit_example_run | ].
  split; [ exact pit_example_up | ].
  split; [ exact pit_example_down | ].
  split; [ apply Qlt_bool_iff; vm_compute; reflexivity | ].
  split; vm_compute; reflexivity.
Qed.

Lemma iter_shift (next : Q -> Q) (k : nat) (a : Q) :
  Nat.iter (S k) next a = Nat.iter k next (next a).
Proof.
  induction k as [ | k IH ]; [ reflexivity | ].
  cbn [Nat.iter nat_rect] in IH |- *. now rewrite IH.
Qed.

(** A climb that returns has cast [k >= 1] rays, at the angles
    [next angle], [next (next angle)], ...; each hit list but the last has a
    norm not smaller than the one before it, the last one is strictly
    smaller; the climb returns the last but one and the last. *)
Lemma climb_returns (L : Libm) (fuel : nat) (next : Q -> Q)
    (point point2 : Point2D) (edges : Raster) (n : nat) :
  forall angle max_save saved last,
    get_maximum.climb L fuel n next point point2 edges angle max_save
    = Ok (saved, last) ->
    exists (k : nat) (hits : nat -> list Pixel),
      (1 <= k <= n)%nat /\ hits O = max_save /\
      (forall j, (1 <= j <= k)%nat ->
         find_edge L fuel point point2 (Nat.iter j next angle) edges
         = Ok (hits j)) /\
      (forall j, (1 <= j < k)%nat ->
         ~ hit_norm L (hits j) < hit_norm L (hits (j - 1)%nat)) /\
      hit_norm L (hits k) < hit_norm L (hits (k - 1)%nat) /\
      saved = hits (k - 1)%nat /\ last = hits k.
Proof.
  induction n as [ | n IH ]; intros angle max_save saved last H.
  - discriminate H.
  - cbn [get_maximum.climb] in H.
    destruct (find_edge L fuel point point2 (next angle) edges)
      as [max_last | e | ] eqn:Hray; cbn [bind] in H; try discriminate H.
    destruct (Qlt_bool (norm L (np_array max_last)) (norm L (np_array max_save)))
      eqn:Hcmp.
    + inversion H; subst saved last.
      exists 1%nat, (fun j => match j with O => max_save | S _ => max_last end).
      split; [ lia | ]. split; [ reflexivity | ].
      split; [ | split; [ | split; [ | split; reflexivity ] ] ].
      * intros j Hj. assert (j = 1%nat) as -> by lia. exact Hray.
      * intros j Hj. lia.
      * apply Qlt_bool_iff. exact Hcmp.
    + destruct (IH (next angle) max_last saved last H)
        as (k & hits & Hk & H0 & Hrays & Hmono & Hlast & Hsaved & Hl).
      exists (S k), (fun j => match j with O => max_save | S j' => hits j' end).
      split; [ lia | ]. split; [ reflexivity | ].
      split; [ | split; [ | split; [ | split ] ] ].
      * intros j Hj. destruct j as [ | j ]; [ lia | ].
        destruct j as [ | j ].
        -- rewrite H0. exact Hray.
        -- rewrite iter_shift. apply Hrays. lia.
      * intros j Hj. destruct j as [ | j ]; [ lia | ].
        cbn [Nat.sub]. rewrite Nat.sub_0_r.
        destruct j as [ | j ].
        -- rewrite H0. intros Hlt. apply Qlt_bool_iff in Hlt.
           unfold hit_norm in Hlt. congruence.
        -- specialize (Hmono (S j)). cbn [Nat.sub] in Hmono.
           rewrite Nat.sub_0_r in Hmono. apply Hmono. lia.
      * cbn [Nat.sub]. rewrite Nat.sub_0_r.
        destruct k as [ | k ]; [ lia | ].
        cbn [Nat.sub] in Hlast. rewrite Nat.sub_0_r in Hlast. exact Hlast.
      * cbn [Nat.sub]. rewrite Nat.sub_0_r.
        destruct k as [ | k ]; [ lia | ].
        cbn [Nat.sub] in Hsaved. rewrite Nat.sub_0_r in Hsaved. exact Hsaved.
      * exact Hl.
Qed.

Lemma py_max_cases (a b : list Pixel) : py_max a b = a \/ py_max a b = b.
Proof. unfold py_max. destruct (list_ltb a b); [ now right | now left ]. Qed.

Lemma index_singleton (l : list Pixel) (p : Pixel) :
  (l = [] \/ exists h, l = [h]) -> index l 0 = Ok p -> l = [p].
Proof.
  intros [-> | [h ->]] H; [ discriminate H | ].
  cbn in H. now inversion H.
Qed.

Lemma py_max_of_hits (a b : Pixel) :
  py_max [a] [b] =
  [if ((fst a <? fst b) || ((fst a =? fst b) && (snd a <? snd b)))%Z
   then b else a].
Proof.
  unfold py_max, list_ltb, tuple_eqb, tuple_ltb.
  destruct (Z.eqb_spec (fst a) (fst b)) as [E1 | E1];
    destruct (Z.eqb_spec (snd a) (snd b)) as [E2 | E2];
    destruct (Z.ltb_spec (fst a) (fst b));
    destruct (Z.ltb_spec (snd a) (snd b));
    cbn [andb orb]; try reflexivity; lia.
Qed.

(** C3.  What [get_maximum_pit] returns.  It casts one ray in the initial
    direction and then makes two greedy climbs, one adding 0.01 rad to the
    angle per step and one subtracting it; in each climb every ray but the
    last has a hit norm (the norm of the coordinates of the hit pixel,
    [sqrt(0)] for a miss) not smaller than that of the ray before it, and the
    last ray is the first whose hit norm is strictly smaller: the ray before
    the last holds the maximum the climb saved, the last one is rejected.
    The point returned is [max(max_save_left, max_last_right)]: Python's
    maximum of the saved hit of the decreasing climb and the last, rejected
    hit of the increasing climb, where of two hits the one with the larger
    column wins, and the larger row at equal columns; the maximum saved by
    the increasing climb is not looked at.  The number returned is the
    integer part of the norm of the coordinates of that point. *)
Theorem get_maximum_pit_climbs
    (L : Libm) (fuel : nat) (start : Point2D) (edges : Raster)
    (pt : Pixel) (dist : Z) :
  get_maximum.get_maximum_pit L fuel start edges = Ok (pt, dist) ->
  let point := (snd start, fst start) in
  let point2 := (fst point + 5, snd point) in
  let angle0 := np_arctan2 L (snd point2 - snd point) (fst point2 - fst point) in
  exists (n m : nat) (up down : nat -> list Pixel),
    (1 <= n)%nat /\ (1 <= m)%nat /\ up O = down O /\
    find_edge L fuel point point2 angle0 edges = Ok (up O) /\
    (forall j, (1 <= j <= n)%nat ->
       find_edge L fuel point point2
         (Nat.iter j (fun a => a + 0.01) angle0) edges = Ok (up j)) /\
    (forall j, (1 <= j <= m)%nat ->
       find_edge L fuel point point2
         (Nat.iter j (fun a => a - 0.01) angle0) edges = Ok (down j)) /\
    (forall j, (1 <= j < n)%nat ->
       ~ hit_norm L (up j) < hit_norm L (up (j - 1)%nat)) /\
    hit_norm L (up n) < hit_norm L (up (n - 1)%nat) /\
    (forall j, (1 <= j < m)%nat ->
       ~ hit_norm L (down j) < hit_norm L (down (j - 1)%nat)) /\
    hit_norm L (down m) < hit_norm L (down (m - 1)%nat) /\
    [pt] = py_max (down (m - 1)%nat) (up n) /\
    (forall a b, down (m - 1)%nat = [a] -> up n = [b] ->
       pt = if ((fst a <? fst b) || ((fst a =? fst b) && (snd a <? snd b)))%Z
            then b else a) /\
    (up n = [] -> down (m - 1)%nat = [pt]) /\
    (down (m - 1)%nat = [] -> up n = [pt]) /\
    dist = py_int (np_sqrt L (inject_Z (fst pt * fst pt + snd pt * snd pt + 0))).
Proof.
  intros H point point2 angle0.
  unfold get_maximum.get_maximum_pit in H. cbn [fst snd] in H.
  subst point point2 angle0. cbn [fst snd].
  set (point := (snd start, fst start)) in *.
  set (point2 := (snd start + 5, fst start)) in *.
  set (angle0 := np_arctan2 L (fst start - fst start) (snd start + 5 - snd start)) in *.
  destruct (find_edge L fuel point point2 angle0 edges)
    as [max_save | e | ] eqn:H0; cbn [bind] in H; try discriminate H.
  destruct (get_maximum.climb L fuel fuel (fun a => a + 0.01) point point2
              edges angle0 max_save) as [[sr lr] | e | ] eqn:Hup;
    cbn [bind] in H; try discriminate H.
  destruct (get_maximum.climb L fuel fuel (fun a => a - 0.01) point point2
              edges angle0 max_save) as [[sl ll] | e | ] eqn:Hdown;
    cbn [bind] in H; try discriminate H.
  destruct (np_sub (np_array ll) (np_array lr)) as [d | e | ];
    cbn [bind] in H; try discriminate H.
  destruct (index (py_max sl lr) 0) as [p | e | ] eqn:Hp;
    cbn [bind] in H; try discriminate H.
  injection H as Hpt Hdist. subst p.
  destruct (climb_returns L fuel _ point point2 edges fuel angle0 max_save sr lr Hup)
    as (n & up & Hn & Hu0 & Hurays & Humono & Hulast & Hsr & Hlr).
  destruct (climb_returns L fuel _ point point2 edges fuel angle0 max_save sl ll Hdown)
    as (m & down & Hm & Hd0 & Hdrays & Hdmono & Hdlast & Hsl & Hll).
  assert (Hone_up : forall j, (j <= n)%nat -> up j = [] \/ exists h, up j = [h]).
  { intros j Hj. destruct j as [ | j ].
    - rewrite Hu0. exact (find_edge_at_most_one L _ _ _ _ _ _ H0).
    - apply (find_edge_at_most_one L point point2
               (Nat.iter (S j) (fun a => a + 0.01) angle0) edges _ fuel).
      apply Hurays. lia. }
  assert (Hone_down : forall j, (j <= m)%nat -> down j = [] \/ exists h, down j = [h]).
  { intros j Hj. destruct j as [ | j ].
    - rewrite Hd0. exact (find_edge_at_most_one L _ _ _ _ _ _ H0).
    - apply (find_edge_at_most_one L point point2
               (Nat.iter (S j) (fun a => a - 0.01) angle0) edges _ fuel).
      apply Hdrays. lia. }
  assert (Hmax : py_max sl lr = [pt]).
  { apply index_singleton; [ | exact Hp ].
    destruct (py_max_cases sl lr) as [-> | ->].
    - rewrite Hsl. apply Hone_down. lia.
    - rewrite Hlr. apply Hone_up. lia. }
  rewrite Hsl, Hlr in Hmax.
  exists n, m, up, down.
  split; [ lia | ]. split; [ lia | ]. split; [ congruence | ].
  split; [ now rewrite Hu0 | ].
  split; [ exact Hurays | ]. split; [ exact Hdrays | ].
  split; [ exact Humono | ]. split; [ exact Hulast | ].
  split; [ exact Hdmono | ]. split; [ exact Hdlast | ].
  split; [ now rewrite Hmax | ].
  split; [ | split; [ | split ] ].
  - intros a b Ea Eb. rewrite Ea, Eb, py_max_of_hits in Hmax.
    now inversion Hmax.
  - intros E. rewrite E in Hmax. unfold py_max in Hmax.
    destruct (down (m - 1)%nat) as [ | a l ]; cbn [list_ltb] in Hmax;
      [ discriminate Hmax | exact Hmax ].
  - intros E. rewrite E in Hmax. unfold py_max in Hmax.
    destruct (up n) as [ | b l ]; cbn [list_ltb] in Hmax;
      [ discriminate Hmax | exact Hmax ].
  - rewrite Hsl, Hlr, Hmax in Hdist. rewrite <- Hdist. reflexivity.
Qed.

Lemma get_maximum_pit_climbs_witness :
  get_maximum.get_maximum_pit Approx.libm 700 (1.5, 3) Examples.pit_raster
  = Ok ((2, 8)%Z, 8%Z) /\
  exists (n m : nat) (up down : nat -> list Pixel),
    hit_norm Approx.libm (up n) < hit_norm Approx.libm (up (n - 1)%nat) /\
    hit_norm Approx.libm (down m) < hit_norm Approx.libm (down (m - 1)%nat) /\
    [(2, 8)%Z] = py_max (down (m - 1)%nat) (up n) /\
    8%Z = py_int (np_sqrt Approx.libm (inject_Z (2 * 2 + 8 * 8 + 0))).
Proof.
  split; [ exact pit_example_run | ].
  destruct (get_maximum_pit_climbs Approx.libm 700 (1.5, 3) Examples.pit_raster
              (2, 8)%Z 8%Z pit_example_run)
    as (n & m & up & down & _ & _ & _ & _ & _ & _ & _ & Hu & _ & Hd & Hpt
        & _ & _ & _ & Hdist).
  exists n, m, up, down.
  split; [ exact Hu | ]. split; [ exact Hd | ]. split; [ exact Hpt | exact Hdist ].
Defined.

(** ** The region locators *)

Lemma in_np_where (cond : Z -> bool) (img : Raster) (r c : nat) :
  In (r, c) (np_where cond img) <->
  (r < shape0 img)%nat /\ (c < shape1 img)%nat /\ cond (pixel img r c) = true.
Proof.
  unfold np_where. rewrite in_flat_map. split.
  - intros (r' & Hr & Hin). apply in_map_iff in Hin.
    destruct Hin as (c' & Heq & Hc). inversion Heq; subst r' c'.
    apply filter_In in Hc. destruct Hc as [Hc Hcond].
    apply in_seq in Hr. apply in_seq in Hc. repeat split; try lia. exact Hcond.
  - intros (Hr & Hc & Hcond). exists r. split; [ apply in_seq; lia | ].
    apply in_map. apply filter_In. split; [ apply in_seq; lia | exact Hcond ].
Qed.

Lemma np_where_nil (cond : Z -> bool) (img : Raster) :
  np_where cond img = [] <->
  (forall r c, (r < shape0 img)%nat -> (c < shape1 img)%nat ->
               cond (pixel img r c) = false).
Proof.
  split.
  - intros Hnil r c Hr Hc. destruct (cond (pixel img r c)) eqn:E; [ | reflexivity ].
    assert (Hin : In (r, c) (np_where cond img)) by (apply in_np_where; auto).
    rewrite Hnil in Hin. destruct Hin.
  - intros Hall. destruct (np_where cond img) as [ | [r c] l ] eqn:E; [ reflexivity | ].
    assert (Hin : In (r, c) (np_where cond img)) by (rewrite E; now left).
    apply in_np_where in Hin. destruct Hin as (Hr & Hc & Hcond).
    rewrite (Hall r c Hr Hc) in Hcond. discriminate Hcond.
Qed.

(** Zeroing rows and columns adds no boundary pixel. *)
Lemma masks_keep_empty (img : Raster) (k1 k2 : nat) :
  np_where YeadonModel.is_255 img = [] ->
  np_where YeadonModel.is_255 (zero_cols_before k2 (zero_rows_before k1 img)) = [].
Proof.
  rewrite !np_where_nil. intros H r c Hr Hc. cbn [zero_cols_before zero_rows_before pixel shape0 shape1] in *.
  destruct (Nat.ltb c k2); [ reflexivity | ].
  destruct (Nat.ltb r k1); [ reflexivity | ].
  now apply H.
Qed.

Lemma acromion_faults (A : Type) (edges : Raster) (ear shoulder : Point2D)
    (k : nat -> nat -> outcome A) :
  np_where YeadonModel.is_255 (YeadonModel.crop edges ear shoulder) = [] ->
  (w <- YeadonModel.len_row0
          (zero_rows_before
             (Nat.div (shape0 (YeadonModel.crop edges ear shoulder)) 2)
             (YeadonModel.crop edges ear shoulder)) ;;
   c <- index (where_cols
                 (np_where YeadonModel.is_255
                    (zero_cols_before (Nat.div w 2)
                       (zero_rows_before
                          (Nat.div (shape0 (YeadonModel.crop edges ear shoulder)) 2)
                          (YeadonModel.crop edges ear shoulder))))) 0 ;;
   r <- index (where_rows
                 (np_where YeadonModel.is_255
                    (zero_cols_before (Nat.div w 2)
                       (zero_rows_before
                          (Nat.div (shape0 (YeadonModel.crop edges ear shoulder)) 2)
                          (YeadonModel.crop edges ear shoulder))))) 0 ;;
   k c r)
  = Raise IndexError.
Proof.
  intros Hnil. unfold YeadonModel.len_row0.
  destruct (Nat.eqb _ 0); [ reflexivity | ]. cbn [bind].
  rewrite masks_keep_empty by exact Hnil. reflexivity.
Qed.

(** C7.  A region locator (right or left acromion, crotch) whose crop holds
    no pixel passing its test ends in an IndexError: indexing position 0 of
    the empty result of [np.where] (or row 0 of a crop without rows) is
    out of range, and nothing in the method catches it. *)
Theorem region_locators_fault_on_empty_crop
    (op : locator) (edges : Raster) (data : nat -> Point2D) :
  np_where (locator_test op) (region_of_interest op edges data) = [] ->
  index_fault op edges data.
Proof.
  destruct op; cbn [locator_test region_of_interest index_fault]; intros Hnil.
  - unfold YeadonModel._find_acromion_right. cbv beta iota zeta.
    apply (acromion_faults Point2D edges (data 4%nat) (data 6%nat)
             (fun c r => Ok (fst (data 4%nat) - inject_Z (Z.of_nat c),
                             snd (data 4%nat) + inject_Z (Z.of_nat r))) Hnil).
  - unfold YeadonModel._find_acromion_left. cbv beta iota zeta.
    apply (acromion_faults Point2D edges (data 3%nat) (data 5%nat)
             (fun c r => Ok (fst (data 3%nat) + inject_Z (Z.of_nat c),
                             snd (data 3%nat) + inject_Z (Z.of_nat r))) Hnil).
  - unfold YeadonModel._get_crotch_right_left. rewrite Hnil. reflexivity.
Qed.

Lemma region_locators_fault_on_empty_crop_witness :
  np_where YeadonModel.is_255
    (YeadonModel.crop Examples.blank22 (0, 0) (2, 2)) = [] /\
  shape0 (YeadonModel.crop Examples.blank22 (0, 0) (2, 2)) = 2%nat /\
  YeadonModel._find_acromion_right Examples.blank22
    (fun i => if Nat.eqb i 4 then (0, 0) else (2, 2)) = Raise IndexError.
Proof.
  split; [ reflexivity | ]. split; [ reflexivity | ].
  apply (region_locators_fault_on_empty_crop AcromionRight Examples.blank22
           (fun i => if Nat.eqb i 4 then (0, 0) else (2, 2))).
  reflexivity.
Defined.

(** ** The perimeter formulas *)

(** C8.  [_stadium_perimeter(width, depth)] is
    [2 * (pi * depth / 2 + (width - depth))] and [_circle_perimeter(diameter)]
    is [pi * diameter]; hence a stadium of equal width and depth has the
    perimeter of the circle of that diameter, and
    [_stadium_perimeter(20, 10)] is [10 * pi + 20]. *)
Theorem perimeter_formulas (L : Libm) :
  (forall width depth,
     YeadonModel._stadium_perimeter L width depth ==
     2 * (np_pi L * depth / 2 + (width - depth))) /\
  (forall diameter,
     YeadonModel._circle_perimeter L diameter == np_pi L * diameter) /\
  (forall d,
     YeadonModel._stadium_perimeter L d d == YeadonModel._circle_perimeter L d) /\
  YeadonModel._stadium_perimeter L 10 10 == 10 * np_pi L /\
  YeadonModel._stadium_perimeter L 20 10 == 10 * np_pi L + 20.
Proof.
  unfold YeadonModel._stadium_perimeter, YeadonModel._circle_perimeter.
  repeat split; intros; field.
Qed.

(** ** Rays that stop where they start *)

Lemma pt_from_origin (L : Libm) (p1 : Point2D) (angle : Q) :
  pt_from L p1 angle 0 = origin_pixel p1.
Proof.
  unfold pt_from, origin_pixel. f_equal; apply py_int_Qeq; ring.
Qed.

Lemma find_edge_outside (L : Libm) (p1 p2 : Point2D) (angle : Q)
    (edges : Raster) (fuel : nat) :
  outside edges (origin_pixel p1) = true ->
  find_edge L (S fuel) p1 p2 angle edges = Ok [].
Proof.
  intros H. unfold find_edge. cbn [find_edge_loop].
  rewrite pt_from_origin. unfold outside, origin_pixel in *. cbn [fst snd] in H.
  now rewrite H.
Qed.

Lemma find_edge_on_boundary (L : Libm) (p1 p2 : Point2D) (angle : Q)
    (edges : Raster) (fuel : nat) :
  outside edges (origin_pixel p1) = false ->
  on_boundary edges (origin_pixel p1) = true ->
  find_edge L (S fuel) p1 p2 angle edges
  = Ok [(snd (origin_pixel p1), fst (origin_pixel p1))].
Proof.
  intros Ho Hb. unfold find_edge. cbn [find_edge_loop].
  rewrite pt_from_origin. unfold outside, on_boundary, origin_pixel in *.
  cbn [fst snd] in *. now rewrite Ho, Hb.
Qed.

(** X1.  A ray whose origin truncates to a pixel outside the raster, or to a
    boundary pixel, stops in its first iteration whatever its angle (also an
    angle along which the ray would not move): outside, the result is a
    miss; on a boundary pixel, the hit is the origin's own pixel, as
    (column, row). *)
Theorem find_edge_stops_at_the_origin
    (L : Libm) (p1 p2 : Point2D) (angle : Q) (edges : Raster) (fuel : nat) :
  outside edges (origin_pixel p1) = true \/
  on_boundary edges (origin_pixel p1) = true ->
  find_edge L (S fuel) p1 p2 angle edges =
  Ok (if outside edges (origin_pixel p1) then []
      else [(py_int (snd p1), py_int (fst p1))]).
Proof.
  intros H. destruct (outside edges (origin_pixel p1)) eqn:Ho.
  - now apply find_edge_outside.
  - destruct H as [H | H]; [ discriminate H | ].
    now apply find_edge_on_boundary.
Qed.

Lemma find_edge_stops_at_the_origin_witness :
  find_edge Approx.libm 1 (0, 0.5) (0, 0) 0 Examples.left_edge
  = Ok [(0, 0)%Z] /\
  find_edge Approx.libm 1 (0, 2.5) (0, 0) 0 Examples.left_edge = Ok [].
Proof.
  split.
  - apply (find_edge_stops_at_the_origin Approx.libm (0, 0.5) (0, 0) 0
             Examples.left_edge 0).
    right. reflexivity.
  - apply (find_edge_stops_at_the_origin Approx.libm (0, 2.5) (0, 0) 0
             Examples.left_edge 0).
    left. reflexivity.
Defined.

Lemma norm_of_equal_hits (L : Libm) (h : Pixel) :
  (d <- np_sub (np_array [h]) (np_array [h]) ;; Ok (norm L d))
  = Ok (np_sqrt L 0).
Proof.
  cbn [np_array np_sub length Nat.eqb combine map bind norm sum_squares
       fold_right fst snd].
  unfold pixel_sub. cbn [fst snd]. rewrite !Z.sub_diag. reflexivity.
Qed.

(** X2.  When the landmark [start] truncates to a pixel outside the raster,
    or to a boundary pixel, the width functions return the norm of the zero
    vector, [sqrt(0)], for every [end], every [angle] and every [is_start]:
    both rays stop where they start, so both miss or both hit the pixel of
    [start] itself. *)
Theorem width_at_a_start_off_the_silhouette
    (L : Libm) (fuel : nat) (start end_ : Point2D) (edges : Raster)
    (angle is_start : Q) :
  let px := (py_int (snd start), py_int (fst start)) in
  outside edges px = true \/ on_boundary edges px = true ->
  get_maximum._get_maximum L (S fuel) start end_ edges angle is_start
  = Ok (np_sqrt L 0) /\
  YeadonModel._get_maximum L (S fuel) start end_ edges angle is_start
  = Ok (np_sqrt L 0) /\
  get_maximum.get_maximum_line L (S fuel) start end_ edges = Ok (np_sqrt L 0) /\
  get_maximum.get_maximum_start L (S fuel) start end_ edges = Ok (np_sqrt L 0).
Proof.
  intros px H.
  assert (G : forall a s,
             get_maximum._get_maximum L (S fuel) start end_ edges a s
             = Ok (np_sqrt L 0)).
  { intros a s. unfold get_maximum._get_maximum, get_points. cbn [fst snd].
    destruct (outside edges px) eqn:Ho.
    - rewrite !find_edge_outside by exact Ho. reflexivity.
    - destruct H as [H | H]; [ discriminate H | ].
      rewrite !find_edge_on_boundary by assumption. cbn [bind].
      apply norm_of_equal_hits. }
  destruct (_get_maximum_same L) as (E & _ & _).
  split; [ apply G | ]. split; [ rewrite E; apply G | ].
  split; apply G.
Qed.

Lemma width_at_a_start_off_the_silhouette_witness :
  get_maximum.get_maximum_line Approx.libm 1 (0.5, 0) (1, 0) Examples.left_edge
  = Ok (np_sqrt Approx.libm 0) /\
  get_maximum.get_maximum_start Approx.libm 1 (7, 7) (1, 0) Examples.left_edge
  = Ok (np_sqrt Approx.libm 0).
Proof.
  split.
  - apply (width_at_a_start_off_the_silhouette Approx.libm 0 (0.5, 0) (1, 0)
             Examples.left_edge 0 (-1)).
    right. reflexivity.
  - apply (width_at_a_start_off_the_silhouette Approx.libm 0 (7, 7) (1, 0)
             Examples.left_edge 0 (-1)).
    left. reflexivity.
Defined.

(** ** The width functions: termination, and the width from the start *)

Lemma direction_by_sine (L : Libm) (angle : Q) :
  Qeq_bool (np_sin L angle) 0 = false ->
  ~ (np_sin L angle == 0 /\ np_cos L angle == 0).
Proof.
  intros H [Hs _]. apply Qeq_bool_iff in Hs. congruence.
Qed.

Lemma np_sub_of_rays (L : Libm) (max1 max2 : list Pixel) :
  (max1 = [] \/ exists h, max1 = [h]) ->
  (max2 = [] \/ exists h, max2 = [h]) ->
  (exists w, (d <- np_sub (np_array max1) (np_array max2) ;; Ok (norm L d))
             = Ok w) \/
  (d <- np_sub (np_array max1) (np_array max2) ;; Ok (norm L d))
  = Raise ValueError.
Proof.
  intros [-> | [h1 ->]] [-> | [h2 ->]].
  - left. eexists. reflexivity.
  - right. reflexivity.
  - right. reflexivity.
  - left. eexists. reflexivity.
Qed.

(** X3.  The width functions terminate: when neither ray has a direction
    whose sine and cosine are both zero, there is an amount of fuel from
    which on [_get_maximum] (in either copy) returns a float or raises the
    ValueError of the subtraction; it raises nothing else and no loop is
    left running. *)
Theorem width_functions_terminate
    (L : Libm) (start end_ : Point2D) (edges : Raster) (angle is_start : Q) :
  let p1 := (snd start, fst start) in
  let p2 := (snd end_, fst end_) in
  let theta := np_arctan2 L (snd p2 - snd p1) (fst p2 - fst p1) in
  ~ (np_sin L (theta - angle) == 0 /\ np_cos L (theta - angle) == 0) ->
  ~ (np_sin L ((theta + angle) * is_start) == 0 /\
     np_cos L ((theta + angle) * is_start) == 0) ->
  exists n, forall fuel, (n < fuel)%nat ->
    ((exists w, get_maximum._get_maximum L fuel start end_ edges angle is_start
                = Ok w) \/
     get_maximum._get_maximum L fuel start end_ edges angle is_start
     = Raise ValueError) /\
    YeadonModel._get_maximum L fuel start end_ edges angle is_start
    = get_maximum._get_maximum L fuel start end_ edges angle is_start.
Proof.
  intros p1 p2 theta H1 H2.
  destruct (ray_terminates L p1 (theta - angle) edges H1) as (n1 & r1 & Hr1).
  destruct (ray_terminates L p1 ((theta + angle) * is_start) edges H2)
    as (n2 & r2 & Hr2).
  exists (n1 + n2)%nat. intros fuel Hfuel.
  split; [ | destruct (_get_maximum_same L) as (E & _ & _); now rewrite E ].
  assert (F1 : find_edge L fuel p1 p2 (theta - angle) edges = Ok r1)
    by (apply (find_edge_of_ray L p1 p2 _ edges n1 r1 fuel Hr1); lia).
  assert (F2 : find_edge L fuel p1 p2 ((theta + angle) * is_start) edges = Ok r2)
    by (apply (find_edge_of_ray L p1 p2 _ edges n2 r2 fuel Hr2); lia).
  unfold get_maximum._get_maximum, get_points. fold p1 p2. cbn [fst snd].
  fold theta. rewrite F1. cbn [bind]. rewrite F2. cbn [bind].
  apply np_sub_of_rays.
  - exact (find_edge_at_most_one L p1 p2 _ edges r1 fuel F1).
  - exact (find_edge_at_most_one L p1 p2 _ edges r2 fuel F2).
Qed.

Lemma width_functions_terminate_witness :
  exists n, forall fuel, (n < fuel)%nat ->
    (exists w, get_maximum._get_maximum Approx.libm fuel (1, 0) (1, 1)
                 Examples.row_both (np_pi Approx.libm / 2) 1 = Ok w) \/
    get_maximum._get_maximum Approx.libm fuel (1, 0) (1, 1)
      Examples.row_both (np_pi Approx.libm / 2) 1 = Raise ValueError.
Proof.
  destruct (width_functions_terminate Approx.libm (1, 0) (1, 1)
              Examples.row_both (np_pi Approx.libm / 2) 1) as [n Hn].
  - apply direction_by_sine. vm_compute. reflexivity.
  - apply direction_by_sine. vm_compute. reflexivity.
  - exists n. intros fuel Hfuel. exact (proj1 (Hn fuel Hfuel)).
Defined.

(** X4.  [get_maximum_start] casts both rays from [start], at a quarter turn
    to either side of the direction from [start] to [end]: the angles are
    [theta - pi/2] and [theta + pi/2], half a turn apart.  When the two rays
    stop at the hits [h1] and [h2], the function (in either copy) returns
    the distance between them, with any fuel above the lengths of the two
    rays. *)
Theorem get_maximum_start_casts_opposite_rays
    (L : Libm) (start end_ : Point2D) (edges : Raster)
    (n1 n2 : nat) (h1 h2 : Pixel) :
  let p1 := (snd start, fst start) in
  let p2 := (snd end_, fst end_) in
  let theta := np_arctan2 L (snd p2 - snd p1) (fst p2 - fst p1) in
  ray_stops_at L p1 (theta - np_pi L / 2) edges n1 [h1] ->
  ray_stops_at L p1 ((theta + np_pi L / 2) * 1) edges n2 [h2] ->
  (theta + np_pi L / 2) * 1 - (theta - np_pi L / 2) == np_pi L /\
  forall fuel, (n1 < fuel)%nat -> (n2 < fuel)%nat ->
    get_maximum.get_maximum_start L fuel start end_ edges
    = Ok (pixel_distance L h1 h2) /\
    YeadonModel._get_maximum_start L fuel start end_ edges
    = Ok (pixel_distance L h1 h2).
Proof.
  intros p1 p2 theta Hr1 Hr2.
  split; [ field | ].
  intros fuel Hn1 Hn2.
  assert (H : get_maximum.get_maximum_start L fuel start end_ edges
              = Ok (pixel_distance L h1 h2)).
  { unfold get_maximum.get_maximum_start, get_maximum._get_maximum, get_points.
    fold p1 p2. cbn [fst snd]. fold theta.
    rewrite (find_edge_of_ray L p1 p2 _ edges n1 [h1] fuel Hr1 Hn1). cbn [bind].
    rewrite (find_edge_of_ray L p1 p2 _ edges n2 [h2] fuel Hr2 Hn2). cbn [bind].
    cbn [np_array np_sub length Nat.eqb combine map bind norm sum_squares
         fold_right fst snd].
    unfold pixel_distance, pixel_sub. cbn [fst snd].
    rewrite Z.add_0_r. reflexivity. }
  split; [ exact H | ].
  destruct (_get_maximum_same L) as (_ & _ & E). rewrite E. exact H.
Qed.

Lemma get_maximum_start_casts_opposite_rays_witness :
  exists n1 n2,
    ray_stops_at Approx.libm (0, 1)
      (np_arctan2 Approx.libm (1 - 1) (1 - 0) - np_pi Approx.libm / 2)
      Examples.row_both n1 [(0, 0)%Z] /\
    ray_stops_at Approx.libm (0, 1)
      ((np_arctan2 Approx.libm (1 - 1) (1 - 0) + np_pi Approx.libm / 2) * 1)
      Examples.row_both n2 [(2, 0)%Z] /\
    get_maximum.get_maximum_start Approx.libm (S (n1 + n2)) (1, 0) (1, 1)
      Examples.row_both
    = Ok (pixel_distance Approx.libm (0, 0)%Z (2, 0)%Z).
Proof.
  destruct (ray_of_find_edge Approx.libm (0, 1) (1, 1)
              (np_arctan2 Approx.libm (1 - 1) (1 - 0) - np_pi Approx.libm / 2)
              Examples.row_both [(0, 0)%Z] 200) as (n1 & _ & Hr1).
  { vm_compute. reflexivity. }
  destruct (ray_of_find_edge Approx.libm (0, 1) (1, 1)
              ((np_arctan2 Approx.libm (1 - 1) (1 - 0) + np_pi Approx.libm / 2) * 1)
              Examples.row_both [(2, 0)%Z] 200) as (n2 & _ & Hr2).
  { vm_compute. reflexivity. }
  exists n1, n2. split; [ exact Hr1 | ]. split; [ exact Hr2 | ].
  destruct (get_maximum_start_casts_opposite_rays
              Approx.libm (1, 0) (1, 1) Examples.row_both n1 n2
              (0, 0)%Z (2, 0)%Z Hr1 Hr2) as (_ & H).
  destruct (H (S (n1 + n2))) as [H1 _]; [ lia | lia | ].
  exact H1.
Defined.

(** ** The width across a line when the two rays coincide *)

Lemma find_edge_loop_direction (L : Libm) (p1 : Point2D) (a b : Q)
    (edges : Raster) :
  np_sin L a == np_sin L b -> np_cos L a == np_cos L b ->
  forall fuel distance,
    find_edge_loop L fuel p1 a edges distance
    = find_edge_loop L fuel p1 b edges distance.
Proof.
  intros Hs Hc. induction fuel as [ | fuel IH ]; intros distance;
    [ reflexivity | ].
  cbn [find_edge_loop].
  assert (E : pt_from L p1 a distance = pt_from L p1 b distance).
  { unfold pt_from. f_equal; apply py_int_Qeq; [ now rewrite Hc | now rewrite Hs ]. }
  rewrite E. destruct (pt_from L p1 b distance) as [x y].
  destruct (out_of_bounds edges x y); [ reflexivity | ].
  destruct (is_boundary edges x y); [ reflexivity | ]. apply IH.
Qed.

Lemma norm_of_equal_rays (L : Libm) (r : list Pixel) :
  (r = [] \/ exists h, r = [h]) ->
  (d <- np_sub (np_array r) (np_array r) ;; Ok (norm L d)) = Ok (np_sqrt L 0).
Proof.
  intros [-> | [h ->]]; [ reflexivity | apply norm_of_equal_hits ].
Qed.

(** X5.  [get_maximum_line] casts its rays at the angles [theta] and
    [-theta].  When the two directions coincide (sine and cosine agree, as
    for [theta = 0], a segment that points straight down the picture), both
    rays are the same ray, and the function returns the norm of the zero
    vector, [sqrt(0)], whether the ray hits the boundary or leaves the
    raster: the width it reports is zero. *)
Theorem get_maximum_line_of_coinciding_rays
    (L : Libm) (start end_ : Point2D) (edges : Raster) :
  let p1 := (snd start, fst start) in
  let p2 := (snd end_, fst end_) in
  let theta := np_arctan2 L (snd p2 - snd p1) (fst p2 - fst p1) in
  np_sin L (theta - 0) == np_sin L ((theta + 0) * (-1)) ->
  np_cos L (theta - 0) == np_cos L ((theta + 0) * (-1)) ->
  ~ (np_sin L (theta - 0) == 0 /\ np_cos L (theta - 0) == 0) ->
  exists n, forall fuel, (n < fuel)%nat ->
    get_maximum.get_maximum_line L fuel start end_ edges = Ok (np_sqrt L 0) /\
    YeadonModel._get_maximum_line L fuel start end_ edges = Ok (np_sqrt L 0).
Proof.
  intros p1 p2 theta Hs Hc Hdir.
  destruct (ray_terminates L p1 (theta - 0) edges Hdir) as (n & r & Hray).
  exists n. intros fuel Hfuel.
  assert (H : get_maximum.get_maximum_line L fuel start end_ edges
              = Ok (np_sqrt L 0)).
  { pose proof (find_edge_of_ray L p1 p2 _ edges n r fuel Hray Hfuel) as F.
    unfold get_maximum.get_maximum_line, get_maximum._get_maximum, get_points.
    fold p1 p2. cbn [fst snd]. fold theta.
    assert (F' : find_edge L fuel p1 p2 ((theta + 0) * (-1)) edges = Ok r).
    { rewrite <- F. unfold find_edge. symmetry.
      now apply find_edge_loop_direction. }
    rewrite F. cbn [bind]. rewrite F'. cbn [bind].
    apply norm_of_equal_rays.
    exact (find_edge_at_most_one L p1 p2 _ edges r fuel F). }
  split; [ exact H | ].
  destruct (_get_maximum_same L) as (_ & E & _). rewrite E. exact H.
Qed.

Lemma get_maximum_line_of_coinciding_rays_witness :
  exists n, forall fuel, (n < fuel)%nat ->
    get_maximum.get_maximum_line Approx.libm fuel (2, 1) (2, 3) Examples.frame
    = Ok (np_sqrt Approx.libm 0).
Proof.
  destruct (get_maximum_line_of_coinciding_rays Approx.libm (2, 1) (2, 3)
              Examples.frame) as [n Hn].
  - apply Qeq_bool_iff. vm_compute. reflexivity.
  - apply Qeq_bool_iff. vm_compute. reflexivity.
  - intros [_ Hc]. apply Qeq_bool_iff in Hc.
    assert (E : Qeq_bool (np_cos Approx.libm
                  (np_arctan2 Approx.libm (2 - 2) (3 - 1) - 0)) 0 = false)
      by (vm_compute; reflexivity).
    cbn [fst snd] in Hc. congruence.
  - exists n. intros fuel Hfuel. exact (proj1 (Hn fuel Hfuel)).
Defined.

(** ** The rays of the extremum search *)

Lemma out_of_bounds_false (edges : Raster) (x y : Z) :
  out_of_bounds edges x y = false ->
  (0 <= x < Z.of_nat (shape0 edges))%Z /\ (0 <= y < Z.of_nat (shape1 edges))%Z.
Proof.
  unfold out_of_bounds. rewrite !orb_false_iff, !Z.geb_leb.
  intros [[[H1 H2] H3] H4].
  apply Z.ltb_ge in H1. apply Z.leb_gt in H2.
  apply Z.ltb_ge in H3. apply Z.leb_gt in H4. lia.
Qed.

Lemma hit_is_boundary_pixel (L : Libm) (fuel : nat) (p1 : Point2D) (angle : Q)
    (edges : Raster) (r : list Pixel) (h : Pixel) :
  find_edge_loop L fuel p1 angle edges 0 = Ok r -> In h r ->
  (0 <= snd h < Z.of_nat (shape0 edges))%Z /\
  (0 <= fst h < Z.of_nat (shape1 edges))%Z /\
  pixel edges (Z.to_nat (snd h)) (Z.to_nat (fst h)) = boundary_value.
Proof.
  intros H Hin.
  destruct (find_edge_loop_inv L p1 angle edges fuel 0 r H) as (n & _ & _ & Hfin).
  destruct Hfin as [[_ ->] | (Ho & Hb & ->)]; [ destruct Hin | ].
  destruct Hin as [<- | []]. cbn [fst snd].
  unfold outside in Ho. unfold on_boundary, is_boundary in Hb.
  apply out_of_bounds_false in Ho. apply Z.eqb_eq in Hb.
  split; [ apply Ho | ]. split; [ apply Ho | exact Hb ].
Qed.

Lemma range_hits_are_boundary_pixels (L : Libm) (fuel : nat) (angle : Q)
    (edges : Raster) (samples : list Point2D) : forall side,
  get_maximum.get_maximum_range L fuel angle samples edges = Ok side ->
  forall h, In h side ->
    (0 <= snd h < Z.of_nat (shape0 edges))%Z /\
    (0 <= fst h < Z.of_nat (shape1 edges))%Z /\
    pixel edges (Z.to_nat (snd h)) (Z.to_nat (fst h)) = boundary_value.
Proof.
  induction samples as [ | p rest IH ]; intros side H h Hin.
  - cbn in H. inversion H; subst side. destruct Hin.
  - cbn [get_maximum.get_maximum_range] in H.
    destruct (find_edge_loop L fuel p angle edges 0) as [hit | e | ] eqn:Hray;
      cbn [bind] in H; try discriminate H.
    destruct (get_maximum.get_maximum_range L fuel angle rest edges)
      as [save | e | ]; cbn [bind] in H; try discriminate H.
    inversion H; subst side. apply in_app_or in Hin. destruct Hin as [Hin | Hin].
    + exact (hit_is_boundary_pixel L fuel p angle edges hit h Hray Hin).
    + exact (IH save eq_refl h Hin).
Qed.

(** X6.  [get_maximum_range] returns at most one hit per sample point, in the
    order of the samples, and every hit it returns is a pixel of the raster
    that holds the boundary value, given as (column, row); the samples whose
    ray left the raster leave no trace in the list. *)
Theorem get_maximum_range_keeps_boundary_pixels
    (L : Libm) (fuel : nat) (angle : Q) (edges : Raster)
    (samples : list Point2D) (side : list Pixel) :
  get_maximum.get_maximum_range L fuel angle samples edges = Ok side ->
  (length side <= length samples)%nat /\
  forall h, In h side ->
    (0 <= snd h < Z.of_nat (shape0 edges))%Z /\
    (0 <= fst h < Z.of_nat (shape1 edges))%Z /\
    pixel edges (Z.to_nat (snd h)) (Z.to_nat (fst h)) = boundary_value.
Proof.
  intros H. split.
  - exact (range_length_le L fuel angle edges samples side H).
  - exact (range_hits_are_boundary_pixels L fuel angle edges samples side H).
Qed.

Lemma get_maximum_range_keeps_boundary_pixels_witness :
  (length (repeat (3, 0)%Z 66 ++ repeat (4, 1)%Z 33) <= 100)%nat /\
  pixel Examples.taper (Z.to_nat 1) (Z.to_nat 4) = boundary_value.
Proof.
  destruct (get_maximum_range_keeps_boundary_pixels Approx.libm 200
              (get_maximum.vector_angle_plus Approx.libm (-1, 2.5) (1.97, 2.5))
              Examples.taper (get_maximum.sample_points (-1, 2.5) (1.97, 2.5))
              (repeat (3, 0)%Z 66 ++ repeat (4, 1)%Z 33) taper_right_shifted)
    as [Hlen Hall].
  split.
  - rewrite sample_points_length in Hlen. exact Hlen.
  - apply (Hall (4, 1)%Z). apply in_or_app. right. now left.
Defined.

Lemma range_terminates (L : Libm) (angle : Q) (edges : Raster)
    (samples : list Point2D) :
  ~ (np_sin L angle == 0 /\ np_cos L angle == 0) ->
  exists n, forall fuel, (n < fuel)%nat ->
    exists side, get_maximum.get_maximum_range L fuel angle samples edges = Ok side.
Proof.
  intros Hdir. induction samples as [ | p rest [n IH] ].
  - exists 0%nat. intros fuel _. exists []. reflexivity.
  - destruct (ray_terminates L p angle edges Hdir) as (m & r & Hray).
    exists (n + m)%nat. intros fuel Hfuel.
    destruct (IH fuel) as [save Hsave]; [ lia | ].
    exists (r ++ save). cbn [get_maximum.get_maximum_range].
    pose proof (find_edge_of_ray L p p angle edges m r fuel Hray) as F.
    unfold find_edge in F. rewrite F by lia. cbn [bind].
    rewrite Hsave. reflexivity.
Qed.

Lemma blank_range (L : Libm) (fuel : nat) (angle : Q) (edges : Raster)
    (samples : list Point2D) (side : list Pixel) :
  no_boundary edges ->
  get_maximum.get_maximum_range L fuel angle samples edges = Ok side ->
  side = [].
Proof.
  intros Hblank H.
  pose proof (range_hits_are_boundary_pixels L fuel angle edges samples side H)
    as Hall.
  destruct side as [ | h side ]; [ reflexivity | ].
  destruct (Hall h (or_introl eq_refl)) as (_ & _ & E).
  now elim (Hblank _ _ E).
Qed.

(** ** The index selection: symmetry and bounds *)

Lemma pixel_distance_sym (L : Libm) (a b : Pixel) :
  pixel_distance L a b = pixel_distance L b a.
Proof. unfold pixel_distance. do 2 f_equal. ring. Qed.

Lemma widths_sym (L : Libm) (r_side : list Pixel) : forall l_side,
  widths L r_side l_side = widths L l_side r_side.
Proof.
  unfold widths. induction r_side as [ | a r IH ]; intros [ | b l ];
    try reflexivity.
  cbn [combine map fst snd]. rewrite IH. f_equal. apply pixel_distance_sym.
Qed.

(** Both index selections on sides of equal length, in closed form. *)
Lemma get_max_approx_on_equal_lengths (L : Libm) (r_side l_side : list Pixel) :
  length r_side = length l_side ->
  let ws := widths L r_side l_side in
  get_maximum.get_max_approx L r_side l_side =
  match ws with
  | [] => Raise AxisError
  | w0 :: _ => Ok (Some (get_maximum.get_max_approx_loop w0 ws 0 w0 0))
  end /\
  YeadonModel.get_max_approx L r_side l_side =
  match ws with
  | [] => Raise AxisError
  | _ :: _ => Ok (Some (YeadonModel.get_max_approx_loop ws 0 0 0))
  end.
Proof.
  intros Hlen ws.
  unfold get_maximum.get_max_approx, YeadonModel.get_max_approx.
  rewrite Hlen, Nat.eqb_refl. cbn [negb].
  destruct r_side as [ | a r ].
  - destruct l_side; [ | discriminate Hlen ]. split; reflexivity.
  - pose proof (norms_are_widths L (a :: r) l_side Hlen) as Hnorms.
    destruct (np_sub (np_array (a :: r)) (np_array l_side)) as [v | e | ];
      cbn [bind] in Hnorms |- *;
      try (discriminate Hnorms; discriminate); try (now discriminate Hnorms).
    rewrite Hnorms by discriminate. cbn [bind]. fold ws.
    destruct l_side as [ | b l ]; [ discriminate Hlen | ].
    subst ws. unfold widths. cbn [combine map]. split; reflexivity.
Qed.

(** X7.  The index selection does not depend on the order of its two
    arguments, in either copy: the norms are those of the differences of
    paired hits, and the norm of [a - b] is computed from the same squares as
    that of [b - a]. *)
Theorem get_max_approx_is_symmetric (L : Libm) (top_arr bottom_arr : list Pixel) :
  get_maximum.get_max_approx L top_arr bottom_arr
  = get_maximum.get_max_approx L bottom_arr top_arr /\
  YeadonModel.get_max_approx L top_arr bottom_arr
  = YeadonModel.get_max_approx L bottom_arr top_arr.
Proof.
  destruct (Nat.eq_dec (length top_arr) (length bottom_arr)) as [Hlen | Hlen].
  - destruct (get_max_approx_on_equal_lengths L top_arr bottom_arr Hlen)
      as [F N].
    destruct (get_max_approx_on_equal_lengths L bottom_arr top_arr (eq_sym Hlen))
      as [F' N'].
    rewrite F, N, F', N', (widths_sym L top_arr bottom_arr). split; reflexivity.
  - unfold get_maximum.get_max_approx, YeadonModel.get_max_approx.
    rewrite (Nat.eqb_sym (length bottom_arr)).
    apply Nat.eqb_neq in Hlen. rewrite Hlen. split; reflexivity.
Qed.

Lemma free_loop_range (norms0 : Q) (norms : list Q) : forall i m s,
  let r := get_maximum.get_max_approx_loop norms0 norms i m s in
  r = s \/ (i <= r < i + length norms)%nat.
Proof.
  induction norms as [ | n rest IH ]; intros i m s; [ now left | ].
  cbn [get_maximum.get_max_approx_loop length].
  destruct (Qlt_bool m n).
  - destruct (Qlt_bool (norms0 * 1.5) n); [ now left | ].
    destruct (IH (S i) n i) as [E | E]; right; cbn zeta in E; lia.
  - destruct (IH (S i) m s) as [E | E]; [ now left | right; cbn zeta in E; lia ].
Qed.

Lemma nested_loop_range (norms : list Q) : forall i m s,
  let r := YeadonModel.get_max_approx_loop norms i m s in
  r = s \/ (i <= r < i + length norms)%nat.
Proof.
  induction norms as [ | n rest IH ]; intros i m s; [ now left | ].
  cbn [YeadonModel.get_max_approx_loop length].
  destruct (Qlt_bool m n).
  - destruct (IH (S i) n i) as [E | E]; right; cbn zeta in E; lia.
  - destruct (IH (S i) m s) as [E | E]; [ now left | right; cbn zeta in E; lia ].
Qed.

Lemma nth_firstn_lt (A : Type) (l : list A) (d : A) : forall stop j,
  (j < stop)%nat -> nth j (firstn stop l) d = nth j l d.
Proof.
  induction l as [ | a l IH ]; intros stop j Hj.
  - now rewrite firstn_nil.
  - destruct stop as [ | stop ]; [ lia | ].
    destruct j as [ | j ]; [ reflexivity | ].
    cbn [firstn nth]. apply IH. lia.
Qed.

(** X8.  The free [get_max_approx] never selects a sample whose width
    exceeds one and a half times the width of the first sample; the index it
    returns is valid for both sides, and every earlier sample is strictly
    narrower than the selected one. *)
Theorem free_get_max_approx_stays_under_the_bound
    (L : Libm) (top_arr bottom_arr : list Pixel) (i : nat) :
  (forall q, 0 <= np_sqrt L q) ->
  get_maximum.get_max_approx L top_arr bottom_arr = Ok (Some i) ->
  let ws := widths L top_arr bottom_arr in
  (i < length top_arr)%nat /\ length top_arr = length bottom_arr /\
  nth i ws 0 <= nth 0 ws 0 * 1.5 /\
  (forall j, (j < i)%nat -> nth j ws 0 < nth i ws 0).
Proof.
  intros Hsqrt H ws.
  destruct (Nat.eq_dec (length top_arr) (length bottom_arr)) as [Hlen | Hlen].
  2:{ unfold get_maximum.get_max_approx in H.
      apply Nat.eqb_neq in Hlen. rewrite Hlen in H. discriminate H. }
  destruct (get_max_approx_on_equal_lengths L top_arr bottom_arr Hlen) as [F _].
  rewrite F in H. fold ws in H.
  assert (Hne : ws <> []) by (intros E; rewrite E in H; discriminate H).
  assert (Hidx : get_maximum.get_max_approx_loop (nth 0 ws 0) ws 0 (nth 0 ws 0) 0
                 = i).
  { destruct ws as [ | w0 rest ]; [ congruence | ]. cbn [nth]. congruence. }
  destruct (free_index_first_max ws Hne (widths_nonneg L top_arr bottom_arr Hsqrt))
    as (stop & (Hstop & Hbelow & _) & (Hi & _ & Hbefore)).
  rewrite Hidx in Hi, Hbefore. rewrite length_firstn in Hi.
  assert (Hlenws : length ws = length top_arr) by now apply widths_length.
  split; [ lia | ]. split; [ exact Hlen | ]. split.
  - apply Hbelow. lia.
  - intros j Hj. specialize (Hbefore j Hj).
    rewrite !nth_firstn_lt in Hbefore by lia. exact Hbefore.
Qed.

Lemma free_get_max_approx_stays_under_the_bound_witness :
  nth 0 (widths Approx.libm [(0, 0); (0, 0)]%Z [(1, 0); (2, 0)]%Z) 0
  <= nth 0 (widths Approx.libm [(0, 0); (0, 0)]%Z [(1, 0); (2, 0)]%Z) 0 * 1.5.
Proof.
  destruct (free_get_max_approx_stays_under_the_bound Approx.libm
              [(0, 0); (0, 0)]%Z [(1, 0); (2, 0)]%Z 0 approx_sqrt_nonneg)
    as (_ & _ & H & _).
  - vm_compute. reflexivity.
  - exact H.
Defined.

(** ** The extremum search: termination *)

Lemma index_reversed_sample (p1 p2 : Point2D) (i : nat) :
  (i < 100)%nat ->
  get_maximum.index_reversed (get_maximum.sample_points p1 p2) (Some i)
  = Ok (snd (nth i (get_maximum.sample_points p1 p2) (0, 0)),
        fst (nth i (get_maximum.sample_points p1 p2) (0, 0))).
Proof.
  intros Hi. unfold get_maximum.index_reversed.
  rewrite (index_nth Point2D _ i (0, 0))
    by (now rewrite sample_points_length).
  reflexivity.
Qed.

(** The three ways an extremum search ends. *)
Lemma maximum_point_ends (L : Libm) (fuel : nat) (start end_ : Point2D)
    (edges : Raster) (r_side l_side : list Pixel) :
  let p1 := (snd start, fst start) in
  let p2 := (snd end_, fst end_) in
  let result := get_maximum.sample_points p1 p2 in
  get_maximum.get_maximum_range L fuel (get_maximum.vector_angle_plus L p1 p2)
    result edges = Ok r_side ->
  get_maximum.get_maximum_range L fuel (get_maximum.vector_angle_minus L p1 p2)
    result edges = Ok l_side ->
  (length r_side <> length l_side /\
   get_maximum.get_maximum_point L fuel start end_ edges = Raise TypeError /\
   YeadonModel._get_maximum_point L fuel start end_ edges = Raise TypeError) \/
  (r_side = [] /\ l_side = [] /\
   get_maximum.get_maximum_point L fuel start end_ edges = Raise AxisError /\
   YeadonModel._get_maximum_point L fuel start end_ edges = Raise AxisError) \/
  (length r_side = length l_side /\ r_side <> [] /\
   (exists i, (i < length r_side)%nat /\
      get_maximum.get_maximum_point L fuel start end_ edges =
      Ok (snd (nth i result (0, 0)), fst (nth i result (0, 0)))) /\
   (exists i, (i < length r_side)%nat /\
      YeadonModel._get_maximum_point L fuel start end_ edges =
      Ok (snd (nth i result (0, 0)), fst (nth i result (0, 0))))).
Proof.
  intros p1 p2 result Hr Hl.
  destruct (maximum_point_from_parts L fuel start end_ edges r_side l_side Hr Hl)
    as [F N]. fold p1 p2 result in F, N.
  pose proof (range_length_le L fuel _ edges _ r_side Hr) as Hle.
  unfold result in Hle. rewrite sample_points_length in Hle.
  destruct (Nat.eq_dec (length r_side) (length l_side)) as [Hlen | Hlen].
  - right.
    destruct (get_max_approx_on_equal_lengths L r_side l_side Hlen) as [F' N'].
    pose proof (widths_length L r_side l_side Hlen) as Hws.
    destruct (widths L r_side l_side) as [ | w0 ws ] eqn:E.
    + left. destruct r_side; [ | discriminate Hws ].
      destruct l_side; [ | discriminate Hlen ].
      rewrite F, N, F', N'. repeat split; reflexivity.
    + right. split; [ exact Hlen | ].
      split; [ intros ->; discriminate Hws | ].
      rewrite F, N, F', N'. cbn [bind].
      assert (Hf : (get_maximum.get_max_approx_loop w0 (w0 :: ws) 0 w0 0
                    < length r_side)%nat).
      { destruct (free_loop_range w0 (w0 :: ws) 0 w0 0) as [-> | H];
          cbn zeta in *; cbn [length] in *; lia. }
      assert (Hn : (YeadonModel.get_max_approx_loop (w0 :: ws) 0 0 0
                    < length r_side)%nat).
      { destruct (nested_loop_range (w0 :: ws) 0 0 0) as [-> | H];
          cbn zeta in *; cbn [length] in *; lia. }
      split; eexists; (split; [ | apply index_reversed_sample; lia ]);
        assumption.
  - left. split; [ exact Hlen | ].
    unfold get_maximum.get_max_approx, YeadonModel.get_max_approx in F, N.
    apply Nat.eqb_neq in Hlen. rewrite Hlen in F, N. split; assumption.
Qed.

(** X9.  The extremum search terminates: when the two perpendicular
    directions are not degenerate (sine and cosine not both zero), there is
    an amount of fuel from which on [get_maximum_point], in either copy,
    ends in one of three ways: it returns one of its 100 sample points, as
    (x, y); or it raises the TypeError of sides of different lengths; or it
    raises numpy's AxisError of two empty sides, which is an instance of
    ValueError and of IndexError as well.  No other exception leaves the
    function. *)
Theorem extremum_search_terminates
    (L : Libm) (start end_ : Point2D) (edges : Raster) :
  let p1 := (snd start, fst start) in
  let p2 := (snd end_, fst end_) in
  let result := get_maximum.sample_points p1 p2 in
  ~ (np_sin L (get_maximum.vector_angle_plus L p1 p2) == 0 /\
     np_cos L (get_maximum.vector_angle_plus L p1 p2) == 0) ->
  ~ (np_sin L (get_maximum.vector_angle_minus L p1 p2) == 0 /\
     np_cos L (get_maximum.vector_angle_minus L p1 p2) == 0) ->
  exists n, forall fuel, (n < fuel)%nat ->
    ((exists i, (i < 100)%nat /\
        get_maximum.get_maximum_point L fuel start end_ edges =
        Ok (snd (nth i result (0, 0)), fst (nth i result (0, 0)))) \/
     get_maximum.get_maximum_point L fuel start end_ edges = Raise TypeError \/
     get_maximum.get_maximum_point L fuel start end_ edges = Raise AxisError) /\
    ((exists i, (i < 100)%nat /\
        YeadonModel._get_maximum_point L fuel start end_ edges =
        Ok (snd (nth i result (0, 0)), fst (nth i result (0, 0)))) \/
     YeadonModel._get_maximum_point L fuel start end_ edges = Raise TypeError \/
     YeadonModel._get_maximum_point L fuel start end_ edges = Raise AxisError) /\
    is_instance AxisError ValueError = true /\
    is_instance AxisError IndexError = true.
Proof.
  intros p1 p2 result Hplus Hminus.
  destruct (range_terminates L _ edges result Hplus) as [n1 H1].
  destruct (range_terminates L _ edges result Hminus) as [n2 H2].
  exists (n1 + n2)%nat. intros fuel Hfuel.
  rewrite <- and_assoc. split; [ | split; reflexivity ].
  destruct (H1 fuel) as [r_side Hr]; [ lia | ].
  destruct (H2 fuel) as [l_side Hl]; [ lia | ].
  pose proof (range_length_le L fuel _ edges _ r_side Hr) as Hle.
  unfold result in Hle. rewrite sample_points_length in Hle.
  destruct (maximum_point_ends L fuel start end_ edges r_side l_side Hr Hl)
    as [(_ & F & N) | [(_ & _ & F & N) | (_ & _ & (i & Hi & F) & (j & Hj & N))]].
  - split; right; left; assumption.
  - split; right; right; assumption.
  - split; left; [ exists i | exists j ]; (split; [ lia | assumption ]).
Qed.

Lemma extremum_search_terminates_witness :
  exists n, forall fuel, (n < fuel)%nat ->
    (exists i, (i < 100)%nat /\
       get_maximum.get_maximum_point Approx.libm fuel (2.5, 0.01) (2.5, 1)
         Examples.taper =
       Ok (snd (nth i (get_maximum.sample_points (0.01, 2.5) (1, 2.5)) (0, 0)),
           fst (nth i (get_maximum.sample_points (0.01, 2.5) (1, 2.5)) (0, 0)))) \/
    get_maximum.get_maximum_point Approx.libm fuel (2.5, 0.01) (2.5, 1)
      Examples.taper = Raise TypeError \/
    get_maximum.get_maximum_point Approx.libm fuel (2.5, 0.01) (2.5, 1)
      Examples.taper = Raise AxisError.
Proof.
  destruct (extremum_search_terminates Approx.libm (2.5, 0.01) (2.5, 1)
              Examples.taper) as [n Hn].
  - apply direction_by_sine. vm_compute. reflexivity.
  - apply direction_by_sine. vm_compute. reflexivity.
  - exists n. intros fuel Hfuel. exact (proj1 (Hn fuel Hfuel)).
Defined.

(** X10.  On a raster without boundary pixel the extremum search ends in an
    AxisError, in either copy: every ray leaves the raster, both sides are
    empty, [np.array([]) - np.array([])] has one dimension and
    [np.linalg.norm(..., axis=1)] rejects it. *)
Theorem extremum_search_without_boundary
    (L : Libm) (start end_ : Point2D) (edges : Raster) :
  let p1 := (snd start, fst start) in
  let p2 := (snd end_, fst end_) in
  no_boundary edges ->
  ~ (np_sin L (get_maximum.vector_angle_plus L p1 p2) == 0 /\
     np_cos L (get_maximum.vector_angle_plus L p1 p2) == 0) ->
  ~ (np_sin L (get_maximum.vector_angle_minus L p1 p2) == 0 /\
     np_cos L (get_maximum.vector_angle_minus L p1 p2) == 0) ->
  exists n, forall fuel, (n < fuel)%nat ->
    get_maximum.get_maximum_point L fuel start end_ edges = Raise AxisError /\
    YeadonModel._get_maximum_point L fuel start end_ edges = Raise AxisError.
Proof.
  intros p1 p2 Hblank Hplus Hminus.
  destruct (range_terminates L _ edges (get_maximum.sample_points p1 p2) Hplus)
    as [n1 H1].
  destruct (range_terminates L _ edges (get_maximum.sample_points p1 p2) Hminus)
    as [n2 H2].
  exists (n1 + n2)%nat. intros fuel Hfuel.
  destruct (H1 fuel) as [r_side Hr]; [ lia | ].
  destruct (H2 fuel) as [l_side Hl]; [ lia | ].
  pose proof (blank_range L fuel _ edges _ r_side Hblank Hr) as Er.
  pose proof (blank_range L fuel _ edges _ l_side Hblank Hl) as El.
  destruct (maximum_point_ends L fuel start end_ edges r_side l_side Hr Hl)
    as [(Hlen & _) | [(_ & _ & F & N) | (_ & Hne & _)]].
  - subst. now elim Hlen.
  - split; assumption.
  - now elim Hne.
Qed.

Lemma extremum_search_without_boundary_witness :
  exists n, forall fuel, (n < fuel)%nat ->
    get_maximum.get_maximum_point Approx.libm fuel (0, 0) (0, 1)
      Examples.blank22 = Raise AxisError.
Proof.
  destruct (extremum_search_without_boundary Approx.libm (0, 0) (0, 1)
              Examples.blank22 blank22_no_boundary) as [n Hn].
  - apply direction_by_sine. vm_compute. reflexivity.
  - apply direction_by_sine. vm_compute. reflexivity.
  - exists n. intros fuel Hfuel. exact (proj1 (Hn fuel Hfuel)).
Defined.

(** ** The angular pit search: anchors from which it cannot return *)

(** When every ray from the anchor gives the same hit list, a climb that
    starts from that list never sees a smaller norm. *)
Lemma constant_climb (L : Libm) (edges : Raster) (point point2 : Point2D)
    (next : Q -> Q) (fuel : nat) (r : list Pixel) :
  (forall angle, find_edge L fuel point point2 angle edges = Ok r \/
                 find_edge L fuel point point2 angle edges = OutOfFuel) ->
  forall n angle,
    get_maximum.climb L fuel n next point point2 edges angle r = OutOfFuel.
Proof.
  intros Hrays. induction n as [ | n IH ]; intros angle; [ reflexivity | ].
  cbn [get_maximum.climb].
  destruct (Hrays (next angle)) as [H | H]; rewrite H; cbn [bind];
    [ | reflexivity ].
  rewrite Qlt_bool_irrefl. apply IH.
Qed.

Lemma constant_pit (L : Libm) (edges : Raster) (start : Point2D) (fuel : nat)
    (r : list Pixel) :
  (forall angle,
     find_edge L fuel (snd start, fst start) (snd start + 5, fst start) angle edges
     = Ok r \/
     find_edge L fuel (snd start, fst start) (snd start + 5, fst start) angle edges
     = OutOfFuel) ->
  get_maximum.get_maximum_pit L fuel start edges = OutOfFuel.
Proof.
  intros Hrays. unfold get_maximum.get_maximum_pit. cbn [fst snd].
  match goal with
  | |- context [find_edge L fuel ?p ?p2 ?a edges] =>
      destruct (Hrays a) as [H | H]; rewrite H
  end; cbn [bind]; [ | reflexivity ].
  rewrite constant_climb by exact Hrays. reflexivity.
Qed.

(** X11.  [get_maximum_pit] does not return when no ray can hit: on a raster
    without boundary pixel, whatever the anchor, and on any raster when the
    anchor truncates to a pixel outside it.  Every ray is a miss, no miss has
    a smaller norm than the miss before it, and the first climb is still
    running when the fuel is spent, for every amount of fuel. *)
Theorem get_maximum_pit_without_a_hit
    (L : Libm) (start : Point2D) (edges : Raster) :
  no_boundary edges \/
  outside edges (py_int (snd start), py_int (fst start)) = true ->
  forall fuel, get_maximum.get_maximum_pit L fuel start edges = OutOfFuel.
Proof.
  intros H fuel. apply (constant_pit L edges start fuel []). intros angle.
  destruct H as [H | H].
  - now apply blank_ray.
  - destruct fuel as [ | fuel ]; [ now right | left ].
    now apply find_edge_outside.
Qed.

Lemma get_maximum_pit_without_a_hit_witness :
  get_maximum.get_maximum_pit Approx.libm 1000 (5, 5) Examples.frame
  = OutOfFuel /\
  get_maximum.get_maximum_pit Approx.libm 1000 (1, 1) Examples.blank22
  = OutOfFuel.
Proof.
  split.
  - apply (get_maximum_pit_without_a_hit Approx.libm (5, 5) Examples.frame).
    right. reflexivity.
  - apply (get_maximum_pit_without_a_hit Approx.libm (1, 1) Examples.blank22).
    left. exact blank22_no_boundary.
Defined.

(** X12.  [get_maximum_pit] does not return either when the anchor truncates
    to a boundary pixel: every ray stops in its first iteration with that
    pixel as its hit, all norms are equal, and no climb ever ends. *)
Theorem get_maximum_pit_from_a_boundary_pixel
    (L : Libm) (start : Point2D) (edges : Raster) :
  let px := (py_int (snd start), py_int (fst start)) in
  outside edges px = false -> on_boundary edges px = true ->
  forall fuel, get_maximum.get_maximum_pit L fuel start edges = OutOfFuel.
Proof.
  intros px Ho Hb fuel.
  apply (constant_pit L edges start fuel [(snd px, fst px)]). intros angle.
  destruct fuel as [ | fuel ]; [ now right | left ].
  now apply find_edge_on_boundary.
Qed.

Lemma get_maximum_pit_from_a_boundary_pixel_witness :
  get_maximum.get_maximum_pit Approx.libm 1000 (1.5, 9.5) Examples.pit_raster
  = OutOfFuel.
Proof.
  apply (get_maximum_pit_from_a_boundary_pixel Approx.libm (1.5, 9.5)
           Examples.pit_raster); reflexivity.
Defined.

(** ** The angular pit search: the unused difference of the last hits *)

Lemma pit_left_start :
  find_edge Approx.libm 800 (3, 1.5) (3 + 5, 1.5) 0 Examples.pit_left
  = Ok [(1, 9)%Z].
Proof. run_ray. Qed.

Lemma pit_left_up :
  get_maximum.climb Approx.libm 800 800 (fun a => a + 0.01)
    (3, 1.5) (3 + 5, 1.5) Examples.pit_left 0 [(1, 9)%Z]
  = Ok ([(1, 9)%Z], []).
Proof. run_climb. Qed.

Lemma pit_left_down :
  get_maximum.climb Approx.libm 800 800 (fun a => a - 0.01)
    (3, 1.5) (3 + 5, 1.5) Examples.pit_left 0 [(1, 9)%Z]
  = Ok ([(1, 9)%Z], [(0, 8)%Z]).
Proof. run_climb. Qed.

(** X13.  [get_maximum_pit] subtracts the last hit list of the increasing
    climb from that of the decreasing climb before it selects its result.
    When one of the two climbs ended on a miss and the other on a hit, the
    subtraction of an empty array and a one-row array raises a ValueError,
    and the function ends there, although the difference is used nowhere. *)
Theorem get_maximum_pit_fails_on_one_last_miss
    (L : Libm) (fuel : nat) (start : Point2D) (edges : Raster)
    (max_save max_save_right max_last_right max_save_left max_last_left
       : list Pixel) :
  let point := (snd start, fst start) in
  let point2 := (fst point + 5, snd point) in
  let angle_radians :=
    np_arctan2 L (snd point2 - snd point) (fst point2 - fst point) in
  find_edge L fuel point point2 angle_radians edges = Ok max_save ->
  get_maximum.climb L fuel fuel (fun a => a + 0.01) point point2 edges
    angle_radians max_save = Ok (max_save_right, max_last_right) ->
  get_maximum.climb L fuel fuel (fun a => a - 0.01) point point2 edges
    angle_radians max_save = Ok (max_save_left, max_last_left) ->
  (max_last_right = [] /\ max_last_left <> []) \/
  (max_last_right <> [] /\ max_last_left = []) ->
  get_maximum.get_maximum_pit L fuel start edges = Raise ValueError.
Proof.
  intros point point2 angle_radians H0 Hup Hdown Hmiss.
  subst point point2 angle_radians.
  unfold get_maximum.get_maximum_pit. cbn [fst snd] in *.
  rewrite H0. cbn [bind]. rewrite Hup. cbn [bind]. rewrite Hdown. cbn [bind].
  destruct Hmiss as [[-> Hl] | [Hr ->]].
  - destruct max_last_left; [ congruence | reflexivity ].
  - destruct max_last_right; [ congruence | reflexivity ].
Qed.

Lemma get_maximum_pit_fails_on_one_last_miss_witness :
  get_maximum.get_maximum_pit Approx.libm 800 (1.5, 3) Examples.pit_left
  = Raise ValueError.
Proof.
  apply (get_maximum_pit_fails_on_one_last_miss Approx.libm 800 (1.5, 3)
           Examples.pit_left [(1, 9)%Z] [(1, 9)%Z] [] [(1, 9)%Z] [(0, 8)%Z]).
  - exact pit_left_start.
  - exact pit_left_up.
  - exact pit_left_down.
  - left. split; [ reflexivity | discriminate ].
Defined.

(** ** The first match of [np.where] *)

Lemma filter_seq_head (g : nat -> bool) (len : nat) : forall s c rest,
  filter g (seq s len) = c :: rest ->
  (s <= c < s + len)%nat /\ g c = true /\
  forall c', (s <= c' < c)%nat -> g c' = false.
Proof.
  induction len as [ | len IH ]; intros s c rest H; [ discriminate H | ].
  cbn [seq filter] in H. destruct (g s) eqn:E.
  - inversion H; subst c. split; [ lia | ]. split; [ exact E | ].
    intros c' Hc'. lia.
  - destruct (IH (S s) c rest H) as (Hc & Hg & Hbefore).
    split; [ lia | ]. split; [ exact Hg | ].
    intros c' Hc'. destruct (Nat.eq_dec c' s) as [-> | Hne]; [ exact E | ].
    apply Hbefore. lia.
Qed.

Lemma flat_map_seq_head (f : nat -> list (nat * nat)) (len : nat) :
  forall s x rest,
    flat_map f (seq s len) = x :: rest ->
    exists r rest', (s <= r < s + len)%nat /\ f r = x :: rest' /\
                    forall r', (s <= r' < r)%nat -> f r' = [].
Proof.
  induction len as [ | len IH ]; intros s x rest H; [ discriminate H | ].
  cbn [seq flat_map] in H. destruct (f s) as [ | y l ] eqn:E.
  - destruct (IH (S s) x rest H) as (r & rest' & Hr & Hf & Hbefore).
    exists r, rest'. split; [ lia | ]. split; [ exact Hf | ].
    intros r' Hr'. destruct (Nat.eq_dec r' s) as [-> | Hne]; [ exact E | ].
    apply Hbefore. lia.
  - cbn [app] in H. inversion H; subst y.
    exists s, l. split; [ lia | ]. split; [ exact E | ].
    intros r' Hr'. lia.
Qed.

Lemma np_where_head (cond : Z -> bool) (img : Raster) (r c : nat)
    (rest : list (nat * nat)) :
  np_where cond img = (r, c) :: rest -> first_match cond img r c.
Proof.
  intros H. unfold np_where in H.
  destruct (flat_map_seq_head _ _ _ _ _ H) as (r0 & rest' & Hr0 & Hrow & Hrows).
  destruct (filter (fun c0 => cond (pixel img r0 c0)) (seq 0 (shape1 img)))
    as [ | c0 cs ] eqn:Hcols; [ discriminate Hrow | ].
  cbn [map] in Hrow. inversion Hrow; subst r0 c0.
  destruct (filter_seq_head _ _ _ _ _ Hcols) as (Hc & Hcond & Hbefore).
  split; [ lia | ]. split; [ lia | ]. split; [ exact Hcond | ].
  intros r' c' Hr' Hc' Hcond' [Hlt | [Heq Hlt]]; cbn [fst snd] in *.
  - assert (Hin : In (r', c') (map (fun c0 => (r', c0))
               (filter (fun c0 => cond (pixel img r' c0)) (seq 0 (shape1 img))))).
    { apply in_map. apply filter_In. split; [ apply in_seq; lia | exact Hcond' ]. }
    rewrite (Hrows r') in Hin by lia. destruct Hin.
  - subst r'. rewrite (Hbefore c') in Hcond' by lia. discriminate Hcond'.
Qed.

Lemma row_major_trichotomy (a b : nat * nat) :
  ~ row_major_lt a b -> ~ row_major_lt b a -> a = b.
Proof.
  destruct a as [r c], b as [r' c']. unfold row_major_lt. cbn [fst snd].
  intros H1 H2. assert (r = r') by lia. subst r'.
  assert (c = c') by lia. now subst c'.
Qed.

Lemma first_match_unique (cond : Z -> bool) (img : Raster) (r c r' c' : nat) :
  first_match cond img r c -> first_match cond img r' c' -> (r, c) = (r', c').
Proof.
  intros (Hr & Hc & Hcond & Hmin) (Hr' & Hc' & Hcond' & Hmin').
  apply row_major_trichotomy.
  - exact (Hmin' r c Hr Hc Hcond).
  - exact (Hmin r' c' Hr' Hc' Hcond').
Qed.

Lemma np_where_of_first_match (cond : Z -> bool) (img : Raster) (r c : nat) :
  first_match cond img r c -> exists rest, np_where cond img = (r, c) :: rest.
Proof.
  intros Hfirst.
  destruct (np_where cond img) as [ | [r0 c0] rest ] eqn:E.
  - destruct Hfirst as (Hr & Hc & Hcond & _).
    assert (Hin : In (r, c) (np_where cond img)) by (apply in_np_where; auto).
    rewrite E in Hin. destruct Hin.
  - exists rest. f_equal.
    exact (first_match_unique cond img r0 c0 r c (np_where_head _ _ _ _ _ E) Hfirst).
Qed.

(** ** The top of the head *)

(** X14.  [_find_top_of_head] returns [c, r] exactly when (r, c) is the first
    pixel of the raster in row-major order that is not zero: the topmost
    row that holds such a pixel, and in it the leftmost one; the result is
    (column, row). *)
Theorem top_of_head_is_the_first_nonzero_pixel (edges : Raster) (r c : nat) :
  YeadonModel._find_top_of_head edges = Ok (c, r) <->
  first_match YeadonModel.nonzero edges r c.
Proof.
  unfold YeadonModel._find_top_of_head. split.
  - destruct (np_where YeadonModel.nonzero edges) as [ | [r0 c0] rest ] eqn:E;
      [ discriminate | ].
    cbn. intros H. inversion H; subst r0 c0.
    exact (np_where_head _ _ _ _ _ E).
  - intros H. destruct (np_where_of_first_match _ _ _ _ H) as [rest ->].
    reflexivity.
Qed.

(** X15.  [_find_top_of_head] ends in an IndexError exactly when every pixel
    of the raster is zero (so also on a raster without rows or without
    columns), and in every other case it returns a position inside the
    raster. *)
Theorem top_of_head_fails_on_an_empty_raster (edges : Raster) :
  (YeadonModel._find_top_of_head edges = Raise IndexError <->
   forall r c, (r < shape0 edges)%nat -> (c < shape1 edges)%nat ->
               pixel edges r c = 0%Z) /\
  (YeadonModel._find_top_of_head edges = Raise IndexError \/
   exists r c, (r < shape0 edges)%nat /\ (c < shape1 edges)%nat /\
               YeadonModel._find_top_of_head edges = Ok (c, r)).
Proof.
  assert (Hnil : np_where YeadonModel.nonzero edges = [] <->
                 forall r c, (r < shape0 edges)%nat -> (c < shape1 edges)%nat ->
                             pixel edges r c = 0%Z).
  { rewrite np_where_nil. unfold YeadonModel.nonzero.
    split; intros H r c Hr Hc; specialize (H r c Hr Hc).
    - apply negb_false_iff in H. now apply Z.eqb_eq.
    - apply negb_false_iff. now apply Z.eqb_eq. }
  unfold YeadonModel._find_top_of_head.
  destruct (np_where YeadonModel.nonzero edges) as [ | [r0 c0] rest ] eqn:E.
  - split; [ | now left ]. split; [ intros _; now apply Hnil | reflexivity ].
  - split.
    + split; [ discriminate | ]. intros H. apply Hnil in H. discriminate H.
    + right. exists r0, c0.
      destruct (np_where_head _ _ _ _ _ E) as (Hr & Hc & _).
      split; [ exact Hr | ]. split; [ exact Hc | reflexivity ].
Qed.

(** ** The crop between two landmarks *)

Lemma sorted_pair_sym (a c : Z) :
  (if (a >? c)%Z then (c, a) else (a, c)) =
  (if (c >? a)%Z then (a, c) else (c, a)).
Proof.
  rewrite !Z.gtb_ltb.
  destruct (Z.ltb_spec c a), (Z.ltb_spec a c); try lia; try reflexivity.
  assert (a = c) by lia. now subst.
Qed.

Lemma slice_index_le (len : nat) (i : Z) : (slice_index len i <= len)%nat.
Proof.
  unfold slice_index. destruct (Z.ltb_spec i 0); lia.
Qed.

Lemma slice_index_inside (len : nat) (i : Z) :
  (0 <= i <= Z.of_nat len)%Z -> slice_index len i = Z.to_nat i.
Proof.
  intros H. unfold slice_index. destruct (Z.ltb_spec i 0); [ lia | ].
  f_equal. lia.
Qed.

(** X16.  [crop] does not depend on the order of its two corner positions,
    and the crop is never larger than the image, in either direction. *)
Theorem crop_ignores_the_order_of_the_corners
    (image : Raster) (position_1 position_2 : Point2D) :
  YeadonModel.crop image position_1 position_2
  = YeadonModel.crop image position_2 position_1 /\
  (shape0 (YeadonModel.crop image position_1 position_2) <= shape0 image)%nat /\
  (shape1 (YeadonModel.crop image position_1 position_2) <= shape1 image)%nat.
Proof.
  unfold YeadonModel.crop. cbv beta iota zeta.
  rewrite (sorted_pair_sym (py_int (fst position_1)) (py_int (fst position_2))).
  rewrite (sorted_pair_sym (py_int (snd position_1)) (py_int (snd position_2))).
  split; [ reflexivity | ].
  destruct (py_int (fst position_2) >? py_int (fst position_1))%Z;
    destruct (py_int (snd position_2) >? py_int (snd position_1))%Z;
    cbn [np_slice2 shape0 shape1];
    match goal with
    | |- (slice_index ?n ?a - _ <= _)%nat /\ (slice_index ?m ?b - _ <= _)%nat =>
        pose proof (slice_index_le n a); pose proof (slice_index_le m b); lia
    end.
Qed.

(** X17.  When both corners truncate to positions inside the image (the
    far edges included), the crop is the rectangle between them: its first
    row and column are the smaller row and column of the corners, its height
    and width are the differences, and the larger row and column are left
    out. *)
Theorem crop_is_the_rectangle_between_the_corners
    (image : Raster) (position_1 position_2 : Point2D) :
  let x1 := py_int (fst position_1) in
  let y1 := py_int (snd position_1) in
  let x2 := py_int (fst position_2) in
  let y2 := py_int (snd position_2) in
  (0 <= x1 <= Z.of_nat (shape1 image))%Z ->
  (0 <= x2 <= Z.of_nat (shape1 image))%Z ->
  (0 <= y1 <= Z.of_nat (shape0 image))%Z ->
  (0 <= y2 <= Z.of_nat (shape0 image))%Z ->
  shape0 (YeadonModel.crop image position_1 position_2)
  = Z.to_nat (Z.abs (y1 - y2)) /\
  shape1 (YeadonModel.crop image position_1 position_2)
  = Z.to_nat (Z.abs (x1 - x2)) /\
  forall r c,
    pixel (YeadonModel.crop image position_1 position_2) r c
    = pixel image (Z.to_nat (Z.min y1 y2) + r) (Z.to_nat (Z.min x1 x2) + c).
Proof.
  intros x1 y1 x2 y2 Hx1 Hx2 Hy1 Hy2.
  unfold YeadonModel.crop. cbv beta iota zeta. fold x1 y1 x2 y2.
  rewrite !Z.gtb_ltb.
  destruct (Z.ltb_spec x2 x1); destruct (Z.ltb_spec y2 y1);
    cbn [np_slice2 shape0 shape1 pixel];
    rewrite !slice_index_inside by lia;
    (split; [ lia | split; [ lia | ] ]); intros r c; f_equal; lia.
Qed.

Lemma crop_is_the_rectangle_between_the_corners_witness :
  shape0 (YeadonModel.crop Examples.corners (3.5, 4) (1.2, 2.9)) = 2%nat /\
  shape1 (YeadonModel.crop Examples.corners (3.5, 4) (1.2, 2.9)) = 2%nat /\
  pixel (YeadonModel.crop Examples.corners (3.5, 4) (1.2, 2.9)) 1 1 = 255%Z.
Proof.
  destruct (crop_is_the_rectangle_between_the_corners Examples.corners
              (3.5, 4) (1.2, 2.9)) as (H0 & H1 & Hpx);
    try (vm_compute; split; discriminate).
  split; [ exact H0 | ]. split; [ exact H1 | ]. rewrite Hpx. reflexivity.
Defined.

(** ** The acromion searches *)

Lemma masked_first_match (img : Raster) (r c : nat) (rest : list (nat * nat)) :
  np_where YeadonModel.is_255
    (zero_cols_before (Nat.div (shape1 img) 2)
       (zero_rows_before (Nat.div (shape0 img) 2) img)) = (r, c) :: rest ->
  first_in_far_quadrant img r c.
Proof.
  intros H. apply np_where_head in H.
  destruct H as (Hr & Hc & Hcond & Hmin).
  cbn [zero_cols_before zero_rows_before shape0 shape1 pixel] in *.
  unfold YeadonModel.is_255 in *.
  split.
  - destruct (Nat.ltb_spec c (Nat.div (shape1 img) 2)); [ discriminate Hcond | ].
    destruct (Nat.ltb_spec r (Nat.div (shape0 img) 2)); [ discriminate Hcond | ].
    apply Z.eqb_eq in Hcond. repeat split; assumption.
  - intros r' c' ((Hr1 & Hr2) & (Hc1 & Hc2) & Hpx). apply Hmin; try assumption.
    destruct (Nat.ltb_spec c' (Nat.div (shape1 img) 2)); [ lia | ].
    destruct (Nat.ltb_spec r' (Nat.div (shape0 img) 2)); [ lia | ].
    apply Z.eqb_eq. exact Hpx.
Qed.

Lemma acromion_search (A : Type) (edges : Raster) (ear shoulder : Point2D)
    (k : nat -> nat -> A) (a : A) :
  (w <- YeadonModel.len_row0
          (zero_rows_before
             (Nat.div (shape0 (YeadonModel.crop edges ear shoulder)) 2)
             (YeadonModel.crop edges ear shoulder)) ;;
   c <- index (where_cols
                 (np_where YeadonModel.is_255
                    (zero_cols_before (Nat.div w 2)
                       (zero_rows_before
                          (Nat.div (shape0 (YeadonModel.crop edges ear shoulder)) 2)
                          (YeadonModel.crop edges ear shoulder))))) 0 ;;
   r <- index (where_rows
                 (np_where YeadonModel.is_255
                    (zero_cols_before (Nat.div w 2)
                       (zero_rows_before
                          (Nat.div (shape0 (YeadonModel.crop edges ear shoulder)) 2)
                          (YeadonModel.crop edges ear shoulder))))) 0 ;;
   Ok (k c r)) = Ok a ->
  exists r c, first_in_far_quadrant (YeadonModel.crop edges ear shoulder) r c /\
              a = k c r.
Proof.
  unfold YeadonModel.len_row0. cbn [zero_rows_before shape0 shape1].
  destruct (Nat.eqb _ 0); [ discriminate | ]. cbn [bind].
  destruct (np_where _ _) as [ | [r c] rest ] eqn:E; [ discriminate | ].
  cbn. intros H. inversion H. exists r, c. split; [ | reflexivity ].
  exact (masked_first_match _ r c rest E).
Qed.

(** X18.  When an acromion search returns, it has found the first boundary
    pixel, in row-major order, of the quadrant of the crop between ear and
    shoulder that holds the rows from half the height and the columns from
    half the width on.  With (r, c) the position of that pixel in the crop,
    the right search returns [(ear_x - c, ear_y + r)] and the left search
    [(ear_x + c, ear_y + r)]. *)
Theorem acromion_is_the_first_boundary_pixel_of_the_far_quadrant
    (left : bool) (edges : Raster) (data : nat -> Point2D) (p : Point2D) :
  let ear := data (if left then 3 else 4)%nat in
  let shoulder := data (if left then 5 else 6)%nat in
  (if left then YeadonModel._find_acromion_left edges data
   else YeadonModel._find_acromion_right edges data) = Ok p ->
  exists r c,
    first_in_far_quadrant (YeadonModel.crop edges ear shoulder) r c /\
    p = (if left then fst ear + inject_Z (Z.of_nat c)
         else fst ear - inject_Z (Z.of_nat c),
         snd ear + inject_Z (Z.of_nat r)).
Proof.
  intros ear shoulder H. destruct left; subst ear shoulder.
  - unfold YeadonModel._find_acromion_left in H. cbv beta iota zeta in H.
    exact (acromion_search Point2D edges (data 3%nat) (data 5%nat)
             (fun c r => (fst (data 3%nat) + inject_Z (Z.of_nat c),
                          snd (data 3%nat) + inject_Z (Z.of_nat r))) p H).
  - unfold YeadonModel._find_acromion_right in H. cbv beta iota zeta in H.
    exact (acromion_search Point2D edges (data 4%nat) (data 6%nat)
             (fun c r => (fst (data 4%nat) - inject_Z (Z.of_nat c),
                          snd (data 4%nat) + inject_Z (Z.of_nat r))) p H).
Qed.

Lemma acromion_is_the_first_boundary_pixel_of_the_far_quadrant_witness :
  exists r c,
    first_in_far_quadrant (YeadonModel.crop Examples.corners (0, 0) (4, 4)) r c /\
    (0 - 2, 0 + 3) = (0 - inject_Z (Z.of_nat c), 0 + inject_Z (Z.of_nat r)).
Proof.
  apply (acromion_is_the_first_boundary_pixel_of_the_far_quadrant false
           Examples.corners (fun i => if Nat.eqb i 4 then (0, 0) else (4, 4))
           (0 - 2, 0 + 3)).
  reflexivity.
Defined.

(** ** The crotch *)

(** X19.  [_get_crotch_right_left] ends in an IndexError exactly when the
    crop between the right hip and the left knee holds fewer than two pixels
    that are not zero: it reads the column of the first and the row of the
    second. *)
Theorem crotch_needs_two_nonzero_pixels
    (edges : Raster) (data : nat -> Point2D) :
  (length (np_where YeadonModel.nonzero
             (YeadonModel.crop edges (data 12%nat) (data 13%nat))) < 2)%nat <->
  YeadonModel._get_crotch_right_left edges data = Raise IndexError.
Proof.
  unfold YeadonModel._get_crotch_right_left. cbv zeta.
  destruct (np_where _ _) as [ | [r0 c0] [ | [r1 c1] rest ] ]; cbn.
  - split; [ reflexivity | lia ].
  - split; [ reflexivity | lia ].
  - split; [ lia | discriminate ].
Qed.

(** X20.  When [_get_crotch_right_left] returns, both points carry the same
    vertical offset: the right crotch is the right hip (keypoint 12) and the
    left crotch the left hip (keypoint 11), each moved down by the row, in
    the crop, of the second pixel in row-major order that is not zero.  That
    row is not above the first such pixel and lies inside the crop; the
    column read from the first pixel is not used. *)
Theorem crotch_points_share_one_offset
    (edges : Raster) (data : nat -> Point2D) (right_crotch left_crotch : Point2D) :
  let zone := YeadonModel.crop edges (data 12%nat) (data 13%nat) in
  YeadonModel._get_crotch_right_left edges data = Ok (right_crotch, left_crotch) ->
  exists r0 c0 r1 c1 rest,
    np_where YeadonModel.nonzero zone = (r0, c0) :: (r1, c1) :: rest /\
    first_match YeadonModel.nonzero zone r0 c0 /\
    (r0 <= r1 < shape0 zone)%nat /\ pixel zone r1 c1 <> 0%Z /\
    right_crotch
    = (fst (data 12%nat), snd (data 12%nat) + inject_Z (Z.of_nat r1)) /\
    left_crotch
    = (fst (data 11%nat), snd (data 11%nat) + inject_Z (Z.of_nat r1)).
Proof.
  intros zone. unfold YeadonModel._get_crotch_right_left. cbv zeta. fold zone.
  destruct (np_where YeadonModel.nonzero zone)
    as [ | [r0 c0] [ | [r1 c1] rest ] ] eqn:E;
    cbn [bind index nth_error where_cols where_rows map fst snd];
    try discriminate.
  intros H. inversion H. exists r0, c0, r1, c1, rest.
  pose proof (np_where_head _ _ _ _ _ E) as Hfirst.
  assert (Hin : In (r1, c1) (np_where YeadonModel.nonzero zone))
    by (rewrite E; right; now left).
  apply in_np_where in Hin. destruct Hin as (Hr1 & Hc1 & Hcond).
  split; [ reflexivity | ]. split; [ exact Hfirst | ].
  split; [ | split; [ | split; reflexivity ] ].
  - destruct Hfirst as (_ & _ & _ & Hmin).
    specialize (Hmin r1 c1 Hr1 Hc1 Hcond). unfold row_major_lt in Hmin.
    cbn [fst snd] in Hmin. lia.
  - unfold YeadonModel.nonzero in Hcond. apply negb_true_iff in Hcond.
    now apply Z.eqb_neq.
Qed.

Lemma crotch_points_share_one_offset_witness :
  exists r0 c0 r1 c1 rest,
    np_where YeadonModel.nonzero
      (YeadonModel.crop Examples.corners (0, 0) (4, 4))
    = (r0, c0) :: (r1, c1) :: rest /\
    (r0 <= r1 < 4)%nat /\
    (0, 0 + 3) = (0, 0 + inject_Z (Z.of_nat r1)).
Proof.
  destruct (crotch_points_share_one_offset Examples.corners
              (fun i => if Nat.eqb i 13 then (4, 4) else (0, 0))
              (0, 0 + 3) (0, 0 + 3))
    as (r0 & c0 & r1 & c1 & rest & E & _ & Hr & _ & HR & _).
  - reflexivity.
  - exists r0, c0, r1, c1, rest. split; [ exact E | ].
    split; [ exact Hr | exact HR ].
Defined.

(** ** The thigh landmarks and the hip to crotch lengths *)

(** X21.  Composed with the crotch search, [_get_mid_thigh_right_left] puts
    the right mid-thigh halfway between the right knee (keypoint 14) and the
    shifted right hip, and the left mid-thigh halfway between the left knee
    (keypoint 13) and the shifted left hip: the horizontal coordinates are
    the means of the keypoints, and as the offset of the crotch is shared,
    the difference of the two heights does not depend on the raster. *)
Theorem mid_thighs_after_the_crotch
    (edges : Raster) (data : nat -> Point2D) (right_crotch left_crotch : Point2D) :
  YeadonModel._get_crotch_right_left edges data = Ok (right_crotch, left_crotch) ->
  let mid := YeadonModel._get_mid_thigh_right_left data right_crotch left_crotch in
  fst (fst mid) == (fst (data 14%nat) + fst (data 12%nat)) / 2 /\
  fst (snd mid) == (fst (data 13%nat) + fst (data 11%nat)) / 2 /\
  snd (fst mid) - snd (snd mid) ==
  ((snd (data 14%nat) + snd (data 12%nat))
   - (snd (data 13%nat) + snd (data 11%nat))) / 2.
Proof.
  unfold YeadonModel._get_crotch_right_left. cbv zeta.
  destruct (np_where _ _) as [ | [r0 c0] [ | [r1 c1] rest ] ];
    cbn [bind index nth_error where_cols where_rows map fst snd];
    try discriminate.
  intros H. inversion H; subst right_crotch left_crotch.
  unfold YeadonModel._get_mid_thigh_right_left, arr_div, arr_add.
  cbn [fst snd]. split; [ reflexivity | ]. split; [ reflexivity | ]. field.
Qed.

Lemma mid_thighs_after_the_crotch_witness :
  fst (fst (YeadonModel._get_mid_thigh_right_left
              (fun i => if Nat.eqb i 13 then (4, 4) else (0, 0))
              (0, 0 + 3) (0, 0 + 3)))
  == (fst (0, 0) + fst (0, 0)) / 2.
Proof.
  destruct (mid_thighs_after_the_crotch Examples.corners
              (fun i => if Nat.eqb i 13 then (4, 4) else (0, 0))
              (0, 0 + 3) (0, 0 + 3)) as (H & _).
  - reflexivity.
  - exact H.
Defined.

Lemma approx_sqrt_floor (q : Q) :
  Approx.sqrt q = Qred (Z.sqrt (Qfloor (q * inject_Z (10 ^ 30))) # 10 ^ 15).
Proof.
  unfold Approx.sqrt, Qfloor, Qmult, inject_Z. cbn [Qnum Qden].
  now rewrite Pos.mul_1_r.
Qed.

Lemma approx_sqrt_Qeq (a b : Q) :
  a == b -> np_sqrt Approx.libm a == np_sqrt Approx.libm b.
Proof.
  intros H. cbn [np_sqrt Approx.libm]. rewrite !approx_sqrt_floor.
  assert (E : Qfloor (a * inject_Z (10 ^ 30)) = Qfloor (b * inject_Z (10 ^ 30)))
    by (apply Qfloor_comp; now rewrite H).
  rewrite E. reflexivity.
Qed.

(** X22.  The hip to crotch lengths [Lj1L] and [Lk1L] of the two legs are
    equal: each crotch lies straight below its hip by the shared offset, so
    each length is the square root of the square of that offset (for a
    square root that gives equal results on equal numbers). *)
Theorem hip_to_crotch_lengths_agree
    (L : Libm) (edges : Raster) (data : nat -> Point2D)
    (right_crotch left_crotch : Point2D) :
  (forall a b, a == b -> np_sqrt L a == np_sqrt L b) ->
  YeadonModel._get_crotch_right_left edges data = Ok (right_crotch, left_crotch) ->
  YeadonModel.Lj1L L data left_crotch == YeadonModel.Lk1L L data right_crotch /\
  exists r : nat,
    YeadonModel.Lj1L L data left_crotch
    == np_sqrt L (inject_Z (Z.of_nat r) * inject_Z (Z.of_nat r)).
Proof.
  intros Hsqrt. unfold YeadonModel._get_crotch_right_left. cbv zeta.
  destruct (np_where _ _) as [ | [r0 c0] [ | [r1 c1] rest ] ];
    cbn [bind index nth_error where_cols where_rows map fst snd];
    try discriminate.
  intros H. inversion H; subst right_crotch left_crotch.
  unfold YeadonModel.Lj1L, YeadonModel.Lk1L, norm2, arr_sub. cbn [fst snd].
  split; [ apply Hsqrt; ring | ].
  exists r1. apply Hsqrt. ring.
Qed.

Lemma hip_to_crotch_lengths_agree_witness :
  YeadonModel.Lj1L Approx.libm
    (fun i => if Nat.eqb i 13 then (4, 4) else (0, 0)) (0, 0 + 3)
  == YeadonModel.Lk1L Approx.libm
       (fun i => if Nat.eqb i 13 then (4, 4) else (0, 0)) (0, 0 + 3).
Proof.
  destruct (hip_to_crotch_lengths_agree Approx.libm Examples.corners
              (fun i => if Nat.eqb i 13 then (4, 4) else (0, 0))
              (0, 0 + 3) (0, 0 + 3) approx_sqrt_Qeq) as (H & _).
  - reflexivity.
  - exact H.
Defined.

(** ** The landmarks computed from the keypoints *)

Lemma Qabs_scale (k x : Q) : 0 <= k -> Qabs (k * x) == k * Qabs x.
Proof.
  intros Hk. rewrite Qabs_Qmult. now rewrite (Qabs_pos k Hk).
Qed.

(** X23.  The trunk levels are not measured on the picture: [Ls1L],
    [Ls2L], [Ls3L] and [Ls4L] are computed from the heights of the left
    shoulder (keypoint 5) and the left hip (keypoint 11) alone, so two
    keypoint tables that agree on these two heights give the same four
    levels.  The lowest front rib is taken halfway between shoulder and hip
    and the nipple halfway between rib and shoulder, so the levels are
    ordered: [Ls2L <= Ls3L <= Ls4L]. *)
Theorem trunk_levels_come_from_shoulder_and_hip (data data' : nat -> Point2D) :
  snd (data 5%nat) = snd (data' 5%nat) ->
  snd (data 11%nat) = snd (data' 11%nat) ->
  YeadonModel.Ls1L data = YeadonModel.Ls1L data' /\
  YeadonModel.Ls2L data = YeadonModel.Ls2L data' /\
  YeadonModel.Ls3L data = YeadonModel.Ls3L data' /\
  YeadonModel.Ls4L data = YeadonModel.Ls4L data' /\
  YeadonModel.Ls2L data <= YeadonModel.Ls3L data /\
  YeadonModel.Ls3L data <= YeadonModel.Ls4L data.
Proof.
  intros Hs Hh.
  unfold YeadonModel.Ls1L, YeadonModel.Ls2L, YeadonModel.Ls3L, YeadonModel.Ls4L,
    YeadonModel.left_umbiculus, YeadonModel.left_nipple,
    YeadonModel.left_lowest_front_rib, arr_div, arr_add, arr_mul.
  cbn [fst snd]. rewrite <- Hs, <- Hh.
  split; [ reflexivity | ]. split; [ reflexivity | ].
  split; [ reflexivity | ]. split; [ reflexivity | ].
  set (s := snd (data 5%nat)). set (h := snd (data 11%nat)).
  assert (E2 : Qabs ((s + h) / 2 - h) == (1 # 2) * Qabs (s - h)).
  { rewrite <- Qabs_scale by discriminate. apply Qabs_wd. field. }
  assert (E3 : Qabs (((s + h) / 2 + s) / 2 - h) == (3 # 4) * Qabs (s - h)).
  { rewrite <- Qabs_scale by discriminate. apply Qabs_wd. field. }
  pose proof (Qabs_nonneg (s - h)) as Hpos.
  rewrite E2, E3. split; lra.
Qed.

Lemma trunk_levels_come_from_shoulder_and_hip_witness :
  YeadonModel.Ls1L (fun i => if Nat.eqb i 5 then (100, 101.25) else (90, 333.5))
  = YeadonModel.Ls1L (fun i => if Nat.eqb i 5 then (0, 101.25) else (7, 333.5)) /\
  YeadonModel.Ls2L (fun i => if Nat.eqb i 5 then (100, 101.25) else (90, 333.5))
  <= YeadonModel.Ls3L (fun i => if Nat.eqb i 5 then (100, 101.25) else (90, 333.5)).
Proof.
  destruct (trunk_levels_come_from_shoulder_and_hip
              (fun i => if Nat.eqb i 5 then (100, 101.25) else (90, 333.5))
              (fun i => if Nat.eqb i 5 then (0, 101.25) else (7, 333.5)))
    as (H1 & _ & _ & _ & H23 & _); try reflexivity.
  split; [ exact H1 | exact H23 ].
Defined.

(** X24.  Each of the four hand landmarks is the mean of three keypoints, the
    first three of its group of four in [hand_pos]: the keypoints 108, 129,
    110 and 131 are listed but never read. *)
Theorem hand_landmarks_skip_the_fourth_keypoint (data data' : nat -> Point2D) :
  (forall i, ~ In i [108; 129; 110; 131]%nat -> data i = data' i) ->
  YeadonModel.left_knuckles data = YeadonModel.left_knuckles data' /\
  YeadonModel.right_knuckles data = YeadonModel.right_knuckles data' /\
  YeadonModel.left_nails data = YeadonModel.left_nails data' /\
  YeadonModel.right_nails data = YeadonModel.right_nails data' /\
  fst (YeadonModel.left_knuckles data)
  == (fst (data 96%nat) + fst (data 100%nat) + fst (data 104%nat)) / 3 /\
  snd (YeadonModel.left_knuckles data)
  == (snd (data 96%nat) + snd (data 100%nat) + snd (data 104%nat)) / 3.
Proof.
  intros H.
  unfold YeadonModel.left_knuckles, YeadonModel.right_knuckles,
    YeadonModel.left_nails, YeadonModel.right_nails, YeadonModel.hand_part_pos,
    YeadonModel.hand_pos, py_slice.
  cbn [map skipn firstn Nat.sub].
  repeat (split; [ repeat (rewrite (H _)
                     by (cbn [In]; intros Hin; repeat destruct Hin as [Hin | Hin];
                         try discriminate Hin; exact Hin));
                   reflexivity | ]).
  unfold np_mean_axis0, arr_div, arr_add. cbn [fold_left length fst snd].
  split; field.
Qed.

Lemma hand_landmarks_skip_the_fourth_keypoint_witness :
  YeadonModel.left_knuckles (fun _ => (0, 0))
  = YeadonModel.left_knuckles (fun i => if Nat.eqb i 108 then (1, 1) else (0, 0)).
Proof.
  apply (hand_landmarks_skip_the_fourth_keypoint (fun _ => (0, 0))
           (fun i => if Nat.eqb i 108 then (1, 1) else (0, 0))).
  intros i Hi. destruct (Nat.eqb_spec i 108) as [-> | _]; [ | reflexivity ].
  elim Hi. now left.
Defined.

(** ** Resizing *)

Lemma py_int_bounds (q : Q) (n : Z) :
  0 <= q -> q <= inject_Z n -> (0 <= py_int q <= n)%Z.
Proof.
  intros H0 Hn. rewrite (py_int_nonneg q H0). split.
  - change 0%Z with (Qfloor 0). now apply Qfloor_resp_le.
  - rewrite <- (Qfloor_Z n). now apply Qfloor_resp_le.
Qed.

Lemma py_int_below_one (q : Q) : 0 <= q -> q < 1 -> py_int q = 0%Z.
Proof.
  intros H0 H1. rewrite (py_int_nonneg q H0).
  pose proof (Qfloor_le q) as Hle. pose proof (Qlt_floor q) as Hlt.
  assert (A : inject_Z (Qfloor q) < inject_Z 1) by (eapply Qle_lt_trans; eassumption).
  assert (B : inject_Z 0 < inject_Z (Qfloor q + 1))
    by (eapply Qle_lt_trans; [ exact H0 | exact Hlt ]).
  rewrite <- Zlt_Qlt in A, B. lia.
Qed.

Lemma ratio_times_size (k n : Z) :
  (0 < n)%Z -> inject_Z k / inject_Z n * inject_Z n == inject_Z k.
Proof.
  intros Hn. field. intros E.
  assert (H : inject_Z 0 < inject_Z n) by now rewrite <- Zlt_Qlt.
  rewrite E in H. now apply (Qlt_irrefl 0).
Qed.

Lemma inject_Z_pos (n : Z) : (0 < n)%Z -> 0 < inject_Z n.
Proof. intros H. change 0 with (inject_Z 0). now rewrite <- Zlt_Qlt. Qed.

Lemma ratio_ge_one (n : Z) :
  (0 < n)%Z ->
  (1 <= inject_Z YeadonModel.RESIZE_SIZE / inject_Z n <-> (n <= 600)%Z).
Proof.
  intros Hn. pose proof (inject_Z_pos n Hn) as Hpos. split; intros H.
  - apply (Qmult_le_compat_r _ _ (inject_Z n)) in H; [ | now apply Qlt_le_weak ].
    rewrite ratio_times_size in H by exact Hn. rewrite Qmult_1_l in H.
    now rewrite <- Zle_Qle in H.
  - apply Qle_shift_div_l; [ exact Hpos | ]. rewrite Qmult_1_l.
    now rewrite <- Zle_Qle.
Qed.

(** The smaller of the two ratios, as [_resize] takes it. *)
Lemma resize_min_ratio (height width : Z) :
  (0 < height)%Z -> (0 < width)%Z ->
  let x_ratio := inject_Z YeadonModel.RESIZE_SIZE / inject_Z height in
  let y_ratio := inject_Z YeadonModel.RESIZE_SIZE / inject_Z width in
  let min_ratio := if Qlt_bool y_ratio x_ratio then y_ratio else x_ratio in
  0 < min_ratio /\ min_ratio <= x_ratio /\ min_ratio <= y_ratio /\
  (min_ratio = x_ratio \/ min_ratio = y_ratio) /\
  min_ratio * inject_Z height <= 600 /\ min_ratio * inject_Z width <= 600.
Proof.
  intros Hh Hw x_ratio y_ratio min_ratio.
  pose proof (inject_Z_pos height Hh) as Hph.
  pose proof (inject_Z_pos width Hw) as Hpw.
  assert (Hx : 0 < x_ratio) by (apply Qlt_shift_div_l; [ exact Hph | reflexivity ]).
  assert (Hy : 0 < y_ratio) by (apply Qlt_shift_div_l; [ exact Hpw | reflexivity ]).
  assert (Hmin : min_ratio <= x_ratio /\ min_ratio <= y_ratio /\
                 (min_ratio = x_ratio \/ min_ratio = y_ratio)).
  { subst min_ratio. destruct (Qlt_bool y_ratio x_ratio) eqn:E.
    - apply Qlt_bool_iff in E. split; [ now apply Qlt_le_weak | ].
      split; [ apply Qle_refl | now right ].
    - apply Qlt_bool_false_iff in E. split; [ apply Qle_refl | ].
      split; [ exact E | now left ]. }
  destruct Hmin as (Hmx & Hmy & Hcase).
  split; [ destruct Hcase as [-> | ->]; assumption | ].
  split; [ exact Hmx | ]. split; [ exact Hmy | ]. split; [ exact Hcase | ].
  split.
  - apply Qle_trans with (x_ratio * inject_Z height).
    + apply Qmult_le_compat_r; [ exact Hmx | now apply Qlt_le_weak ].
    + unfold x_ratio. rewrite ratio_times_size by exact Hh. apply Qle_refl.
  - apply Qle_trans with (y_ratio * inject_Z width).
    + apply Qmult_le_compat_r; [ exact Hmy | now apply Qlt_le_weak ].
    + unfold y_ratio. rewrite ratio_times_size by exact Hw. apply Qle_refl.
Qed.

(** X25.  [_resize] copies an image exactly when neither side exceeds
    [RESIZE_SIZE] = 600; otherwise it asks for a size whose two sides lie
    between 0 and 600 and do not exceed the sides of the image: it never
    enlarges.  An image with a positive height and width raises no
    ZeroDivisionError. *)
Theorem resize_shrinks_into_the_limit (height width : Z) :
  (0 < height)%Z -> (0 < width)%Z ->
  (YeadonModel._resize height width = Some YeadonModel.Copy <->
   (height <= 600 /\ width <= 600)%Z) /\
  (YeadonModel._resize height width = Some YeadonModel.Copy \/
   exists new_width new_height,
     YeadonModel._resize height width
     = Some (YeadonModel.Resize (new_width, new_height)) /\
     (0 <= new_width <= 600)%Z /\ (0 <= new_height <= 600)%Z /\
     (new_width <= width)%Z /\ (new_height <= height)%Z).
Proof.
  intros Hh Hw.
  destruct (resize_min_ratio height width Hh Hw)
    as (Hpos & Hmx & Hmy & Hcase & Hmh & Hmw).
  pose proof (inject_Z_pos height Hh) as Hph.
  pose proof (inject_Z_pos width Hw) as Hpw.
  unfold YeadonModel._resize. cbv beta iota zeta.
  destruct (Z.eqb_spec height 0) as [E | _]; [ lia | ].
  destruct (Z.eqb_spec width 0) as [E | _]; [ lia | ]. cbn [orb].
  set (x_ratio := inject_Z YeadonModel.RESIZE_SIZE / inject_Z height) in *.
  set (y_ratio := inject_Z YeadonModel.RESIZE_SIZE / inject_Z width) in *.
  set (min_ratio := if Qlt_bool y_ratio x_ratio then y_ratio else x_ratio) in *.
  destruct (Qle_bool 1 min_ratio) eqn:Hcopy.
  - apply Qle_bool_iff in Hcopy. split; [ | now left ].
    split; [ intros _ | reflexivity ]. split.
    + apply (ratio_ge_one height Hh). now apply Qle_trans with min_ratio.
    + apply (ratio_ge_one width Hw). now apply Qle_trans with min_ratio.
  - assert (Hlt : min_ratio < 1).
    { apply Qnot_le_lt. intros H. apply Qle_bool_iff in H. congruence. }
    split.
    + split; [ discriminate | ]. intros [H1 H2].
      apply (ratio_ge_one height Hh) in H1. apply (ratio_ge_one width Hw) in H2.
      fold x_ratio in H1. fold y_ratio in H2.
      exfalso. destruct Hcase as [E | E]; rewrite E in Hlt;
        eapply Qlt_not_le; eassumption.
    + right. eexists. eexists. split; [ reflexivity | ].
      assert (Hh0 : 0 <= min_ratio * inject_Z height)
        by (apply Qmult_le_0_compat; now apply Qlt_le_weak).
      assert (Hw0 : 0 <= min_ratio * inject_Z width)
        by (apply Qmult_le_0_compat; now apply Qlt_le_weak).
      assert (Hhh : min_ratio * inject_Z height <= inject_Z height).
      { rewrite <- (Qmult_1_l (inject_Z height)) at 2.
        apply Qmult_le_compat_r; now apply Qlt_le_weak. }
      assert (Hww : min_ratio * inject_Z width <= inject_Z width).
      { rewrite <- (Qmult_1_l (inject_Z width)) at 2.
        apply Qmult_le_compat_r; now apply Qlt_le_weak. }
      pose proof (py_int_bounds _ 600 Hw0 Hmw).
      pose proof (py_int_bounds _ 600 Hh0 Hmh).
      pose proof (py_int_bounds _ width Hw0 Hww).
      pose proof (py_int_bounds _ height Hh0 Hhh).
      lia.
Qed.

Lemma resize_shrinks_into_the_limit_witness :
  YeadonModel._resize 1200 900
  = Some (YeadonModel.Resize (450, 600)%Z) /\
  (YeadonModel._resize 600 400 = Some YeadonModel.Copy <->
   (600 <= 600 /\ 400 <= 600)%Z).
Proof.
  split; [ vm_compute; reflexivity | ].
  apply (resize_shrinks_into_the_limit 600 400); reflexivity.
Defined.

(** X26.  An image more than 600 times as wide as it is high is resized to
    height 0: the ratio is taken from the width, and the scaled height is
    below one pixel. *)
Theorem resize_flattens_a_long_image (height width : Z) :
  (0 < height)%Z -> (600 * height < width)%Z ->
  exists new_width,
    YeadonModel._resize height width
    = Some (YeadonModel.Resize (new_width, 0%Z)).
Proof.
  intros Hh Hlong. assert (Hw : (0 < width)%Z) by lia.
  destruct (resize_min_ratio height width Hh Hw)
    as (Hpos & Hmx & Hmy & Hcase & Hmh & Hmw).
  pose proof (inject_Z_pos height Hh) as Hph.
  pose proof (inject_Z_pos width Hw) as Hpw.
  unfold YeadonModel._resize. cbv beta iota zeta.
  destruct (Z.eqb_spec height 0) as [E | _]; [ lia | ].
  destruct (Z.eqb_spec width 0) as [E | _]; [ lia | ]. cbn [orb].
  set (x_ratio := inject_Z YeadonModel.RESIZE_SIZE / inject_Z height) in *.
  set (y_ratio := inject_Z YeadonModel.RESIZE_SIZE / inject_Z width) in *.
  set (min_ratio := if Qlt_bool y_ratio x_ratio then y_ratio else x_ratio) in *.
  assert (Hsmall : min_ratio * inject_Z height < 1).
  { apply Qle_lt_trans with (y_ratio * inject_Z height).
    - apply Qmult_le_compat_r; [ exact Hmy | now apply Qlt_le_weak ].
    - unfold y_ratio. unfold Qdiv.
      rewrite <- Qmult_assoc, (Qmult_comm (/ inject_Z width)), Qmult_assoc.
      apply Qlt_shift_div_r; [ exact Hpw | ]. rewrite Qmult_1_l.
      rewrite <- inject_Z_mult, <- Zlt_Qlt. exact Hlong. }
  assert (Hlt : min_ratio < 1).
  { apply Qle_lt_trans with (min_ratio * inject_Z height); [ | exact Hsmall ].
    rewrite <- (Qmult_1_r min_ratio) at 1.
    apply Qmult_le_l; [ exact Hpos | ].
    change 1 with (inject_Z 1). rewrite <- Zle_Qle. lia. }
  destruct (Qle_bool 1 min_ratio) eqn:Hcopy.
  - apply Qle_bool_iff in Hcopy. exfalso. eapply Qlt_not_le; eassumption.
  - eexists. do 3 f_equal. apply py_int_below_one; [ | exact Hsmall ].
    apply Qmult_le_0_compat; now apply Qlt_le_weak.
Qed.

Lemma resize_flattens_a_long_image_witness :
  exists new_width,
    YeadonModel._resize 1 601 = Some (YeadonModel.Resize (new_width, 0%Z)).
Proof.
  apply (resize_flattens_a_long_image 1 601); reflexivity.
Defined.

(** ** The stadium against the circle *)

(** X27.  [_stadium_perimeter] checks neither argument.  Its result exceeds
    the perimeter of the circle of diameter [depth] by twice the excess of
    [width] over [depth], so it falls below that circle when [width] is
    smaller than [depth]; it is still not negative as long as both arguments
    are not negative (and pi is at least 2). *)
Theorem stadium_against_the_circle (L : Libm) (width depth : Q) :
  2 <= np_pi L -> 0 <= width -> 0 <= depth ->
  YeadonModel._stadium_perimeter L width depth
  == YeadonModel._circle_perimeter L depth + 2 * (width - depth) /\
  (width < depth ->
   YeadonModel._stadium_perimeter L width depth
   < YeadonModel._circle_perimeter L depth) /\
  0 <= YeadonModel._stadium_perimeter L width depth.
Proof.
  intros Hpi Hw Hd.
  assert (E : YeadonModel._stadium_perimeter L width depth
              == YeadonModel._circle_perimeter L depth + 2 * (width - depth)).
  { unfold YeadonModel._stadium_perimeter, YeadonModel._circle_perimeter. field. }
  assert (C : YeadonModel._circle_perimeter L depth == np_pi L * depth).
  { unfold YeadonModel._circle_perimeter. field. }
  split; [ exact E | ]. split.
  - intros Hlt. rewrite E. lra.
  - rewrite E, C.
    assert (H : 2 * depth <= np_pi L * depth)
      by (apply Qmult_le_compat_r; assumption).
    lra.
Qed.

Lemma stadium_against_the_circle_witness :
  YeadonModel._stadium_perimeter Approx.libm 5 10
  < YeadonModel._circle_perimeter Approx.libm 10 /\
  0 <= YeadonModel._stadium_perimeter Approx.libm 5 10.
Proof.
  destruct (stadium_against_the_circle Approx.libm 5 10) as (_ & Hlt & Hpos);
    try discriminate.
  split; [ apply Hlt; reflexivity | exact Hpos ].
Defined.

(** ** The front landmarks on a raster without boundary *)

Lemma crop_without_boundary (edges : Raster) (a b : Point2D) :
  no_boundary edges ->
  np_where YeadonModel.is_255 (YeadonModel.crop edges a b) = [].
Proof.
  intros Hblank. apply np_where_nil. intros r c _ _.
  unfold YeadonModel.crop. cbv beta iota zeta.
  destruct (_ >? _)%Z; destruct (_ >? _)%Z; cbn [np_slice2 pixel];
    unfold YeadonModel.is_255; apply Z.eqb_neq; apply Hblank.
Qed.

(** X28.  On a raster without boundary pixel the construction of the front
    landmarks ends in an IndexError, whatever the keypoints: the search for
    the left acromion, the first of the unguarded calls, finds no boundary
    pixel in its crop, and the right acromion search would fail the same
    way. *)
Theorem front_landmarks_need_a_boundary
    (L : Libm) (fuel : nat) (edges : Raster) (data : nat -> Point2D) :
  no_boundary edges ->
  YeadonModel._find_acromion_left edges data = Raise IndexError /\
  YeadonModel._find_acromion_right edges data = Raise IndexError /\
  YeadonModel.init_front_landmarks L fuel edges data = Raise IndexError.
Proof.
  intros Hblank.
  assert (Hl : YeadonModel._find_acromion_left edges data = Raise IndexError).
  { unfold YeadonModel._find_acromion_left. cbv beta iota zeta.
    apply (acromion_faults Point2D edges (data 3%nat) (data 5%nat)
             (fun c r => Ok (fst (data 3%nat) + inject_Z (Z.of_nat c),
                             snd (data 3%nat) + inject_Z (Z.of_nat r)))).
    now apply crop_without_boundary. }
  split; [ exact Hl | ]. split.
  - unfold YeadonModel._find_acromion_right. cbv beta iota zeta.
    apply (acromion_faults Point2D edges (data 4%nat) (data 6%nat)
             (fun c r => Ok (fst (data 4%nat) - inject_Z (Z.of_nat c),
                             snd (data 4%nat) + inject_Z (Z.of_nat r)))).
    now apply crop_without_boundary.
  - unfold YeadonModel.init_front_landmarks. rewrite Hl. reflexivity.
Qed.

Lemma front_landmarks_need_a_boundary_witness :
  YeadonModel.init_front_landmarks Approx.libm 10 Examples.blank22
    (fun i => if Nat.eqb i 3 then (0, 0) else (2, 2)) = Raise IndexError.
Proof.
  apply (front_landmarks_need_a_boundary Approx.libm 10 Examples.blank22
           (fun i => if Nat.eqb i 3 then (0, 0) else (2, 2))).
  exact blank22_no_boundary.
Defined.

(** ** The extremum search: positions in the hit lists and samples *)

Lemma range_skip_misses (L : Libm) (fuel : nat) (angle : Q) (edges : Raster) :
  forall m samples,
    (m <= length samples)%nat ->
    (forall j, (j < m)%nat ->
       find_edge_loop L fuel (nth j samples (0, 0)) angle edges 0 = Ok []) ->
    get_maximum.get_maximum_range L fuel angle samples edges
    = get_maximum.get_maximum_range L fuel angle (skipn m samples) edges.
Proof.
  induction m as [ | m IH ]; intros samples Hlen Hmiss; [ reflexivity | ].
  destruct samples as [ | p rest ]; [ cbn in Hlen; lia | ].
  cbn [get_maximum.get_maximum_range skipn].
  pose proof (Hmiss 0%nat ltac:(lia)) as H0. cbn [nth] in H0.
  rewrite H0. cbn [bind].
  rewrite <- (IH rest).
  - destruct (get_maximum.get_maximum_range L fuel angle rest edges);
      reflexivity.
  - cbn in Hlen. lia.
  - intros j Hj. apply (Hmiss (S j)). lia.
Qed.

Lemma range_all_hit (L : Libm) (fuel : nat) (angle : Q) (edges : Raster) :
  forall samples,
    (forall j, (j < length samples)%nat -> exists a,
       find_edge_loop L fuel (nth j samples (0, 0)) angle edges 0 = Ok [a]) ->
    exists side,
      get_maximum.get_maximum_range L fuel angle samples edges = Ok side /\
      length side = length samples.
Proof.
  induction samples as [ | p rest IH ]; intros Hhit.
  - exists []. split; reflexivity.
  - destruct (Hhit 0%nat) as [a Ha]; [ cbn; lia | ].
    destruct IH as (side & Hside & Hlen).
    { intros j Hj. apply (Hhit (S j)). cbn. lia. }
    exists (a :: side). cbn [get_maximum.get_maximum_range nth] in *.
    rewrite Ha. cbn [bind]. rewrite Hside. cbn [bind app length].
    split; [ reflexivity | now rewrite Hlen ].
Qed.

Lemma nth_skipn_shift (A : Type) (d : A) : forall m (l : list A) k,
  nth k (skipn m l) d = nth (m + k) l d.
Proof.
  induction m as [ | m IH ]; intros l k; [ reflexivity | ].
  destruct l as [ | a l ]; [ now destruct k | ].
  cbn [skipn Nat.add nth]. apply IH.
Qed.

(** One side of the search when the first [m] samples miss and all others
    hit: the hit list has [100 - m] entries, and position [k] holds the hit
    of sample [k + m]. *)
Lemma range_after_misses (L : Libm) (fuel : nat) (angle : Q) (edges : Raster)
    (samples : list Point2D) (m : nat) :
  (m <= length samples)%nat ->
  (forall j, (j < m)%nat ->
     find_edge_loop L fuel (nth j samples (0, 0)) angle edges 0 = Ok []) ->
  (forall j, (m <= j < length samples)%nat -> exists a,
     find_edge_loop L fuel (nth j samples (0, 0)) angle edges 0 = Ok [a]) ->
  exists side,
    get_maximum.get_maximum_range L fuel angle samples edges = Ok side /\
    length side = (length samples - m)%nat /\
    forall k, (k < length samples - m)%nat ->
      find_edge_loop L fuel (nth (k + m) samples (0, 0)) angle edges 0
      = Ok [nth k side (0, 0)%Z].
Proof.
  intros Hm Hmiss Hhit.
  destruct (range_all_hit L fuel angle edges (skipn m samples))
    as (side & Hside & Hlen).
  { intros j Hj. rewrite length_skipn in Hj. rewrite nth_skipn_shift.
    apply Hhit. lia. }
  rewrite length_skipn in Hlen.
  exists side. split; [ | split; [ exact Hlen | ] ].
  - rewrite (range_skip_misses L fuel angle edges m samples Hm Hmiss).
    exact Hside.
  - intros k Hk.
    pose proof (range_aligned L fuel angle edges (skipn m samples) side Hside) as Hal.
    rewrite length_skipn in Hal. specialize (Hal Hlen k Hk).
    rewrite nth_skipn_shift, Nat.add_comm in Hal. exact Hal.
Qed.

(** C4.  The extremum search takes 100 evenly spaced samples from [start]
    to [end] and casts from each one ray at [theta + pi/2] and one at
    [theta - pi/2], [theta] being the direction of the segment; each side
    keeps the hits only.  When the first [m] samples miss on both sides and
    the other samples hit on both, the two hit lists have the same length
    [100 - m] and position [k] of either list holds the hit of sample
    [k + m]: the width at position [k] is the local width of sample
    [k + m].  [_get_maximum_point] selects the first position [i] of maximal
    width, and the free [get_maximum_point] the first position of maximal
    width before the first width above 1.5 times the first; but both
    return sample [i], in (x, y) order, where the selected width belongs to
    sample [i + m].  Only for [m = 0] is the returned sample the one
    selected. *)
Theorem extremum_search_counts_hits_not_samples
    (L : Libm) (fuel : nat) (start end_ : Point2D) (edges : Raster) (m : nat) :
  let p1 := (snd start, fst start) in
  let p2 := (snd end_, fst end_) in
  let theta := np_arctan2 L (snd p2 - snd p1) (fst p2 - fst p1) in
  let result := get_maximum.sample_points p1 p2 in
  (forall q, 0 <= np_sqrt L q) ->
  (m < 100)%nat ->
  (forall j, (j < m)%nat ->
     find_edge L fuel (nth j result (0, 0)) p2 (theta + np_pi L / 2) edges
     = Ok [] /\
     find_edge L fuel (nth j result (0, 0)) p2 (theta - np_pi L / 2) edges
     = Ok []) ->
  (forall j, (m <= j < 100)%nat -> exists a b,
     find_edge L fuel (nth j result (0, 0)) p2 (theta + np_pi L / 2) edges
     = Ok [a] /\
     find_edge L fuel (nth j result (0, 0)) p2 (theta - np_pi L / 2) edges
     = Ok [b]) ->
  length result = 100%nat /\
  (forall i, (i < 100)%nat ->
     nth i result (0, 0) =
     (inject_Z (Z.of_nat i) * ((fst p2 - fst p1) / inject_Z 99) + fst p1,
      inject_Z (Z.of_nat i) * ((snd p2 - snd p1) / inject_Z 99) + snd p1)) /\
  exists r_side l_side,
    length r_side = (100 - m)%nat /\ length l_side = (100 - m)%nat /\
    (forall k, (k < 100 - m)%nat ->
       find_edge L fuel (nth (k + m) result (0, 0)) p2 (theta + np_pi L / 2)
         edges = Ok [nth k r_side (0, 0)%Z] /\
       find_edge L fuel (nth (k + m) result (0, 0)) p2 (theta - np_pi L / 2)
         edges = Ok [nth k l_side (0, 0)%Z] /\
       nth k (widths L r_side l_side) 0
       = pixel_distance L (nth k r_side (0, 0)%Z) (nth k l_side (0, 0)%Z)) /\
    (exists i,
       first_max (widths L r_side l_side) i /\
       YeadonModel._get_maximum_point L fuel start end_ edges =
       Ok (snd (nth i result (0, 0)), fst (nth i result (0, 0)))) /\
    (exists stop i,
       first_above (nth 0 (widths L r_side l_side) 0 * 1.5)
         (widths L r_side l_side) stop /\
       first_max (firstn stop (widths L r_side l_side)) i /\
       get_maximum.get_maximum_point L fuel start end_ edges =
       Ok (snd (nth i result (0, 0)), fst (nth i result (0, 0)))).
Proof.
  intros p1 p2 theta result Hsqrt Hm Hmiss Hhit.
  assert (Hlen : length result = 100%nat) by apply sample_points_length.
  split; [ exact Hlen | ]. split; [ apply sample_points_nth | ].
  destruct (range_after_misses L fuel (theta + np_pi L / 2) edges result m)
    as (r_side & Hr & Hrl & Hrk).
  { lia. }
  { intros j Hj. exact (proj1 (Hmiss j Hj)). }
  { intros j Hj. rewrite Hlen in Hj. destruct (Hhit j Hj) as (a & _ & Ha & _).
    now exists a. }
  destruct (range_after_misses L fuel (theta - np_pi L / 2) edges result m)
    as (l_side & Hl & Hll & Hlk).
  { lia. }
  { intros j Hj. exact (proj2 (Hmiss j Hj)). }
  { intros j Hj. rewrite Hlen in Hj. destruct (Hhit j Hj) as (_ & b & _ & Hb).
    now exists b. }
  rewrite Hlen in Hrl, Hll, Hrk, Hlk.
  assert (Heq : length r_side = length l_side) by lia.
  assert (Hne : r_side <> []) by (intros E; rewrite E in Hrl; cbn [length] in Hrl; lia).
  exists r_side, l_side.
  split; [ exact Hrl | ]. split; [ exact Hll | ]. split.
  { intros k Hk. split; [ exact (Hrk k Hk) | ]. split; [ exact (Hlk k Hk) | ].
    apply widths_nth; [ exact Heq | lia ]. }
  destruct (maximum_point_from_parts L fuel start end_ edges r_side l_side Hr Hl)
    as [F N]. fold p1 p2 result in F, N.
  destruct (get_max_approx_indices L r_side l_side Hsqrt Heq Hne)
    as [(i & Hi & Ei) (stop & j & Habove & Hj & Ej)].
  pose proof (widths_length L r_side l_side Heq) as Hwl.
  split.
  - exists i. split; [ exact Hi | ]. rewrite N, Ei. cbn [bind].
    apply index_reversed_sample. destruct Hi as (Hi & _). lia.
  - exists stop, j. split; [ exact Habove | ]. split; [ exact Hj | ].
    rewrite F, Ej. cbn [bind]. apply index_reversed_sample.
    destruct Hj as (Hj' & _). rewrite length_firstn in Hj'. lia.
Qed.

Lemma range_nil_misses (L : Libm) (fuel : nat) (angle : Q) (edges : Raster) :
  forall samples,
    get_maximum.get_maximum_range L fuel angle samples edges = Ok [] ->
    forall j, (j < length samples)%nat ->
      find_edge_loop L fuel (nth j samples (0, 0)) angle edges 0 = Ok [].
Proof.
  induction samples as [ | p rest IH ]; intros H j Hj; [ cbn in Hj; lia | ].
  cbn [get_maximum.get_maximum_range] in H.
  destruct (find_edge_loop L fuel p angle edges 0) as [hit | e | ] eqn:Hray;
    cbn [bind] in H; try discriminate H.
  destruct (get_maximum.get_maximum_range L fuel angle rest edges)
    as [save | e | ]; cbn [bind] in H; try discriminate H.
  injection H as H. apply app_eq_nil in H. destruct H as [-> ->].
  destruct j as [ | j ]; [ exact Hray | ].
  cbn [nth]. apply IH; [ reflexivity | cbn in Hj; lia ].
Qed.

Lemma below_miss_plus :
  get_maximum.get_maximum_range Approx.libm 400
    (get_maximum.vector_angle_plus Approx.libm (0, 2.5) (2.97, 2.5))
    (firstn 34 (get_maximum.sample_points (0, 2.5) (2.97, 2.5)))
    Examples.taper_below
  = Ok [].
Proof. run_range. Qed.

Lemma below_miss_minus :
  get_maximum.get_maximum_range Approx.libm 400
    (get_maximum.vector_angle_minus Approx.libm (0, 2.5) (2.97, 2.5))
    (firstn 34 (get_maximum.sample_points (0, 2.5) (2.97, 2.5)))
    Examples.taper_below
  = Ok [].
Proof. run_range. Qed.

Lemma below_hit_plus :
  get_maximum.get_maximum_range Approx.libm 400
    (get_maximum.vector_angle_plus Approx.libm (0, 2.5) (2.97, 2.5))
    (skipn 34 (get_maximum.sample_points (0, 2.5) (2.97, 2.5)))
    Examples.taper_below
  = Ok (repeat (3, 1)%Z 33 ++ repeat (4, 2)%Z 33).
Proof. run_range. Qed.

Lemma below_hit_minus :
  get_maximum.get_maximum_range Approx.libm 400
    (get_maximum.vector_angle_minus Approx.libm (0, 2.5) (2.97, 2.5))
    (skipn 34 (get_maximum.sample_points (0, 2.5) (2.97, 2.5)))
    Examples.taper_below
  = Ok (repeat (1, 1)%Z 33 ++ repeat (0, 2)%Z 33).
Proof. run_range. Qed.

Lemma below_misses (angle : Q) :
  get_maximum.get_maximum_range Approx.libm 400 angle
    (firstn 34 (get_maximum.sample_points (0, 2.5) (2.97, 2.5)))
    Examples.taper_below = Ok [] ->
  forall j, (j < 34)%nat ->
    find_edge_loop Approx.libm 400
      (nth j (get_maximum.sample_points (0, 2.5) (2.97, 2.5)) (0, 0))
      angle Examples.taper_below 0 = Ok [].
Proof.
  intros H j Hj.
  rewrite <- (nth_firstn_lt Point2D _ (0, 0) 34 j Hj).
  apply (range_nil_misses Approx.libm 400 angle Examples.taper_below _ H).
  rewrite length_firstn, sample_points_length. lia.
Qed.

Lemma below_hits (angle : Q) (side : list Pixel) :
  get_maximum.get_maximum_range Approx.libm 400 angle
    (skipn 34 (get_maximum.sample_points (0, 2.5) (2.97, 2.5)))
    Examples.taper_below = Ok side ->
  length side = 66%nat ->
  forall j, (34 <= j < 100)%nat ->
    find_edge_loop Approx.libm 400
      (nth j (get_maximum.sample_points (0, 2.5) (2.97, 2.5)) (0, 0))
      angle Examples.taper_below 0 = Ok [nth (j - 34) side (0, 0)%Z].
Proof.
  intros H Hlen j Hj.
  pose proof (range_aligned Approx.libm 400 angle Examples.taper_below _ side H)
    as Hal.
  rewrite length_skipn, sample_points_length in Hal.
  specialize (Hal Hlen (j - 34)%nat ltac:(lia)).
  rewrite nth_skipn_shift in Hal.
  replace (34 + (j - 34))%nat with j in Hal by lia. exact Hal.
Qed.

Lemma below_right :
  get_maximum.get_maximum_range Approx.libm 400
    (get_maximum.vector_angle_plus Approx.libm (0, 2.5) (2.97, 2.5))
    (get_maximum.sample_points (0, 2.5) (2.97, 2.5)) Examples.taper_below
  = Ok (repeat (3, 1)%Z 33 ++ repeat (4, 2)%Z 33).
Proof.
  rewrite (range_skip_misses Approx.libm 400 _ Examples.taper_below 34).
  - exact below_hit_plus.
  - rewrite sample_points_length. lia.
  - exact (below_misses _ below_miss_plus).
Qed.

Lemma below_left :
  get_maximum.get_maximum_range Approx.libm 400
    (get_maximum.vector_angle_minus Approx.libm (0, 2.5) (2.97, 2.5))
    (get_maximum.sample_points (0, 2.5) (2.97, 2.5)) Examples.taper_below
  = Ok (repeat (1, 1)%Z 33 ++ repeat (0, 2)%Z 33).
Proof.
  rewrite (range_skip_misses Approx.libm 400 _ Examples.taper_below 34).
  - exact below_hit_minus.
  - rewrite sample_points_length. lia.
  - exact (below_misses _ below_miss_minus).
Qed.

(** The failing input of C4.  On the raster [taper_below] and the segment
    from (2.5, 0) to (2.5, 2.97) the samples 0 to 33 lie in row 0 and miss
    on both sides, the samples 34 to 66 lie in row 1 and are 2 wide, the
    samples 67 to 99 lie in row 2 and are 4 wide.  Both sides hold 66 hits.
    [_get_maximum_point] finds the first width 4 at position 33 and returns
    sample 33, the point (2.5, 0.99), which has no hit at all; the widest
    samples start at sample 67.  The free function leaves its loop at
    position 33 and returns sample 0. *)
Lemma extremum_search_returns_a_sample_without_hits :
  YeadonModel._get_maximum_point Approx.libm 400 (2.5, 0) (2.5, 2.97)
    Examples.taper_below
  = get_maximum.index_reversed
      (get_maximum.sample_points (0, 2.5) (2.97, 2.5)) (Some 33%nat) /\
  get_maximum.get_maximum_point Approx.libm 400 (2.5, 0) (2.5, 2.97)
    Examples.taper_below
  = get_maximum.index_reversed
      (get_maximum.sample_points (0, 2.5) (2.97, 2.5)) (Some 0%nat) /\
  (exists p, get_maximum.index_reversed
               (get_maximum.sample_points (0, 2.5) (2.97, 2.5)) (Some 33%nat)
             = Ok p /\ fst p == 2.5 /\ snd p == 0.99) /\
  local_width Approx.libm 400 (2.5, 0) (2.5, 2.97) Examples.taper_below 33
  = Ok None /\
  local_width Approx.libm 400 (2.5, 0) (2.5, 2.97) Examples.taper_below 34
  = Ok (Some 2) /\
  local_width Approx.libm 400 (2.5, 0) (2.5, 2.97) Examples.taper_below 67
  = Ok (Some 4) /\
  local_width Approx.libm 400 (2.5, 0) (2.5, 2.97) Examples.taper_below 0
  = Ok None.
Proof.
  destruct (maximum_point_from_parts Approx.libm 400 (2.5, 0) (2.5, 2.97)
              Examples.taper_below _ _ below_right below_left)
    as [Hfree Hnested].
  split; [ rewrite Hnested; vm_compute; reflexivity | ].
  split; [ rewrite Hfree; vm_compute; reflexivity | ].
  split.
  { eexists. split; [ vm_compute; reflexivity | ].
    split; vm_compute; reflexivity. }
  split; [ vm_compute; reflexivity | ].
  split; [ vm_compute; reflexivity | ].
  split; vm_compute; reflexivity.
Qed.

Lemma extremum_search_counts_hits_not_samples_witness :
  YeadonModel._get_maximum_point Approx.libm 400 (2.5, 0) (2.5, 2.97)
    Examples.taper_below
  = get_maximum.index_reversed
      (get_maximum.sample_points (0, 2.5) (2.97, 2.5)) (Some 33%nat) /\
  local_width Approx.libm 400 (2.5, 0) (2.5, 2.97) Examples.taper_below 33
  = Ok None /\
  local_width Approx.libm 400 (2.5, 0) (2.5, 2.97) Examples.taper_below 67
  = Ok (Some 4) /\
  exists r_side l_side,
    length r_side = 66%nat /\ length l_side = 66%nat /\
    (forall k, (k < 66)%nat ->
       find_edge Approx.libm 400
         (nth (k + 34) (get_maximum.sample_points (0, 2.5) (2.97, 2.5)) (0, 0))
         (2.97, 2.5)
         (get_maximum.vector_angle_plus Approx.libm (0, 2.5) (2.97, 2.5))
         Examples.taper_below = Ok [nth k r_side (0, 0)%Z]) /\
    exists i,
      first_max (widths Approx.libm r_side l_side) i /\
      YeadonModel._get_maximum_point Approx.libm 400 (2.5, 0) (2.5, 2.97)
        Examples.taper_below
      = Ok (snd (nth i (get_maximum.sample_points (0, 2.5) (2.97, 2.5)) (0, 0)),
            fst (nth i (get_maximum.sample_points (0, 2.5) (2.97, 2.5)) (0, 0))).
Proof.
  destruct extremum_search_returns_a_sample_without_hits
    as (E33 & _ & _ & W33 & _ & W67 & _).
  split; [ exact E33 | ]. split; [ exact W33 | ]. split; [ exact W67 | ].
  destruct (extremum_search_counts_hits_not_samples Approx.libm 400
              (2.5, 0) (2.5, 2.97) Examples.taper_below 34 approx_sqrt_nonneg)
    as (_ & _ & r_side & l_side & Hr & Hl & Hk & Hnested & _).
  - lia.
  - intros j Hj. split.
    + exact (below_misses _ below_miss_plus j Hj).
    + exact (below_misses _ below_miss_minus j Hj).
  - intros j Hj. eexists. eexists. split.
    + exact (below_hits _ _ below_hit_plus eq_refl j Hj).
    + exact (below_hits _ _ below_hit_minus eq_refl j Hj).
  - exists r_side, l_side. split; [ exact Hr | ]. split; [ exact Hl | ].
    split; [ | exact Hnested ].
    intros k Hk'. exact (proj1 (Hk k Hk')).
Defined.
